(** * MCP Gateway: policy engine, invocation pipeline, audit log and
      connector guards, embedded from the TypeScript sources.

    Conventions of the embedding.
    - A JavaScript string is a [string]; the model covers ASCII text
      (code units below 128): whitespace, word characters and case
      mapping are the ASCII fragments of the ECMAScript definitions.
    - A JavaScript value that travels as tool arguments or results is a
      [JSValue]; an object keeps its properties in enumeration order.
    - A JS object used as a dictionary ([per_tool], [arg_allowlist]) is
      a [gmap string _]; arrays are lists.
    - A function that can throw returns a sum: [inl] carries what is
      thrown, [inr] the value returned.
    - Libraries outside the repository (the WHATWG URL parser, RegExp,
      TextDecoder) are Section variables of the parts that call
      them. *)

From Stdlib Require Import ZArith NArith Ascii String List Bool Lia.
From stdpp Require Import base option list gmap strings.

Local Open Scope Z_scope.

#[local] Set Warnings "-register-all".

(* stdpp keeps [simpl] from unfolding string append; the proofs below
   compute with it. *)
#[local] Arguments String.append !_ _ / : simpl nomatch.

(** ** JavaScript string primitives *)

Module JSString.

Definition chr (n : nat) : ascii := ascii_of_nat n.

Definition code (c : ascii) : nat := nat_of_ascii c.

Definition str1 (c : ascii) : string := String c EmptyString.

(** The double quote character, U+0022. *)
Definition dq : string := str1 (chr 34).

Definition char_eqb (a b : ascii) : bool := Ascii.eqb a b.

Definition in_range (lo hi : nat) (c : ascii) : bool :=
  (Nat.leb lo (code c)) && (Nat.leb (code c) hi).

(** [\s] restricted to ASCII: TAB, LF, VT, FF, CR, SPACE. *)
Definition is_ws (c : ascii) : bool :=
  in_range 9 13 c || Nat.eqb (code c) 32.

(** Line terminators of the [.] and [$] regex atoms: LF and CR. *)
Definition is_line_terminator (c : ascii) : bool :=
  Nat.eqb (code c) 10 || Nat.eqb (code c) 13.

(** [\w]: letters, digits and underscore. *)
Definition is_word (c : ascii) : bool :=
  in_range 48 57 c || in_range 65 90 c || in_range 97 122 c
  || Nat.eqb (code c) 95.

Definition is_digit (c : ascii) : bool := in_range 48 57 c.

Definition upper_char (c : ascii) : ascii :=
  if in_range 97 122 c then chr (code c - 32) else c.

Definition lower_char (c : ascii) : ascii :=
  if in_range 65 90 c then chr (code c + 32) else c.

Fixpoint map_chars (f : ascii -> ascii) (s : string) : string :=
  match s with
  | EmptyString => EmptyString
  | String c r => String (f c) (map_chars f r)
  end.

Definition toUpperCase : string -> string := map_chars upper_char.

Definition toLowerCase : string -> string := map_chars lower_char.

(** [s.startsWith(p)] *)
Fixpoint startsWith (s p : string) {struct p} : bool :=
  match p, s with
  | EmptyString, _ => true
  | String _ _, EmptyString => false
  | String b p', String a s' => char_eqb a b && startsWith s' p'
  end.

(** [s.endsWith(p)]: some suffix of [s] is [p]. *)
Fixpoint endsWith (s p : string) : bool :=
  String.eqb s p ||
  match s with
  | EmptyString => false
  | String _ s' => endsWith s' p
  end.

(** [s.includes(p)]: [p] starts at some position of [s]. *)
Fixpoint includes (s p : string) : bool :=
  startsWith s p ||
  match s with
  | EmptyString => false
  | String _ s' => includes s' p
  end.

(** [s.slice(n)] for [0 <= n]. *)
Fixpoint slice (n : nat) (s : string) : string :=
  match n, s with
  | O, _ => s
  | S _, EmptyString => EmptyString
  | S n', String _ s' => slice n' s'
  end.

(** [s.split(c)] for a one-character separator: never empty. *)
Fixpoint split_char_go (sep : ascii) (cur s : string) : list string :=
  match s with
  | EmptyString => [cur]
  | String c r =>
      if char_eqb c sep then cur :: split_char_go sep EmptyString r
      else split_char_go sep (cur +:+ str1 c) r
  end.

Definition split_char (sep : ascii) (s : string) : list string :=
  split_char_go sep EmptyString s.

(** [s.split(/\s+/)]: a maximal run of whitespace is one separator. *)
Fixpoint split_ws_go (cur : string) (in_run : bool) (s : string)
  : list string :=
  match s with
  | EmptyString => [cur]
  | String c r =>
      if is_ws c then
        if in_run then split_ws_go cur true r
        else cur :: split_ws_go EmptyString true r
      else split_ws_go (cur +:+ str1 c) false r
  end.

Definition split_ws (s : string) : list string :=
  split_ws_go EmptyString false s.

Fixpoint trimStart (s : string) : string :=
  match s with
  | EmptyString => EmptyString
  | String c r => if is_ws c then trimStart r else s
  end.

Fixpoint all_ws (s : string) : bool :=
  match s with
  | EmptyString => true
  | String c r => is_ws c && all_ws r
  end.

Fixpoint trimEnd (s : string) : string :=
  match s with
  | EmptyString => EmptyString
  | String c r => if all_ws s then EmptyString else String c (trimEnd r)
  end.

Definition trim (s : string) : string := trimEnd (trimStart s).

(** [parts.join(sep)] *)
Fixpoint join (sep : string) (l : list string) : string :=
  match l with
  | [] => EmptyString
  | [x] => x
  | x :: r => x +:+ sep +:+ join sep r
  end.

Definition string_in (s : string) (l : list string) : bool :=
  existsb (String.eqb s) l.

(** The character [c] occurs in [s]. *)
Fixpoint has_char (c : ascii) (s : string) : bool :=
  match s with
  | EmptyString => false
  | String x r => char_eqb x c || has_char c r
  end.

(** Some whitespace character occurs in [s]. *)
Fixpoint has_ws (s : string) : bool :=
  match s with
  | EmptyString => false
  | String c r => is_ws c || has_ws r
  end.

End JSString.

Import JSString.

(** ** SHA-256 (FIPS 180-4), the digest behind [createHash('sha256')] *)

Module SHA256.
Local Open Scope N_scope.

Definition w32 (x : N) : N := N.land x 4294967295.

Definition add32 (x y : N) : N := w32 (x + y).

Definition rotr (n x : N) : N :=
  w32 (N.lor (N.shiftr x n) (N.shiftl x (32 - n))).

Definition shr (n x : N) : N := N.shiftr x n.

Definition not32 (x : N) : N := N.lxor x 4294967295.

Definition Ch (x y z : N) : N :=
  N.lxor (N.land x y) (N.land (not32 x) z).

Definition Maj (x y z : N) : N :=
  N.lxor (N.lxor (N.land x y) (N.land x z)) (N.land y z).

Definition Sigma0 (x : N) : N :=
  N.lxor (N.lxor (rotr 2 x) (rotr 13 x)) (rotr 22 x).

Definition Sigma1 (x : N) : N :=
  N.lxor (N.lxor (rotr 6 x) (rotr 11 x)) (rotr 25 x).

Definition sigma0 (x : N) : N :=
  N.lxor (N.lxor (rotr 7 x) (rotr 18 x)) (shr 3 x).

Definition sigma1 (x : N) : N :=
  N.lxor (N.lxor (rotr 17 x) (rotr 19 x)) (shr 10 x).

(** The constants are derived as the standard defines them: the first
    32 bits of the fractional parts of the cube roots (for [K]) and of
    the square roots (for [H0]) of the first primes. *)
Definition is_prime (n : nat) : bool :=
  Nat.ltb 1 n
  && forallb (fun d => negb (Nat.eqb (n mod d) 0)) (seq 2 (n - 2)).

Definition first_primes (count : nat) : list N :=
  map N.of_nat (firstn count (List.filter is_prime (seq 2 310))).

(** Largest [r] with [r * r * r <= n], one bit at a time. *)
Fixpoint cube_root_bits (bits : nat) (n r : N) : N :=
  match bits with
  | O => r
  | S b =>
      let r' := r + N.shiftl 1 (N.of_nat b) in
      cube_root_bits b n (if r' * r' * r' <=? n then r' else r)
  end.

Definition frac_cube_root (p : N) : N :=
  w32 (cube_root_bits 36 (N.shiftl p 96) 0).

Definition frac_square_root (p : N) : N :=
  w32 (N.sqrt (N.shiftl p 64)).

Definition K : list N := Eval vm_compute in map frac_cube_root (first_primes 64).

Definition H0 : list N := Eval vm_compute in map frac_square_root (first_primes 8).

Fixpoint bytes_of_string (s : string) : list N :=
  match s with
  | EmptyString => []
  | String c r => N_of_ascii c :: bytes_of_string r
  end.

(** Big-endian bytes of [x], [n] of them. *)
Fixpoint be_bytes (n : nat) (x : N) : list N :=
  match n with
  | O => []
  | S n' => N.land (N.shiftr x (8 * N.of_nat n')) 255 :: be_bytes n' x
  end.

(** Message, then 0x80, then zeros up to 56 mod 64, then the bit length. *)
Definition pad (msg : list N) : list N :=
  let len := length msg in
  let zeros := ((64 - ((len + 9) mod 64)) mod 64)%nat in
  msg ++ [128] ++ repeat 0 zeros ++ be_bytes 8 (8 * N.of_nat len).

Fixpoint words_of_bytes (fuel : nat) (bs : list N) : list N :=
  match fuel, bs with
  | S f, a :: b :: c :: d :: r =>
      (N.shiftl a 24 + N.shiftl b 16 + N.shiftl c 8 + d)
        :: words_of_bytes f r
  | _, _ => []
  end.

Definition wd (w : list N) (i : nat) : N := nth i w 0.

Fixpoint schedule (n : nat) (w : list N) : list N :=
  match n with
  | O => w
  | S n' =>
      let t := length w in
      let x :=
        add32 (add32 (sigma1 (wd w (t - 2))) (wd w (t - 7)))
              (add32 (sigma0 (wd w (t - 15))) (wd w (t - 16))) in
      schedule n' (w ++ [x])
  end.

Record regs := Regs { ra : N; rb : N; rc : N; rd : N;
                      re : N; rf : N; rg : N; rh : N }.

Definition round (s : regs) (kw : N * N) : regs :=
  let '(k, w) := kw in
  let t1 :=
    add32 (add32 (add32 (rh s) (Sigma1 (re s)))
                 (add32 (Ch (re s) (rf s) (rg s)) k)) w in
  let t2 := add32 (Sigma0 (ra s)) (Maj (ra s) (rb s) (rc s)) in
  Regs (add32 t1 t2) (ra s) (rb s) (rc s)
       (add32 (rd s) t1) (re s) (rf s) (rg s).

Definition regs_of (h : list N) : regs :=
  Regs (wd h 0) (wd h 1) (wd h 2) (wd h 3)
       (wd h 4) (wd h 5) (wd h 6) (wd h 7).

Definition compress (h : list N) (block : list N) : list N :=
  let w := schedule 48 block in
  let s0 := regs_of h in
  let s := fold_left round (combine K w) s0 in
  [ add32 (ra s0) (ra s); add32 (rb s0) (rb s);
    add32 (rc s0) (rc s); add32 (rd s0) (rd s);
    add32 (re s0) (re s); add32 (rf s0) (rf s);
    add32 (rg s0) (rg s); add32 (rh s0) (rh s) ].

Fixpoint blocks (fuel : nat) (ws : list N) : list (list N) :=
  match fuel, ws with
  | _, [] => []
  | O, _ => []
  | S f, _ => firstn 16 ws :: blocks f (skipn 16 ws)
  end.

Definition hex_digit (n : N) : ascii :=
  if n <? 10 then ascii_of_N (48 + n) else ascii_of_N (87 + n).

Fixpoint hex_of (digits : nat) (x : N) : string :=
  match digits with
  | O => EmptyString
  | S d => String (hex_digit (N.land (N.shiftr x (4 * N.of_nat d)) 15))
                  (hex_of d x)
  end.

Definition digest_words (msg : list N) : list N :=
  let p := pad msg in
  let ws := words_of_bytes (length p) p in
  fold_left compress (blocks (length ws) ws) H0.

(** [createHash('sha256').update(s).digest('hex')] *)
Definition sha256_hex (s : string) : string :=
  String.concat EmptyString
    (map (hex_of 8) (digest_words (bytes_of_string s))).

End SHA256.

(** ** JavaScript values and [JSON.stringify] *)

Module JS.

(** Values that cross the tool boundary. [JObj] lists the own
    enumerable properties in enumeration order, the order in which
    [Object.entries] and [JSON.stringify] visit them. Numbers are the
    integers (printed in decimal, as JS does below 1e21). *)
Inductive JSValue : Type :=
| JUndefined
| JNull
| JBool (b : bool)
| JNum (n : Z)
| JStr (s : string)
| JArr (xs : list JSValue)
| JObj (props : list (string * JSValue)).

Definition digit_char (n : nat) : ascii := chr (48 + n).

Fixpoint digits_go (fuel : nat) (n : nat) (acc : string) : string :=
  match fuel with
  | O => acc
  | S f =>
      let acc' := String (digit_char (n mod 10)) acc in
      if Nat.ltb n 10 then acc' else digits_go f (n / 10) acc'
  end.

Definition nat_to_string (n : nat) : string :=
  digits_go (S n) n EmptyString.

(** [String(n)] for an integer [n]. *)
Definition number_to_string (n : Z) : string :=
  if n <? 0 then "-" +:+ nat_to_string (Z.to_nat (- n))
  else nat_to_string (Z.to_nat n).

Definition hex4 (n : nat) : string :=
  SHA256.hex_of 4 (N.of_nat n).

(** One character of [QuoteJSONString]. *)
Definition quote_char (c : ascii) : string :=
  let n := code c in
  if Nat.eqb n 34 then "\" +:+ dq
  else if Nat.eqb n 92 then "\\"
  else if Nat.eqb n 8 then "\b"
  else if Nat.eqb n 12 then "\f"
  else if Nat.eqb n 10 then "\n"
  else if Nat.eqb n 13 then "\r"
  else if Nat.eqb n 9 then "\t"
  else if Nat.ltb n 32 then "\u" +:+ hex4 n
  else str1 c.

Fixpoint quote_body (s : string) : string :=
  match s with
  | EmptyString => EmptyString
  | String c r => quote_char c +:+ quote_body r
  end.

Definition quote (s : string) : string := dq +:+ quote_body s +:+ dq.

(** [JSON.stringify(v)]: [None] is the JS [undefined] it returns for
    an undefined value. Inside an array an undefined element prints
    as null; inside an object a property whose value is undefined is
    left out. *)
Fixpoint stringify (v : JSValue) : option string :=
  match v with
  | JUndefined => None
  | JNull => Some "null"
  | JBool b => Some (if b then "true" else "false")
  | JNum n => Some (number_to_string n)
  | JStr s => Some (quote s)
  | JArr xs =>
      Some ("[" +:+
            join "," (map (fun x => default "null" (stringify x)) xs)
            +:+ "]")
  | JObj ps =>
      Some ("{" +:+
            join ","
              (omap (fun kv =>
                       match stringify (snd kv) with
                       | Some s => Some (quote (fst kv) +:+ ":" +:+ s)
                       | None => None
                       end) ps)
            +:+ "}")
  end.

(** [JSON.stringify(v)] inside a template literal. *)
Definition stringify_text (v : JSValue) : string :=
  default "undefined" (stringify v).

(** [Buffer.byteLength(s, 'utf-8')] on ASCII text. *)
Definition byteLength (s : string) : Z := Z.of_nat (String.length s).

(** [a === b] for values of separate origin (arguments against
    configuration): primitives compare by value, and two objects or
    arrays are never the same reference. *)
Definition strict_equal (a b : JSValue) : bool :=
  match a, b with
  | JUndefined, JUndefined => true
  | JNull, JNull => true
  | JBool x, JBool y => Bool.eqb x y
  | JNum x, JNum y => Z.eqb x y
  | JStr x, JStr y => String.eqb x y
  | _, _ => false
  end.

(** [Object.entries(v)]: the own properties of an object, the
    elements of an array under their indices, the characters of a
    string under theirs, nothing for a number or a boolean. The
    arguments have type [Record<string, unknown>] and both transports
    replace a missing value by the empty object, so null and
    undefined (for which [Object.entries] throws) do not occur; the
    model gives them no entries. *)
Fixpoint indexed (i : nat) (xs : list JSValue) : list (string * JSValue) :=
  match xs with
  | [] => []
  | x :: r => (nat_to_string i, x) :: indexed (S i) r
  end.

Fixpoint chars (s : string) : list JSValue :=
  match s with
  | EmptyString => []
  | String c r => JStr (str1 c) :: chars r
  end.

Definition entries (v : JSValue) : list (string * JSValue) :=
  match v with
  | JObj ps => ps
  | JArr xs => indexed 0 xs
  | JStr s => indexed 0 (chars s)
  | _ => []
  end.

(** Own property read, [obj[k]]. *)
Fixpoint get_prop (k : string) (ps : list (string * JSValue))
  : option JSValue :=
  match ps with
  | [] => None
  | (k', v) :: r => if String.eqb k k' then Some v else get_prop k r
  end.

(** Property names every plain object inherits from
    [Object.prototype]; the [in] operator sees them. *)
Definition Object_prototype_keys : list string :=
  [ "constructor"; "__defineGetter__"; "__defineSetter__";
    "hasOwnProperty"; "__lookupGetter__"; "__lookupSetter__";
    "isPrototypeOf"; "propertyIsEnumerable"; "toString"; "valueOf";
    "__proto__"; "toLocaleString" ].

End JS.

Import JS.

(** ** Error classes (core/errors.ts) *)

Module Errors.

(** What a [throw] carries: an instance of [GatewayError] (or of one
    of its subclasses) with its code, another [Error], or a value
    that is not an [Error] at all. *)
Inductive Thrown : Type :=
| GatewayError (name code message : string)
| OtherError (name message : string)
| NonError.

Definition PolicyDeniedError (tool reason : string) : Thrown :=
  GatewayError "PolicyDeniedError" "POLICY_DENIED"
               ("Policy denied: " +:+ reason).

Definition TimeoutError (tool : string) (timeoutMs : Z) : Thrown :=
  GatewayError "TimeoutError" "TIMEOUT"
    ("Tool " +:+ tool +:+ " timed out after "
     +:+ number_to_string timeoutMs +:+ "ms").

Definition ConnectorError (connector message : string) : Thrown :=
  GatewayError "ConnectorError" "CONNECTOR_ERROR"
    ("Connector " +:+ connector +:+ ": " +:+ message).

Definition MaxBytesExceededError (maxBytes actualBytes : Z) : Thrown :=
  GatewayError "MaxBytesExceededError" "MAX_BYTES_EXCEEDED"
    ("Response exceeded max bytes: " +:+ number_to_string actualBytes
     +:+ " > " +:+ number_to_string maxBytes).

Definition SecurityError (message : string) : Thrown :=
  GatewayError "SecurityError" "SECURITY_ERROR" message.

Definition isGatewayError (e : Thrown) : bool :=
  match e with
  | GatewayError _ _ _ => true
  | _ => false
  end.

Definition errorToCode (e : Thrown) : string :=
  match e with
  | GatewayError _ code _ => code
  | OtherError _ _ => "INTERNAL_ERROR"
  | NonError => "UNKNOWN_ERROR"
  end.

(** [err instanceof Error ? err.message : 'Unknown error'] *)
Definition error_message (e : Thrown) : string :=
  match e with
  | GatewayError _ _ m => m
  | OtherError _ m => m
  | NonError => "Unknown error"
  end.

End Errors.

Import Errors.

(** ** Policy engine (core/policy.ts) *)

Module Policy.

(** One [per_tool] record. [allow] is read by [checkPolicy] with
    [=== false] and [=== true], so the engine tells three states
    apart; [None] is a record that carries no [allow] property. *)
Record ToolPolicy : Type := {
  allow : option bool;
  max_bytes : option Z;
  timeout_ms : option Z;
  arg_allowlist : option (gmap string JSValue)
}.

Record PolicyConfig : Type := {
  default_deny : bool;
  allow_tools : list string;
  deny_tools : list string;
  per_tool : gmap string ToolPolicy;
  global_timeout_ms : Z;
  global_max_bytes : Z
}.

Record EffectivePolicy : Type := {
  timeoutMs : Z;
  maxBytes : Z;
  argAllowlist : option (gmap string JSValue)
}.

Record PolicyDecision : Type := {
  allowed : bool;
  reason : string;
  effectivePolicy : EffectivePolicy
}.

Record ArgCheck : Type := {
  ac_allowed : bool;
  ac_reason : string
}.

(** [this.config.per_tool[tool]]. A name inherited from
    [Object.prototype] reads as a truthy object without [allow],
    [timeout_ms], [max_bytes] or [arg_allowlist]: the same as a
    record with every field unset. *)
Definition lookup_tool_policy (cfg : PolicyConfig) (tool : string)
  : option ToolPolicy :=
  match per_tool cfg !! tool with
  | Some tp => Some tp
  | None =>
      if string_in tool Object_prototype_keys
      then Some {| allow := None; max_bytes := None;
                   timeout_ms := None; arg_allowlist := None |}
      else None
  end.

Definition getEffectivePolicy (cfg : PolicyConfig) (tool : string)
  : EffectivePolicy :=
  match per_tool cfg !! tool with
  | Some tp =>
      {| timeoutMs := default (global_timeout_ms cfg) (timeout_ms tp);
         maxBytes := default (global_max_bytes cfg) (max_bytes tp);
         argAllowlist := arg_allowlist tp |}
  | None =>
      {| timeoutMs := global_timeout_ms cfg;
         maxBytes := global_max_bytes cfg;
         argAllowlist := None |}
  end.

Definition includes_value (xs : list JSValue) (v : JSValue) : bool :=
  existsb (fun x => strict_equal x v) xs.

Section WithRegExp.

(** [new RegExp(pattern)] succeeds ([false]: it throws a
    SyntaxError), and [regex.test(s)] on the compiled pattern. *)
Variable RegExp_valid : string -> bool.
Variable RegExp_test : string -> string -> bool.

Definition regex_syntax_error (pattern : string) : Thrown :=
  OtherError "SyntaxError"
    ("Invalid regular expression: /" +:+ pattern +:+ "/").

Definition deny_arg (key rest : string) : Thrown + option ArgCheck :=
  inr (Some {| ac_allowed := false;
               ac_reason := "Argument " +:+ dq +:+ key +:+ dq +:+ rest |}).

(** The last test of the loop body: [value !== allowedValue]. *)
Definition must_equal (key : string) (value allowedValue : JSValue)
  : Thrown + option ArgCheck :=
  if negb (strict_equal value allowedValue)
  then deny_arg key (" must equal: " +:+ stringify_text allowedValue)
  else inr None.

(** The body of the loop over [Object.entries(args)]; [inr None]
    is [continue]. *)
Definition check_entry (allowlist : gmap string JSValue)
           (key : string) (value : JSValue)
  : Thrown + option ArgCheck :=
  match allowlist !! key with
  | None =>
      if string_in key Object_prototype_keys then
        (* [key in allowlist] holds through the prototype chain;
           the inherited value is a function (the prototype itself
           for __proto__) and equals no argument value *)
        deny_arg key
          (" must equal: " +:+
           (if String.eqb key "__proto__" then "{}" else "undefined"))
      else deny_arg key " is not in arg_allowlist"
  | Some allowedValue =>
      match allowedValue with
      | JBool true => inr None
      | JArr xs =>
          if negb (includes_value xs value)
          then deny_arg key
                 (" value not in allowed values: "
                  +:+ stringify_text allowedValue)
          else inr None
      | JStr av =>
          if startsWith av "regex:" then
            let pattern := slice 6 av in
            if negb (RegExp_valid pattern)
            then inl (regex_syntax_error pattern)
            else if match value with
                    | JStr s => negb (RegExp_test pattern s)
                    | _ => true
                    end
            then deny_arg key (" does not match pattern: " +:+ pattern)
            else inr None
          else must_equal key value allowedValue
      | _ => must_equal key value allowedValue
      end
  end.

Fixpoint checkArgAllowlist_loop (ents : list (string * JSValue))
         (allowlist : gmap string JSValue) : Thrown + ArgCheck :=
  match ents with
  | [] => inr {| ac_allowed := true;
                 ac_reason := "Arguments match allowlist" |}
  | (key, value) :: rest =>
      match check_entry allowlist key value with
      | inl e => inl e
      | inr (Some verdict) => inr verdict
      | inr None => checkArgAllowlist_loop rest allowlist
      end
  end.

Definition checkArgAllowlist (args : JSValue)
           (allowlist : gmap string JSValue) : Thrown + ArgCheck :=
  checkArgAllowlist_loop (entries args) allowlist.

Definition decision (a : bool) (r : string) (e : EffectivePolicy)
  : PolicyDecision :=
  {| allowed := a; reason := r; effectivePolicy := e |}.

(** The tail of [checkPolicy] after the [per_tool] block. *)
Definition check_global_lists (cfg : PolicyConfig) (tool : string)
           (eff : EffectivePolicy) : PolicyDecision :=
  if string_in tool (allow_tools cfg) then
    decision true
      ("Tool " +:+ dq +:+ tool +:+ dq +:+ " is in allow_tools list") eff
  else if default_deny cfg then
    decision false
      ("Tool " +:+ dq +:+ tool +:+ dq
       +:+ " not in allow_tools and default_deny is enabled") eff
  else
    decision true "Allowed by default (default_deny is false)" eff.

Definition checkPolicy (cfg : PolicyConfig) (tool : string)
           (args : JSValue) : Thrown + PolicyDecision :=
  let eff := getEffectivePolicy cfg tool in
  if string_in tool (deny_tools cfg) then
    inr (decision false
           ("Tool " +:+ dq +:+ tool +:+ dq
            +:+ " is in deny_tools list") eff)
  else
    match lookup_tool_policy cfg tool with
    | Some toolPolicy =>
        if match allow toolPolicy with
           | Some false => true
           | _ => false
           end
        then
          inr (decision false
                 ("Tool " +:+ dq +:+ tool +:+ dq
                  +:+ " is explicitly denied in per_tool policy") eff)
        else
          match
            match arg_allowlist toolPolicy with
            | Some al => checkArgAllowlist args al
            | None => inr {| ac_allowed := true;
                             ac_reason := EmptyString |}
            end
          with
          | inl e => inl e
          | inr argCheck =>
              if negb (ac_allowed argCheck) then
                inr (decision false (ac_reason argCheck) eff)
              else if match allow toolPolicy with
                      | Some true => true
                      | _ => false
                      end
              then inr (decision true "Allowed by per_tool policy" eff)
              else inr (check_global_lists cfg tool eff)
          end
    | None => inr (check_global_lists cfg tool eff)
    end.

Definition enforce (cfg : PolicyConfig) (tool : string)
           (args : JSValue) : Thrown + EffectivePolicy :=
  match checkPolicy cfg tool args with
  | inl e => inl e
  | inr d =>
      if negb (allowed d)
      then inl (PolicyDeniedError tool (reason d))
      else inr (effectivePolicy d)
  end.

End WithRegExp.

(** [Buffer.byteLength(undefined)] throws a TypeError. *)
Definition enforceMaxBytes (result : JSValue) (maxBytes : Z)
  : Thrown + unit :=
  match stringify result with
  | None =>
      inl (OtherError "TypeError"
             "The first argument must be of type string or an instance of Buffer, ArrayBuffer, or Array or an Array-like Object. Received undefined")
  | Some s =>
      let size := byteLength s in
      if maxBytes <? size
      then inl (MaxBytesExceededError maxBytes size)
      else inr tt
  end.

(** How a handler's promise settles, as far as the race against the
    deadline timer can tell. *)
Inductive Completion : Type :=
| Resolved (v : JSValue)
| Rejected (e : Thrown).

Inductive Settles : Type :=
| Promptly (c : Completion)
    (* settled by the time the first timer may fire: a synchronous
       throw, or only microtasks *)
| AfterMs (ms : Z) (c : Completion)
    (* settled [ms] milliseconds after the call *)
| Never.

(** The race of [executeWithTimeout]. The timer is armed before the
    handler is called, so a handler that needs at least [timeoutMs]
    loses. *)
Definition executeWithTimeout (tool : string) (h : Settles)
           (timeoutMs : Z) : Completion :=
  match h with
  | Promptly c => c
  | AfterMs ms c =>
      if ms <? timeoutMs then c
      else Rejected (TimeoutError tool timeoutMs)
  | Never => Rejected (TimeoutError tool timeoutMs)
  end.

Definition createDefaultPolicy : PolicyConfig :=
  {| default_deny := true;
     allow_tools := [];
     deny_tools := [];
     per_tool := ∅;
     global_timeout_ms := 30000;
     global_max_bytes := 10 * 1024 * 1024 |}.

End Policy.

(** ** Configuration schemas (core/config.ts) *)

Module Config.
Import Policy.

(** [z.union([z.string(), z.array(z.string()), z.boolean(), z.number()])] *)
Definition allowlist_value_ok (v : JSValue) : bool :=
  match v with
  | JStr _ | JBool _ | JNum _ => true
  | JArr xs =>
      forallb (fun x => match x with JStr _ => true | _ => false end) xs
  | _ => false
  end.

Definition positive_opt (o : option Z) : bool :=
  match o with
  | Some n => 0 <? n
  | None => true
  end.

(** [ToolPolicySchema.parse(raw)], [None] for a ZodError. The input
    is the record as the configuration file wrote it; the schema
    fills [allow] with its default, [false]. *)
Definition ToolPolicySchema_parse (raw : ToolPolicy) : option ToolPolicy :=
  if positive_opt (max_bytes raw) && positive_opt (timeout_ms raw)
     && match arg_allowlist raw with
        | Some al => forallb (fun kv => allowlist_value_ok (snd kv))
                             (map_to_list al)
        | None => true
        end
  then Some {| allow := Some (default false (allow raw));
               max_bytes := max_bytes raw;
               timeout_ms := timeout_ms raw;
               arg_allowlist := arg_allowlist raw |}
  else None.

(** The [policy] block as written in the configuration file. *)
Record RawPolicyConfig : Type := {
  raw_default_deny : option bool;
  raw_allow_tools : option (list string);
  raw_deny_tools : option (list string);
  raw_per_tool : option (gmap string ToolPolicy);
  raw_global_timeout_ms : option Z;
  raw_global_max_bytes : option Z
}.

(** [z.record(ToolPolicySchema)] *)
Definition per_tool_parse (m : gmap string ToolPolicy)
  : option (gmap string ToolPolicy) :=
  if forallb (fun kv => bool_decide (is_Some (ToolPolicySchema_parse (snd kv))))
             (map_to_list m)
  then Some (omap ToolPolicySchema_parse m)
  else None.

(** [PolicyConfigSchema.parse(raw)] *)
Definition PolicyConfigSchema_parse (raw : RawPolicyConfig)
  : option PolicyConfig :=
  if positive_opt (raw_global_timeout_ms raw)
     && positive_opt (raw_global_max_bytes raw)
  then
    match per_tool_parse (default ∅ (raw_per_tool raw)) with
    | Some pt =>
        Some {| default_deny := default true (raw_default_deny raw);
                allow_tools := default [] (raw_allow_tools raw);
                deny_tools := default [] (raw_deny_tools raw);
                per_tool := pt;
                global_timeout_ms :=
                  default 30000 (raw_global_timeout_ms raw);
                global_max_bytes :=
                  default (10 * 1024 * 1024) (raw_global_max_bytes raw) |}
    | None => None
    end
  else None.

Record AuditConfig : Type := {
  enabled : bool;
  file_path : option string;
  include_args : bool;
  include_result : bool
}.

Record FilesystemConfig : Type := {
  fs_enabled : bool;
  allowed_paths : list string;
  denied_paths : list string;
  max_file_size : Z
}.

Record HttpFetchConfig : Type := {
  http_enabled : bool;
  allowed_domains : list string;
  denied_domains : list string;
  max_response_bytes : Z;
  http_timeout_ms : Z
}.

(** The parts of [GatewayConfig] the core reads. *)
Record GatewayConfig : Type := {
  policy : PolicyConfig;
  audit : AuditConfig;
  actor : string
}.

End Config.

(** ** Audit logger (core/audit.ts) *)

Module Audit.
Import Config.

(** The literals ['allow'] and ['deny']. *)
Inductive Decision : Type := Allow | Deny.

Record AuditEvent : Type := {
  timestamp : Z;
  request_id : string;
  tool : string;
  actor : string;
  args_sha256 : string;
  decision : Decision;
  reason : string;
  duration_ms : Z;
  result_bytes : Z;
  error_code : option string
}.

Record AuditContext : Type := {
  requestId : string;
  ctx_tool : string;
  ctx_actor : string;
  args : JSValue;
  startTime : Z
}.

Record AuditLogger : Type := {
  config : AuditConfig;
  logger_actor : string
}.

(** [createContext]: [uuid] is what [randomUUID()] returned and
    [now] what [Date.now()] returned. *)
Definition createContext (lg : AuditLogger) (uuid : string) (now : Z)
           (tool : string) (args : JSValue) : AuditContext :=
  {| requestId := uuid;
     ctx_tool := tool;
     ctx_actor := logger_actor lg;
     args := args;
     startTime := now |}.

(** [JSON.stringify(args ?? {})], then the hex SHA-256 of it. *)
Definition hashArgs (args : JSValue) : string :=
  let str :=
    stringify_text
      (match args with
       | JUndefined | JNull => JObj []
       | _ => args
       end) in
  SHA256.sha256_hex str.

Definition getResultBytes (result : JSValue) : Z :=
  match result with
  | JUndefined | JNull => 0
  | _ => byteLength (stringify_text result)
  end.

(** [log]: the events written to the sinks by this call (none when
    the logger is disabled). [stamp] is the instant of [new Date()]
    and [now] what [Date.now()] returns right after; an absent
    [errorCode] and the empty string both leave [error_code] out of
    the event. The console line and the optional file line carry the
    same event. *)
Definition log (lg : AuditLogger) (stamp now : Z) (ctx : AuditContext)
           (d : Decision) (why : string) (result : JSValue)
           (errorCode : option string) : list AuditEvent :=
  if negb (enabled (config lg)) then []
  else
    [ {| timestamp := stamp;
         request_id := requestId ctx;
         tool := ctx_tool ctx;
         actor := ctx_actor ctx;
         args_sha256 := hashArgs (args ctx);
         decision := d;
         reason := why;
         duration_ms := now - startTime ctx;
         result_bytes := getResultBytes result;
         error_code :=
           match errorCode with
           | Some c => if String.eqb c EmptyString then None else Some c
           | None => None
           end |} ].

Definition logSuccess (lg : AuditLogger) (stamp now : Z)
           (ctx : AuditContext) (result : JSValue) : list AuditEvent :=
  log lg stamp now ctx Allow "execution_success" result None.

Definition logDenied (lg : AuditLogger) (stamp now : Z)
           (ctx : AuditContext) (why : string) : list AuditEvent :=
  log lg stamp now ctx Deny why JUndefined (Some "POLICY_DENIED").

Definition logError (lg : AuditLogger) (stamp now : Z)
           (ctx : AuditContext) (errorCode errorMessage : string)
  : list AuditEvent :=
  log lg stamp now ctx Allow ("error: " +:+ errorMessage) JUndefined
      (Some errorCode).

Definition createNoOpAuditLogger : AuditLogger :=
  {| config := {| enabled := false; file_path := None;
                  include_args := false; include_result := false |};
     logger_actor := "test-user" |}.

End Audit.

(** ** Tool registry and invocation pipeline (core/mcp.ts) *)

Module MCP.
Import Policy Config Audit.

(** What [inputSchema.parse(args)] does: return the parsed data
    (defaults applied, unknown keys stripped), throw a ZodError with
    its issues (path and message), or throw something else. *)
Inductive ParseResult : Type :=
| ParseOk (data : JSValue)
| ParseZodError (issues : list (list string * string))
| ParseOtherError.

Record ToolDefinition : Type := {
  name : string;
  description : string;
  inputSchema : JSValue -> ParseResult;
  handler : JSValue -> Settles
}.

Record ToolError : Type := {
  code : string;
  message : string
}.

Record ToolResult : Type := {
  success : bool;
  result : option JSValue;
  error : option ToolError;
  tr_requestId : string
}.

(** The gateway object: its [Map] of tools in insertion order, the
    policy engine's configuration and the audit logger. *)
Record MCPGateway : Type := {
  tools : list (string * ToolDefinition);
  gw_policy : PolicyConfig;
  gw_audit : AuditLogger
}.

Definition new_MCPGateway (cfg : GatewayConfig) : MCPGateway :=
  {| tools := [];
     gw_policy := Config.policy cfg;
     gw_audit := {| config := Config.audit cfg;
                    logger_actor := Config.actor cfg |} |}.

(** [Map.prototype.has], [get], [set] and [keys]. *)
Fixpoint Map_get (m : list (string * ToolDefinition)) (k : string)
  : option ToolDefinition :=
  match m with
  | [] => None
  | (k', v) :: r => if String.eqb k' k then Some v else Map_get r k
  end.

Definition Map_has (m : list (string * ToolDefinition)) (k : string)
  : bool :=
  match Map_get m k with
  | Some _ => true
  | None => false
  end.

Fixpoint Map_set (m : list (string * ToolDefinition)) (k : string)
         (v : ToolDefinition) : list (string * ToolDefinition) :=
  match m with
  | [] => [(k, v)]
  | (k', v') :: r =>
      if String.eqb k' k then (k', v) :: r
      else (k', v') :: Map_set r k v
  end.

Definition Map_keys (m : list (string * ToolDefinition)) : list string :=
  map fst m.

(** [registerTool]: the gateway afterwards, and what was thrown. *)
Definition registerTool (gw : MCPGateway) (tool : ToolDefinition)
  : MCPGateway * option Thrown :=
  if Map_has (tools gw) (name tool) then
    (gw, Some (OtherError "Error"
                 ("Tool " +:+ dq +:+ name tool +:+ dq
                  +:+ " is already registered")))
  else
    ({| tools := Map_set (tools gw) (name tool) tool;
        gw_policy := gw_policy gw;
        gw_audit := gw_audit gw |}, None).

(** [registerTools]: the loop stops at the first throw and the
    exception leaves the method; the gateway keeps what the earlier
    iterations did to it. *)
Fixpoint registerTools (gw : MCPGateway) (ts : list ToolDefinition)
  : MCPGateway * option Thrown :=
  match ts with
  | [] => (gw, None)
  | tool :: rest =>
      match registerTool gw tool with
      | (gw', Some e) => (gw', Some e)
      | (gw', None) => registerTools gw' rest
      end
  end.

Definition listTools (gw : MCPGateway) : list string :=
  Map_keys (tools gw).

Definition issue_text (i : list string * string) : string :=
  join "." (fst i) +:+ ": " +:+ snd i.

(** [validateArgs]: [inl] is [{success: false, error}], [inr] is
    [{success: true, data}]. *)
Definition validateArgs (tool : ToolDefinition) (args : JSValue)
  : string + JSValue :=
  match inputSchema tool args with
  | ParseOk data => inr data
  | ParseZodError issues => inl (join ", " (map issue_text issues))
  | ParseOtherError => inl "Validation failed"
  end.

(** What the environment supplies to one invocation: the UUID drawn
    for it, [Date.now()] when the context is created, and the two
    clock readings of [log] (the timestamp and the end of the
    duration). *)
Record Clock : Type := {
  uuid : string;
  t_start : Z;
  t_stamp : Z;
  t_log : Z
}.

Definition failure (c m rid : string) : ToolResult :=
  {| success := false;
     result := None;
     error := Some {| code := c; message := m |};
     tr_requestId := rid |}.

(** The [catch] block of [invokeTool]. *)
Definition invoke_catch (gw : MCPGateway) (clk : Clock)
           (ctx : AuditContext) (err : Thrown)
  : ToolResult * list AuditEvent :=
  let errorCode := errorToCode err in
  let msg := error_message err in
  (failure errorCode msg (requestId ctx),
   if isGatewayError err && String.eqb errorCode "POLICY_DENIED"
   then logDenied (gw_audit gw) (t_stamp clk) (t_log clk) ctx msg
   else logError (gw_audit gw) (t_stamp clk) (t_log clk) ctx errorCode msg).

Section WithRegExp.

Variable RegExp_valid : string -> bool.
Variable RegExp_test : string -> string -> bool.

(** [invokeTool]: the result returned to the caller and the audit
    events written during the call. *)
Definition invokeTool (gw : MCPGateway) (clk : Clock)
           (toolName : string) (args : JSValue)
  : ToolResult * list AuditEvent :=
  let ctx :=
    createContext (gw_audit gw) (uuid clk) (t_start clk) toolName args in
  (* 1. Check if tool exists *)
  match Map_get (tools gw) toolName with
  | None =>
      let m := "Tool " +:+ dq +:+ toolName +:+ dq +:+ " not found" in
      (failure "TOOL_NOT_FOUND" m (requestId ctx),
       logDenied (gw_audit gw) (t_stamp clk) (t_log clk) ctx m)
  | Some tool =>
      (* 2. Validate arguments *)
      match validateArgs tool args with
      | inl verr =>
          (failure "VALIDATION_ERROR" verr (requestId ctx),
           logDenied (gw_audit gw) (t_stamp clk) (t_log clk) ctx
                     ("Validation failed: " +:+ verr))
      | inr data =>
          (* 3. Check policy: [enforce(toolName, args)] *)
          match enforce RegExp_valid RegExp_test
                        (gw_policy gw) toolName args with
          | inl err => invoke_catch gw clk ctx err
          | inr effectivePolicy =>
              (* 4. Execute with timeout: [tool.handler(validation.data)] *)
              match executeWithTimeout toolName (handler tool data)
                                       (timeoutMs effectivePolicy) with
              | Rejected err => invoke_catch gw clk ctx err
              | Resolved res =>
                  (* 5. Check max bytes *)
                  match enforceMaxBytes res (maxBytes effectivePolicy) with
                  | inl err => invoke_catch gw clk ctx err
                  | inr _ =>
                      (* 6. Audit success *)
                      ({| success := true;
                          result := Some res;
                          error := None;
                          tr_requestId := requestId ctx |},
                       logSuccess (gw_audit gw) (t_stamp clk) (t_log clk)
                                  ctx res)
                  end
              end
          end
      end
  end.

End WithRegExp.

End MCP.

(** ** Node's POSIX [path] module

    [resolve] and [normalize] belong to Node, not to the repository;
    they are written here after Node's algorithm ([normalizeString]
    over the segments between slashes). [cwd] is [process.cwd()], an
    absolute path. *)

Module NodePath.

(** The segment stack of [normalizeString]: [.] and empty segments
    vanish, [..] removes the last segment; above the root it is
    dropped, or kept when [allowAboveRoot]. *)
Fixpoint normalize_segments (allowAboveRoot : bool)
         (rev_out : list string) (segs : list string) : list string :=
  match segs with
  | [] => rev rev_out
  | s :: rest =>
      if String.eqb s EmptyString || String.eqb s "." then
        normalize_segments allowAboveRoot rev_out rest
      else if String.eqb s ".." then
        match rev_out with
        | top :: below =>
            if String.eqb top ".."
            then normalize_segments allowAboveRoot (s :: rev_out) rest
            else normalize_segments allowAboveRoot below rest
        | [] =>
            normalize_segments allowAboveRoot
              (if allowAboveRoot then [s] else []) rest
        end
      else normalize_segments allowAboveRoot (s :: rev_out) rest
  end.

Definition normalizeString (path : string) (allowAboveRoot : bool)
  : string :=
  join "/" (normalize_segments allowAboveRoot [] (split_char "/" path)).

Definition isAbsolute (path : string) : bool := startsWith path "/".

(** [resolve(a, b)]: right to left until an absolute path is met,
    the working directory last. *)
Definition resolve2 (cwd a b : string) : string :=
  let step (path : string) (acc : string * bool) : string * bool :=
    if snd acc then acc
    else if String.eqb path EmptyString then acc
    else (path +:+ "/" +:+ fst acc, isAbsolute path) in
  let r := step cwd (step a (step b (EmptyString, false))) in
  let p := normalizeString (fst r) (negb (snd r)) in
  if snd r then "/" +:+ p
  else if String.eqb p EmptyString then "." else p.

(** [resolve(p)] *)
Definition resolve (cwd p : string) : string :=
  resolve2 cwd EmptyString p.

Definition normalize (path : string) : string :=
  if String.eqb path EmptyString then "."
  else
    let abs := isAbsolute path in
    let trailingSeparator := endsWith path "/" in
    let p := normalizeString path (negb abs) in
    if String.eqb p EmptyString then
      if abs then "/" else if trailingSeparator then "./" else "."
    else
      let p' := if trailingSeparator then p +:+ "/" else p in
      if abs then "/" +:+ p' else p'.

End NodePath.

(** ** Filesystem connector (connectors/filesystem.ts) *)

Module Filesystem.
Import Policy Config MCP.

Section WithCwd.

Variable cwd : string.

(** [normalize(resolve(p))] *)
Definition canonical (p : string) : string :=
  NodePath.normalize (NodePath.resolve cwd p).

Definition isPathAllowed (targetPath : string)
           (allowedPaths deniedPaths : list string) : bool :=
  let normalizedTarget := canonical targetPath in
  (* Check denied paths first (takes precedence) *)
  if existsb (fun denied => startsWith normalizedTarget (canonical denied))
             deniedPaths
  then false
  (* Check allowed paths *)
  else if Nat.eqb (length allowedPaths) 0 then false
  else existsb (fun allowed =>
                  startsWith normalizedTarget (canonical allowed))
               allowedPaths.

Definition validatePath (path : string)
           (allowedPaths deniedPaths : list string) : Thrown + string :=
  let normalizedPath := canonical path in
  if includes path ".."
     && negb (isPathAllowed normalizedPath allowedPaths deniedPaths)
  then inl (SecurityError ("Path traversal attempt detected: " +:+ path))
  else if negb (isPathAllowed normalizedPath allowedPaths deniedPaths)
  then inl (SecurityError ("Path not in allowed paths: " +:+ path))
  else inr normalizedPath.

(** The filesystem, as the handlers see it through
    [fs/promises]. *)
Inductive FsError : Type :=
| ENOENT
| EACCES
| EOther (message : string).

Record Stats : Type := {
  size : Z;
  isFile : bool;
  isDirectory : bool
}.

Record Dirent : Type := {
  d_name : string;
  d_isFile : bool;
  d_isDirectory : bool
}.

Record FileSystem : Type := {
  stat : string -> FsError + Stats;
  readFile : string -> string -> FsError + string;
  readdir : string -> FsError + list Dirent;
  io_ms : Z  (* time the awaited calls of one handler run take *)
}.

(** A failure inside the [try] of a handler: one of the gateway
    errors thrown there, or an errno from the filesystem. *)
Inductive Failure : Type :=
| Typed (e : Thrown)
| Errno (e : FsError).

Definition lift {A : Type} (r : FsError + A) : Failure + A :=
  match r with
  | inl e => inl (Errno e)
  | inr a => inr a
  end.

Definition rethrow (what notFound path : string) (f : Failure) : Thrown :=
  match f with
  | Typed e => e
  | Errno ENOENT => ConnectorError "filesystem" (notFound +:+ path)
  | Errno EACCES =>
      ConnectorError "filesystem" ("Permission denied: " +:+ path)
  | Errno (EOther m) => ConnectorError "filesystem" (what +:+ m)
  end.

(** [readFileSchema] and [listDirSchema]; the wording of the
    issues is zod's and is abbreviated. *)
Definition encodings : list string := ["utf-8"; "utf8"; "base64"; "hex"].

Definition readFileSchema (args : JSValue) : ParseResult :=
  match args with
  | JObj ps =>
      match get_prop "path" ps with
      | Some (JStr p) =>
          match get_prop "encoding" ps with
          | None | Some JUndefined =>
              ParseOk (JObj [("path", JStr p); ("encoding", JStr "utf-8")])
          | Some (JStr e) =>
              if string_in e encodings
              then ParseOk (JObj [("path", JStr p); ("encoding", JStr e)])
              else ParseZodError [(["encoding"], "Invalid enum value")]
          | Some _ => ParseZodError [(["encoding"], "Invalid enum value")]
          end
      | None | Some JUndefined => ParseZodError [(["path"], "Required")]
      | Some _ => ParseZodError [(["path"], "Expected string")]
      end
  | _ => ParseZodError [([], "Expected object")]
  end.

Definition listDirSchema (args : JSValue) : ParseResult :=
  match args with
  | JObj ps =>
      match get_prop "path" ps with
      | Some (JStr p) =>
          match
            match get_prop "recursive" ps with
            | None | Some JUndefined => Some false
            | Some (JBool b) => Some b
            | Some _ => None
            end,
            match get_prop "maxDepth" ps with
            | None | Some JUndefined => Some 3
            | Some (JNum n) =>
                if (1 <=? n) && (n <=? 10) then Some n else None
            | Some _ => None
            end
          with
          | Some r, Some d =>
              ParseOk (JObj [("path", JStr p); ("recursive", JBool r);
                             ("maxDepth", JNum d)])
          | None, _ => ParseZodError [(["recursive"], "Expected boolean")]
          | _, None => ParseZodError [(["maxDepth"], "Invalid number")]
          end
      | None | Some JUndefined => ParseZodError [(["path"], "Required")]
      | Some _ => ParseZodError [(["path"], "Expected string")]
      end
  | _ => ParseZodError [([], "Expected object")]
  end.

(** [schema.parse(args)] at the top of a handler: a ZodError there
    is an ordinary [Error]. *)
Definition zod_throw : Thrown := OtherError "ZodError" "Invalid input".

Definition entry_value (name path type : string) (sz : option Z)
  : JSValue :=
  JObj ([("name", JStr name); ("path", JStr path); ("type", JStr type)]
        ++ match sz with
           | Some n => [("size", JNum n)]
           | None => []
           end).

(** [listDirectory]. [levels] is how many further levels the test
    [currentDepth < maxDepth] still lets through, that is
    [maxDepth - currentDepth]. *)
Fixpoint listDirectory (fsys : FileSystem) (cfg : FilesystemConfig)
         (recursive : bool) (levels : nat) (dirPath : string)
  : Failure + list JSValue :=
  match lift (readdir fsys dirPath) with
  | inl e => inl e
  | inr dirEntries =>
      (fix each (ents : list Dirent) : Failure + list JSValue :=
         match ents with
         | [] => inr []
         | entry :: rest =>
             let entryPath :=
               NodePath.resolve2 cwd dirPath (d_name entry) in
             match
               (* Skip entries in denied paths *)
               if negb (isPathAllowed entryPath (allowed_paths cfg)
                                      (denied_paths cfg))
               then inr []
               else if d_isFile entry then
                 match lift (stat fsys entryPath) with
                 | inl e => inl e
                 | inr st =>
                     inr [entry_value (d_name entry) entryPath "file"
                                      (Some (size st))]
                 end
               else if d_isDirectory entry then
                 match
                   match levels with
                   | S levels' =>
                       if recursive
                       then listDirectory fsys cfg recursive levels'
                                          entryPath
                       else inr []
                   | O => inr []
                   end
                 with
                 | inl e => inl e
                 | inr subEntries =>
                     inr (entry_value (d_name entry) entryPath
                                      "directory" None :: subEntries)
                 end
               else inr []
             with
             | inl e => inl e
             | inr here =>
                 match each rest with
                 | inl e => inl e
                 | inr more => inr (here ++ more)
                 end
             end
         end) dirEntries
  end.

Definition readFile_handler (fsys : FileSystem) (cfg : FilesystemConfig)
           (args : JSValue) : Settles :=
  match readFileSchema args with
  | ParseOk (JObj [(_, JStr path); (_, JStr encoding)]) =>
      match validatePath path (allowed_paths cfg) (denied_paths cfg) with
      | inl e => Promptly (Rejected e)
      | inr normalizedPath =>
          AfterMs (io_ms fsys)
            match
              match lift (stat fsys normalizedPath) with
              | inl e => inl e
              | inr stats =>
                  if max_file_size cfg <? size stats then
                    inl (Typed (SecurityError
                           ("File size " +:+ number_to_string (size stats)
                            +:+ " exceeds max allowed "
                            +:+ number_to_string (max_file_size cfg)
                            +:+ " bytes")))
                  else if negb (isFile stats) then
                    inl (Typed (ConnectorError "filesystem"
                           ("Path is not a file: " +:+ path)))
                  else
                    let bufferEncoding :=
                      if String.eqb encoding "utf8" then "utf-8"
                      else encoding in
                    match lift (readFile fsys normalizedPath
                                         bufferEncoding) with
                    | inl e => inl e
                    | inr content =>
                        inr (JObj [("path", JStr normalizedPath);
                                   ("content", JStr content);
                                   ("size", JNum (size stats));
                                   ("encoding", JStr bufferEncoding)])
                    end
              end
            with
            | inl f =>
                Rejected (rethrow "Failed to read file: "
                                  "File not found: " path f)
            | inr v => Resolved v
            end
      end
  | _ => Promptly (Rejected zod_throw)
  end.

Definition listDir_handler (fsys : FileSystem) (cfg : FilesystemConfig)
           (args : JSValue) : Settles :=
  match listDirSchema args with
  | ParseOk (JObj [(_, JStr path); (_, JBool recursive);
                   (_, JNum maxDepth)]) =>
      match validatePath path (allowed_paths cfg) (denied_paths cfg) with
      | inl e => Promptly (Rejected e)
      | inr normalizedPath =>
          AfterMs (io_ms fsys)
            match
              match lift (stat fsys normalizedPath) with
              | inl e => inl e
              | inr stats =>
                  if negb (isDirectory stats) then
                    inl (Typed (ConnectorError "filesystem"
                           ("Path is not a directory: " +:+ path)))
                  else
                    match listDirectory fsys cfg recursive
                            (Z.to_nat maxDepth) normalizedPath with
                    | inl e => inl e
                    | inr ents =>
                        inr (JObj [("path", JStr normalizedPath);
                                   ("entries", JArr ents);
                                   ("count",
                                    JNum (Z.of_nat (length ents)))])
                    end
              end
            with
            | inl f =>
                Rejected (rethrow "Failed to list directory: "
                                  "Directory not found: " path f)
            | inr v => Resolved v
            end
      end
  | _ => Promptly (Rejected zod_throw)
  end.

Definition createFilesystemTools (fsys : FileSystem)
           (cfg : FilesystemConfig) : list ToolDefinition :=
  if negb (fs_enabled cfg) then []
  else
    [ {| name := "fs.readFile";
         description :=
           "Read the contents of a file. Only works for files in allowed paths.";
         inputSchema := readFileSchema;
         handler := readFile_handler fsys cfg |};
      {| name := "fs.listDir";
         description :=
           "List contents of a directory. Only works for directories in allowed paths.";
         inputSchema := listDirSchema;
         handler := listDir_handler fsys cfg |} ].

End WithCwd.

End Filesystem.

(** ** HTTP fetch connector (connectors/httpFetch.ts) *)

Module HttpFetch.
Import Policy Config MCP.

(** The fields of a parsed [URL] the connector reads. *)
Record URL : Type := {
  protocol : string;
  hostname : string;
  href : string
}.

(** The matching of [isDomainAllowed] once the hostname is known. *)
Definition domain_matches (hostname entry : string) : bool :=
  String.eqb hostname entry || endsWith hostname ("." +:+ entry).

Definition denied_by (hostname : string) (deniedDomains : list string)
  : bool :=
  existsb (fun denied => domain_matches hostname (toLowerCase denied))
          deniedDomains.

Definition allowed_by_entry (hostname allowed : string) : bool :=
  let normalizedAllowed := toLowerCase allowed in
  (* Match exact domain or subdomain *)
  domain_matches hostname normalizedAllowed
  (* Handle wildcard prefix *)
  || (startsWith normalizedAllowed "*."
      && domain_matches hostname (slice 2 normalizedAllowed)).

Definition host_allowed (hostname : string)
           (allowedDomains deniedDomains : list string) : bool :=
  (* Check denied domains first (takes precedence) *)
  if denied_by hostname deniedDomains then false
  (* Check allowed domains *)
  else if Nat.eqb (length allowedDomains) 0 then false
  else existsb (allowed_by_entry hostname) allowedDomains.

(** [/^172\.(1[6-9]|2\d|3[01])\./] *)
Definition private_172 (h : string) : bool :=
  startsWith h "172."
  && match slice 4 h with
     | String a (String b (String c _)) =>
         ((char_eqb a "1" && in_range 54 57 b)
          || (char_eqb a "2" && is_digit b)
          || (char_eqb a "3" && in_range 48 49 b))
         && char_eqb c "."
     | _ => false
     end.

Definition blockedHosts : list string :=
  ["localhost"; "127.0.0.1"; "0.0.0.0"; "::1"].

Definition blockedPatterns : list (string -> bool) :=
  [ (fun h => startsWith h "10.");
    private_172;
    (fun h => startsWith h "192.168.");
    (fun h => startsWith h "169.254.") ].

Definition blockedHeaders : list string :=
  ["authorization"; "cookie"; "x-api-key"; "api-key"].

Section WithURL.

(** [new URL(url)]; [None] when it throws. *)
Variable URL_parse : string -> option URL.

(** The request itself, after the guards: [fetch], the
    content-length test and the streamed read under
    [max_response_bytes], with the errors the handler maps them
    to. It belongs to the HTTP client and is not taken apart. *)
Variable perform_fetch :
  HttpFetchConfig -> URL -> list (string * string) -> Settles.

Definition isDomainAllowed (url : string)
           (allowedDomains deniedDomains : list string) : bool :=
  match URL_parse url with
  | None => false
  | Some parsed =>
      host_allowed (toLowerCase (hostname parsed))
                   allowedDomains deniedDomains
  end.

Definition validateUrl (url : string) (cfg : HttpFetchConfig)
  : Thrown + URL :=
  match URL_parse url with
  | None => inl (SecurityError ("Invalid URL: " +:+ url))
  | Some parsed =>
      (* Only allow http and https *)
      if negb (string_in (protocol parsed) ["http:"; "https:"]) then
        inl (SecurityError
               ("Invalid protocol: " +:+ protocol parsed
                +:+ ". Only http and https are allowed."))
      else
        let h := toLowerCase (hostname parsed) in
        if string_in h blockedHosts then
          inl (SecurityError
                 ("Access to " +:+ h
                  +:+ " is blocked for security reasons"))
        else if existsb (fun pattern => pattern h) blockedPatterns then
          inl (SecurityError
                 ("Access to internal IP ranges is blocked: " +:+ h))
        (* Check domain allowlist *)
        else if negb (isDomainAllowed url (allowed_domains cfg)
                                      (denied_domains cfg)) then
          inl (SecurityError ("Domain not in allowed list: " +:+ h))
        else inr parsed
  end.

(** [fetchSchema]: [url] passes [z.string().url()] when
    [new URL] accepts it; [headers] is an optional record of
    strings. *)
Definition string_record (v : JSValue) : option (list (string * string)) :=
  match v with
  | JObj ps =>
      mapM (fun kv => match snd kv with
                      | JStr s => Some (fst kv, s)
                      | _ => None
                      end) ps
  | _ => None
  end.

Definition fetchSchema (args : JSValue) : ParseResult :=
  match args with
  | JObj ps =>
      match get_prop "url" ps with
      | Some (JStr u) =>
          if negb (bool_decide (is_Some (URL_parse u)))
          then ParseZodError [(["url"], "Invalid url")]
          else
            match get_prop "headers" ps with
            | None | Some JUndefined => ParseOk (JObj [("url", JStr u)])
            | Some hv =>
                match string_record hv with
                | Some _ =>
                    ParseOk (JObj [("url", JStr u); ("headers", hv)])
                | None =>
                    ParseZodError [(["headers"], "Expected string")]
                end
            end
      | None | Some JUndefined => ParseZodError [(["url"], "Required")]
      | Some _ => ParseZodError [(["url"], "Expected string")]
      end
  | _ => ParseZodError [([], "Expected object")]
  end.

(** [obj[k] = v] on a record of strings. *)
Fixpoint set_header (k v : string) (hs : list (string * string))
  : list (string * string) :=
  match hs with
  | [] => [(k, v)]
  | (k', v') :: r =>
      if String.eqb k' k then (k', v) :: r
      else (k', v') :: set_header k v r
  end.

(** The object handed to [fetch] as [headers]. [Object.entries]
    yields each key once, so the assignments [safeHeaders[key] = value]
    add the caller's headers that are not blocked, in order. The key
    [__proto__] reaches the setter every plain object inherits, which
    ignores a string: that assignment adds no property. The last
    assignment sets [User-Agent], in this spelling. *)
Definition safe_headers (headers : list (string * string))
  : list (string * string) :=
  set_header "User-Agent" "MCP-Gateway/1.0"
    (filter (fun kv =>
               negb (string_in (toLowerCase (fst kv)) blockedHeaders)
               && negb (String.eqb (fst kv) "__proto__"))
            headers).

Definition fetch_handler (cfg : HttpFetchConfig) (args : JSValue)
  : Settles :=
  match fetchSchema args with
  | ParseOk (JObj ((_, JStr url) :: more)) =>
      match validateUrl url cfg with
      | inl e => Promptly (Rejected e)
      | inr validatedUrl =>
          perform_fetch cfg validatedUrl
            (safe_headers
               (match more with
                | (_, hv) :: _ => default [] (string_record hv)
                | [] => []
                end))
      end
  | _ => Promptly (Rejected Filesystem.zod_throw)
  end.

Definition createHttpFetchTools (cfg : HttpFetchConfig)
  : list ToolDefinition :=
  if negb (http_enabled cfg) then []
  else
    [ {| name := "web.fetch";
         description :=
           "Fetch content from a URL (GET only). Only works for allowed domains.";
         inputSchema := fetchSchema;
         handler := fetch_handler cfg |} ].

End WithURL.

(** A URL parser for closed examples: the part of the WHATWG
    algorithm that reads [scheme://host] followed by the end of the
    text or by one of [/ ? # :]. A host with a forbidden host code
    point, and every other shape (credentials, IPv6 literals, percent
    escapes), is refused. *)
Fixpoint take_host (s : string) : string :=
  match s with
  | EmptyString => EmptyString
  | String c r =>
      if char_eqb c "/" || char_eqb c "?" || char_eqb c "#"
         || char_eqb c ":"
      then EmptyString
      else String c (take_host r)
  end.

(** Forbidden domain code points that can still occur in what
    [take_host] returns: controls and space, [%], [<], [>], [@],
    the brackets, backslash, [^], [|] and DEL. *)
Definition forbidden_host_char (c : ascii) : bool :=
  Nat.leb (JSString.code c) 32
  || existsb (Nat.eqb (JSString.code c))
             [37; 60; 62; 64; 91; 92; 93; 94; 124; 127]%nat
  || Nat.leb 128 (JSString.code c).

Fixpoint has_forbidden_host_char (s : string) : bool :=
  match s with
  | EmptyString => false
  | String c r => forbidden_host_char c || has_forbidden_host_char r
  end.

Definition simple_URL_parse (url : string) : option URL :=
  let host_of (scheme : string) (n : nat) :=
    let h := toLowerCase (take_host (slice n url)) in
    if String.eqb h EmptyString || has_forbidden_host_char h then None
    else Some {| protocol := scheme; hostname := h; href := url |} in
  if startsWith url "http://" then host_of "http:" 7%nat
  else if startsWith url "https://" then host_of "https:" 8%nat
  else None.

End HttpFetch.

(** ** PostgreSQL read-only connector (connectors/postgresReadOnly.ts):
       the read-only verifier *)

Module Postgres.

Definition BLOCKED_KEYWORDS : list string :=
  [ "INSERT"; "UPDATE"; "DELETE"; "DROP"; "ALTER"; "CREATE"; "TRUNCATE";
    "GRANT"; "REVOKE"; "EXECUTE"; "CALL"; "COPY"; "LOAD"; "SET"; "LOCK";
    "UNLOCK" ].

Definition allowedStarts : list string := ["SELECT"; "WITH"; "EXPLAIN"].

Definition dangerousFunctions : list string :=
  [ "PG_READ_FILE"; "PG_WRITE_FILE"; "PG_FILE_WRITE"; "LO_IMPORT";
    "LO_EXPORT"; "COPY" ].

(** [.replace(/--.*$/gm, '')]: from each [--] up to, not including,
    the next line terminator. *)
Fixpoint strip_line_comments_go (in_comment : bool) (s : string) : string :=
  match s with
  | EmptyString => EmptyString
  | String c r =>
      if in_comment then
        if is_line_terminator c
        then String c (strip_line_comments_go false r)
        else strip_line_comments_go true r
      else if char_eqb c "-" && startsWith r "-"
      then strip_line_comments_go true r
      else String c (strip_line_comments_go false r)
  end.

Definition strip_line_comments : string -> string :=
  strip_line_comments_go false.

(** [.replace(/\/\*[\s\S]*?\*\//g, '')]: a comment opens at [/*]
    only when a [*/] follows it, and ends at the first such. *)
Inductive scan : Type :=
| Code          (* outside a comment *)
| Opening       (* on the star of an opening, dropped *)
| Comment       (* inside a comment *)
| Closing.      (* on the slash of a closing, dropped *)

Fixpoint strip_block_comments_go (st : scan) (s : string) : string :=
  match s with
  | EmptyString => EmptyString
  | String c r =>
      match st with
      | Code =>
          if char_eqb c "/" && startsWith r "*"
             && includes (slice 1 r) "*/"
          then strip_block_comments_go Opening r
          else String c (strip_block_comments_go Code r)
      | Opening => strip_block_comments_go Comment r
      | Comment =>
          if char_eqb c "*" && startsWith r "/"
          then strip_block_comments_go Closing r
          else strip_block_comments_go Comment r
      | Closing => strip_block_comments_go Code r
      end
  end.

Definition strip_block_comments : string -> string :=
  strip_block_comments_go Code.

(** [.replace(/\s+/g, ' ')] *)
Fixpoint collapse_ws_go (in_run : bool) (s : string) : string :=
  match s with
  | EmptyString => EmptyString
  | String c r =>
      if is_ws c then
        if in_run then collapse_ws_go true r
        else String " " (collapse_ws_go true r)
      else String c (collapse_ws_go false r)
  end.

Definition collapse_ws : string -> string := collapse_ws_go false.

(** The string the checks run on. *)
Definition normalizeSql (sql : string) : string :=
  toUpperCase (trim (collapse_ws (strip_block_comments
                                    (strip_line_comments sql)))).

(** [new RegExp('\\b' + keyword + '\\b', 'i').test(s)] for a keyword
    made of word characters. [prev_word] tells whether the character
    before the current position is a word character. *)
Fixpoint startsWith_ci (s p : string) {struct p} : bool :=
  match p, s with
  | EmptyString, _ => true
  | String _ _, EmptyString => false
  | String b p', String a s' =>
      char_eqb (upper_char a) (upper_char b) && startsWith_ci s' p'
  end.

Definition word_follows (s : string) : bool :=
  match s with
  | EmptyString => false
  | String c _ => is_word c
  end.

Definition keyword_here (prev_word : bool) (keyword s : string) : bool :=
  negb prev_word && startsWith_ci s keyword
  && negb (word_follows (slice (String.length keyword) s)).

Fixpoint keyword_test_go (prev_word : bool) (keyword s : string) : bool :=
  keyword_here prev_word keyword s ||
  match s with
  | EmptyString => false
  | String c r => keyword_test_go (is_word c) keyword r
  end.

Definition keyword_test (keyword s : string) : bool :=
  keyword_test_go false keyword s.

Definition nonblank (p : string) : bool :=
  Nat.ltb 0 (String.length (trim p)).

(** [validateReadOnlyQuery]: [inr tt] when the query is accepted. *)
Definition validateReadOnlyQuery (sql : string) : Thrown + unit :=
  let normalizedSql := normalizeSql sql in
  (* Block semicolons to prevent query chaining *)
  if includes normalizedSql ";"
     && Nat.ltb 1 (length (List.filter nonblank
                                       (split_char ";" normalizedSql)))
  then inl (SecurityError
              "Multiple statements not allowed. Only single SELECT queries are permitted.")
  else
    (* Check for blocked keywords at word boundaries *)
    match List.find (fun keyword => keyword_test keyword normalizedSql)
                    BLOCKED_KEYWORDS with
    | Some keyword =>
        inl (SecurityError
               ("SQL keyword " +:+ dq +:+ keyword +:+ dq
                +:+ " is not allowed. Only SELECT queries are permitted."))
    | None =>
        (* Verify query starts with SELECT, WITH, or EXPLAIN *)
        let queryStart := hd EmptyString (split_ws normalizedSql) in
        if negb (string_in queryStart allowedStarts) then
          inl (SecurityError
                 ("Query must start with SELECT, WITH, or EXPLAIN. Got: "
                  +:+ queryStart))
        else
          (* Block dangerous functions *)
          match List.find (fun func => includes normalizedSql func)
                          dangerousFunctions with
          | Some func =>
              inl (SecurityError
                     ("Function " +:+ dq +:+ func +:+ dq
                      +:+ " is not allowed for security reasons."))
          | None => inr tt
          end
    end.

Definition accepts (sql : string) : bool :=
  match validateReadOnlyQuery sql with
  | inr _ => true
  | inl _ => false
  end.

End Postgres.

(** ** JavaScript objects: property assignment and truthiness *)

Module JSObject.

(** [obj[k] = v]: an existing property keeps its place, a new one
    goes last. *)
Fixpoint set_prop (k : string) (v : JSValue) (ps : list (string * JSValue))
  : list (string * JSValue) :=
  match ps with
  | [] => [(k, v)]
  | (k', v') :: r =>
      if String.eqb k' k then (k', v) :: r
      else (k', v') :: set_prop k v r
  end.

(** JS truthiness, as in [value || fallback]. *)
Definition truthy (v : JSValue) : bool :=
  match v with
  | JUndefined | JNull => false
  | JBool b => b
  | JNum n => negb (n =? 0)
  | JStr s => negb (String.eqb s EmptyString)
  | JArr _ | JObj _ => true
  end.

End JSObject.

(** ** Tool metadata (core/mcp.ts): [zodToJsonSchema] and
       [getToolMetadata] *)

Module Zod.
Import JSObject.

(** A zod schema object as [zodToJsonSchema] inspects it: its class
    ([instanceof]), the [description] of its [_def], and the fields
    read by class ([element], [options], [shape], [innerType]).
    [ZodRecord] and [ZodUnknown] stand for the classes the converter
    has no branch for. *)
Inductive ZodType : Type :=
| ZodString (description : option string)
| ZodNumber (description : option string)
| ZodBoolean (description : option string)
| ZodArray (description : option string) (element : ZodType)
| ZodEnum (description : option string) (options : list string)
| ZodObject (description : option string) (shape : list (string * ZodType))
| ZodOptional (description : option string) (innerType : ZodType)
| ZodNullable (description : option string) (innerType : ZodType)
| ZodDefault (description : option string) (innerType : ZodType)
| ZodRecord (description : option string) (valueType : ZodType)
| ZodUnknown (description : option string).

(** [schema._def.description] *)
Definition description_of (schema : ZodType) : option string :=
  match schema with
  | ZodString d | ZodNumber d | ZodBoolean d | ZodArray d _ | ZodEnum d _
  | ZodObject d _ | ZodOptional d _ | ZodNullable d _ | ZodDefault d _
  | ZodRecord d _ | ZodUnknown d => d
  end.

Definition isOptional (field : ZodType) : bool :=
  match field with
  | ZodOptional _ _ | ZodDefault _ _ => true
  | _ => false
  end.

(** The end of [zodFieldToJsonSchema]: the [nullable] mark and the
    description of the unwrapped schema, when it has a non-empty
    one. *)
Definition finish (isNullable : bool) (current : ZodType)
           (schema : list (string * JSValue)) : list (string * JSValue) :=
  let schema :=
    if isNullable then set_prop "nullable" (JBool true) schema else schema in
  match description_of current with
  | Some d =>
      if String.eqb d EmptyString then schema
      else set_prop "description" (JStr d) schema
  | None => schema
  end.

(** The [ZodObject] branch of [zodToJsonSchema]. The keys of a shape
    are the property names of a JS object, hence distinct. *)
Definition object_schema (field_schema : ZodType -> list (string * JSValue))
           (shape : list (string * ZodType)) : list (string * JSValue) :=
  let properties :=
    map (fun kf => (fst kf, JObj (field_schema (snd kf)))) shape in
  let required :=
    map fst (List.filter (fun kf => negb (isOptional (snd kf))) shape) in
  [("type", JStr "object"); ("properties", JObj properties)]
  ++ (if Nat.ltb 0 (length required)
      then [("required", JArr (map JStr required))]
      else []).

(** The chain of [instanceof] tests on the unwrapped schema. *)
Definition class_schema (field_schema : ZodType -> list (string * JSValue))
           (current : ZodType) : list (string * JSValue) :=
  match current with
  | ZodString _ => [("type", JStr "string")]
  | ZodNumber _ => [("type", JStr "number")]
  | ZodBoolean _ => [("type", JStr "boolean")]
  | ZodArray _ element =>
      [("type", JStr "array"); ("items", JObj (field_schema element))]
  | ZodEnum _ options =>
      [("type", JStr "string"); ("enum", JArr (map JStr options))]
  | ZodObject _ shape => object_schema field_schema shape
  | ZodDefault _ innerType => field_schema innerType
  | _ => [("type", JStr "string")]
  end.

Fixpoint zodFieldToJsonSchema (field : ZodType) : list (string * JSValue) :=
  match field with
  | ZodOptional _ inner =>
      (* unwrap optional, then nullable *)
      match inner with
      | ZodNullable _ inner' =>
          finish true inner' (class_schema zodFieldToJsonSchema inner')
      | _ => finish false inner (class_schema zodFieldToJsonSchema inner)
      end
  | ZodNullable _ inner =>
      finish true inner (class_schema zodFieldToJsonSchema inner)
  | _ => finish false field (class_schema zodFieldToJsonSchema field)
  end.

Definition zodToJsonSchema (schema : ZodType) : list (string * JSValue) :=
  match schema with
  | ZodObject _ shape => object_schema zodFieldToJsonSchema shape
  | _ => [("type", JStr "object"); ("properties", JObj [])]
  end.

End Zod.

(** ** PostgreSQL connector (connectors/postgresReadOnly.ts): the
       tools *)

Module PostgresConnector.
Import Policy Config MCP.

(** [PostgresConfig] of core/config.ts. *)
Record PostgresConfig : Type := {
  pg_enabled : bool;
  pg_host : string;
  pg_port : Z;
  pg_user : option string;
  pg_password : option string;
  pg_database : option string;
  pg_ssl : bool;
  max_rows : Z;
  query_timeout_ms : Z
}.

(** What the [pg] client throws: an error with an optional SQLSTATE
    [code] and a message. *)
Record PgError : Type := {
  pg_code : option string;
  pg_message : string
}.

Record QueryResult : Type := {
  rows : list JSValue;
  rowCount : option Z;
  fields : list (string * Z)    (* name and dataTypeID *)
}.

(** The pool and the server behind it: whether a client can be
    checked out, and the answer to each statement with its
    parameters. *)
Record Database : Type := {
  connect : PgError + unit;
  query : string -> list JSValue -> PgError + QueryResult;
  db_ms : Z  (* time the awaited calls of one handler run take *)
}.

(** [xs.slice(0, n)] *)
Definition slice0 (n : Z) (xs : list JSValue) : list JSValue :=
  if 0 <=? n then take (Z.to_nat n) xs
  else take (Z.to_nat (Z.of_nat (length xs) + n)) xs.

(** [message || 'Unknown error'] *)
Definition message_or_unknown (e : PgError) : string :=
  if String.eqb (pg_message e) EmptyString then "Unknown error"
  else pg_message e.

Definition set_statement_timeout (cfg : PostgresConfig) : string :=
  "SET statement_timeout = " +:+ number_to_string (query_timeout_ms cfg).

Definition querySchema (args : JSValue) : ParseResult :=
  match args with
  | JObj ps =>
      match get_prop "sql" ps with
      | Some (JStr sql) =>
          match get_prop "params" ps with
          | None | Some JUndefined => ParseOk (JObj [("sql", JStr sql)])
          | Some (JArr xs) =>
              ParseOk (JObj [("sql", JStr sql); ("params", JArr xs)])
          | Some _ => ParseZodError [(["params"], "Expected array")]
          end
      | None | Some JUndefined => ParseZodError [(["sql"], "Required")]
      | Some _ => ParseZodError [(["sql"], "Expected string")]
      end
  | _ => ParseZodError [([], "Expected object")]
  end.

Definition field_value (f : string * Z) : JSValue :=
  JObj [("name", JStr (fst f)); ("dataTypeId", JNum (snd f))].

Definition query_result (cfg : PostgresConfig) (result : QueryResult)
  : JSValue :=
  JObj [("rows", JArr (slice0 (max_rows cfg) (rows result)));
        ("rowCount", match rowCount result with
                     | Some n => JNum n
                     | None => JNull
                     end);
        ("fields", JArr (map field_value (fields result)));
        ("truncated",
         JBool (max_rows cfg <? Z.of_nat (length (rows result))));
        ("maxRows", JNum (max_rows cfg))].

(** The handler of [db.query]. *)
Definition query_handler (db : Database) (cfg : PostgresConfig)
           (args : JSValue) : Settles :=
  match querySchema args with
  | ParseOk (JObj ((_, JStr sql) :: more)) =>
      (* Validate query is read-only *)
      match Postgres.validateReadOnlyQuery sql with
      | inl e => Promptly (Rejected e)
      | inr _ =>
          AfterMs (db_ms db)
            match
              match connect db with
              | inl e => inl e
              | inr _ =>
                  (* Set statement timeout *)
                  match query db (set_statement_timeout cfg) [] with
                  | inl e => inl e
                  | inr _ =>
                      (* Execute query with parameters *)
                      match query db sql
                                  (match more with
                                   | (_, JArr params) :: _ => params
                                   | _ => []
                                   end) with
                      | inl e => inl e
                      | inr result => inr (query_result cfg result)
                      end
                  end
              end
            with
            | inl e =>
                if bool_decide (pg_code e = Some "57014")
                then Rejected (TimeoutError "db.query" (query_timeout_ms cfg))
                else Rejected (ConnectorError "postgres"
                                 ("Query failed: " +:+ message_or_unknown e))
            | inr v => Resolved v
            end
      end
  | _ => Promptly (Rejected Filesystem.zod_throw)
  end.

Definition schemaSchema (args : JSValue) : ParseResult :=
  match args with
  | JObj ps =>
      match
        match get_prop "table" ps with
        | None | Some JUndefined => Some []
        | Some (JStr t) => Some [("table", JStr t)]
        | Some _ => None
        end,
        match get_prop "schema" ps with
        | None | Some JUndefined => Some "public"
        | Some (JStr s) => Some s
        | Some _ => None
        end
      with
      | Some t, Some s => ParseOk (JObj (t ++ [("schema", JStr s)]))
      | None, _ => ParseZodError [(["table"], "Expected string")]
      | _, None => ParseZodError [(["schema"], "Expected string")]
      end
  | _ => ParseZodError [([], "Expected object")]
  end.

Definition nl : string := str1 (chr 10).

(** The two statements of [db.schema], as the template literals
    spell them. *)
Definition columns_sql : string :=
  join nl
    [ "SELECT";
      "                column_name,";
      "                data_type,";
      "                is_nullable,";
      "                column_default,";
      "                character_maximum_length";
      "              FROM information_schema.columns";
      "              WHERE table_schema = $1 AND table_name = $2";
      "              ORDER BY ordinal_position" ].

Definition tables_sql : string :=
  join nl
    [ "SELECT";
      "                table_name,";
      "                table_type";
      "              FROM information_schema.tables";
      "              WHERE table_schema = $1";
      "              ORDER BY table_name" ].

(** The handler of [db.schema]. *)
Definition schema_handler (db : Database) (cfg : PostgresConfig)
           (args : JSValue) : Settles :=
  match schemaSchema args with
  | ParseOk (JObj ps) =>
      let table := match get_prop "table" ps with
                   | Some (JStr t) => t
                   | _ => EmptyString
                   end in
      let schema := match get_prop "schema" ps with
                    | Some (JStr s) => s
                    | _ => EmptyString
                    end in
      AfterMs (db_ms db)
        match
          match connect db with
          | inl e => inl e
          | inr _ =>
              match query db (set_statement_timeout cfg) [] with
              | inl e => inl e
              | inr _ =>
                  if negb (String.eqb table EmptyString) then
                    (* Get columns for specific table *)
                    match query db columns_sql [JStr schema; JStr table] with
                    | inl e => inl e
                    | inr result =>
                        inr (JObj [("table", JStr table);
                                   ("schema", JStr schema);
                                   ("columns", JArr (rows result))])
                    end
                  else
                    (* List all tables *)
                    match query db tables_sql [JStr schema] with
                    | inl e => inl e
                    | inr result =>
                        inr (JObj [("schema", JStr schema);
                                   ("tables", JArr (rows result))])
                    end
              end
          end
        with
        | inl e =>
            Rejected (ConnectorError "postgres"
                        ("Schema query failed: " +:+ message_or_unknown e))
        | inr v => Resolved v
        end
  | _ => Promptly (Rejected Filesystem.zod_throw)
  end.

(** [!config.database || !config.user] *)
Definition unset (o : option string) : bool :=
  match o with
  | Some s => String.eqb s EmptyString
  | None => true
  end.

Definition createPostgresTools (db : Database) (cfg : PostgresConfig)
  : list ToolDefinition :=
  if negb (pg_enabled cfg) then []
  else if unset (pg_database cfg) || unset (pg_user cfg) then []
  else
    [ {| name := "db.query";
         description :=
           "Execute a read-only SQL query (SELECT only). Use parameterized queries for safety.";
         inputSchema := querySchema;
         handler := query_handler db cfg |};
      {| name := "db.schema";
         description :=
           "Get database schema information. Lists tables or columns for a specific table.";
         inputSchema := schemaSchema;
         handler := schema_handler db cfg |} ].

End PostgresConnector.

(** ** HTTP fetch connector: the request (connectors/httpFetch.ts,
       the [try] block of the handler) *)

Module HttpRequest.
Import Policy Config MCP HttpFetch.

(** What [fetch] or [reader.read()] rejects with: an [Error] with
    its name and message, or a value that is not an [Error]. They come
    from the HTTP client and are instances of none of the gateway's
    classes. *)
Inductive Raised : Type :=
| RaisedError (name message : string)
| RaisedOther.

(** The body stream: the chunks [reader.read()] delivers, each a
    [Uint8Array], then the end of the stream, or an error in its
    place. *)
Record Body : Type := {
  chunks : list (list Byte.byte);
  read_error : option Raised
}.

(** The [Response] as the handler reads it; [r_header] is
    [response.headers.get]. *)
Record Response : Type := {
  r_url : string;
  r_status : Z;
  r_statusText : string;
  r_header : string -> option string;
  r_body : option Body;
  r_read_ms : Z  (* time the reads of the body take *)
}.

(** How the promise of [fetch] settles when nothing aborts it. *)
Inductive FetchOutcome : Type :=
| Responds (ms : Z) (response : Response)
| Fails (ms : Z) (err : Raised)
| Hangs.

(** The digits at the head of [s], as [parseInt] reads them. *)
Fixpoint leading_digits (acc : Z) (seen : bool) (s : string) : option Z :=
  match s with
  | EmptyString => if seen then Some acc else None
  | String c r =>
      if is_digit c
      then leading_digits (acc * 10 + (Z.of_nat (JSString.code c) - 48))
                          true r
      else if seen then Some acc else None
  end.

(** [parseInt(s, 10)]; [None] is NaN. *)
Definition parseInt10 (s : string) : option Z :=
  match trimStart s with
  | String "-" r => option_map Z.opp (leading_digits 0 false r)
  | String "+" r => leading_digits 0 false r
  | t => leading_digits 0 false t
  end.

(** The read loop: [inl] is the total at which the limit was
    exceeded, [inr] the total at the end of the chunks. *)
Fixpoint read_chunks (limit totalSize : Z) (cs : list (list Byte.byte))
  : Z + Z :=
  match cs with
  | [] => inr totalSize
  | value :: rest =>
      let totalSize := totalSize + Z.of_nat (length value) in
      if limit <? totalSize then inl totalSize
      else read_chunks limit totalSize rest
  end.

(** [combined]: the chunks copied one after the other into one
    array. *)
Definition combine_chunks (cs : list (list Byte.byte)) : list Byte.byte :=
  List.concat cs.

Definition includeHeaders : list string :=
  ["content-type"; "content-length"; "last-modified"; "etag"].

Definition responseHeaders (response : Response)
  : list (string * JSValue) :=
  omap (fun header =>
          match r_header response header with
          | Some value =>
              if String.eqb value EmptyString then None
              else Some (header, JStr value)
          | None => None
          end) includeHeaders.

(** What is thrown inside the [try]. *)
Inductive Failure : Type :=
| Exceeded (maxBytes actualBytes : Z)  (* MaxBytesExceededError *)
| NoBody                               (* ConnectorError, no response body *)
| Raises (err : Raised).

(** The [catch] block. *)
Definition rethrow (cfg : HttpFetchConfig) (f : Failure) : Thrown :=
  match f with
  | Exceeded maxBytes actualBytes =>
      MaxBytesExceededError maxBytes actualBytes
  | NoBody =>
      ConnectorError "http_fetch"
        ("Fetch failed: "
         +:+ error_message (ConnectorError "http_fetch" "No response body"))
  | Raises (RaisedError name message) =>
      if String.eqb name "AbortError"
      then TimeoutError "web.fetch" (http_timeout_ms cfg)
      else ConnectorError "http_fetch" ("Fetch failed: " +:+ message)
  | Raises RaisedOther => ConnectorError "http_fetch" "Unknown fetch error"
  end.

Definition aborted : Raised :=
  RaisedError "AbortError" "This operation was aborted".

Section WithFetch.

(** [new TextDecoder('utf-8').decode(bytes)] *)
Variable TextDecoder_decode : list Byte.byte -> string.

(** The [try] block once [fetch] has resolved. *)
Definition read_response (cfg : HttpFetchConfig) (response : Response)
  : Failure + JSValue :=
  (* Check content length before reading *)
  match
    match r_header response "content-length" with
    | Some contentLength =>
        if String.eqb contentLength EmptyString then None
        else match parseInt10 contentLength with
             | Some n => if max_response_bytes cfg <? n then Some n else None
             | None => None
             end
    | None => None
    end
  with
  | Some n => inl (Exceeded (max_response_bytes cfg) n)
  | None =>
      (* Read response with size limit *)
      match r_body response with
      | None => inl NoBody
      | Some body =>
          match read_chunks (max_response_bytes cfg) 0 (chunks body) with
          | inl totalSize => inl (Exceeded (max_response_bytes cfg) totalSize)
          | inr totalSize =>
              match read_error body with
              | Some err => inl (Raises err)
              | None =>
                  inr (JObj [("url", JStr (r_url response));
                             ("status", JNum (r_status response));
                             ("statusText", JStr (r_statusText response));
                             ("headers", JObj (responseHeaders response));
                             ("body",
                              JStr (TextDecoder_decode
                                      (combine_chunks (chunks body))));
                             ("size", JNum totalSize)])
              end
          end
      end
  end.

(** [fetch(url, {method: 'GET', headers, signal, redirect: 'follow'})]
    left to itself. *)
Variable fetch : string -> list (string * string) -> FetchOutcome.

(** The request: the abort timer is armed before [fetch] is called
    and cleared when [fetch] resolves, so it can only cut off the
    wait for the response, not the reading of the body. *)
Definition request (cfg : HttpFetchConfig) (validatedUrl : URL)
           (safeHeaders : list (string * string)) : Settles :=
  match fetch (href validatedUrl) safeHeaders with
  | Responds ms response =>
      if ms <? http_timeout_ms cfg then
        AfterMs (ms + r_read_ms response)
          match read_response cfg response with
          | inl f => Rejected (rethrow cfg f)
          | inr v => Resolved v
          end
      else AfterMs (http_timeout_ms cfg)
                   (Rejected (rethrow cfg (Raises aborted)))
  | Fails ms err =>
      if ms <? http_timeout_ms cfg
      then AfterMs ms (Rejected (rethrow cfg (Raises err)))
      else AfterMs (http_timeout_ms cfg)
                   (Rejected (rethrow cfg (Raises aborted)))
  | Hangs =>
      AfterMs (http_timeout_ms cfg)
              (Rejected (rethrow cfg (Raises aborted)))
  end.

End WithFetch.

End HttpRequest.

(** ** Connector registry (connectors/index.ts) and the server
       (server.ts) *)

Module Server.
Import Policy Config Audit MCP JSObject.

(** The [connectors] block of [GatewayConfig]; the rest of the
    configuration is [Config.GatewayConfig]. *)
Record ConnectorsConfig : Type := {
  filesystem : FilesystemConfig;
  http_fetch : HttpFetchConfig;
  postgres : PostgresConnector.PostgresConfig
}.

Section WithEnvironment.

(** What the connectors reach outside the process. *)
Variable cwd : string.
Variable fsys : Filesystem.FileSystem.
Variable URL_parse : string -> option HttpFetch.URL.
Variable perform_fetch :
  HttpFetchConfig -> HttpFetch.URL -> list (string * string) -> Settles.
Variable db : PostgresConnector.Database.

Definition loadConnectorTools (connectors : ConnectorsConfig)
  : list ToolDefinition :=
  (* Load filesystem tools *)
  Filesystem.createFilesystemTools cwd fsys (filesystem connectors)
  (* Load HTTP fetch tools *)
  ++ HttpFetch.createHttpFetchTools URL_parse perform_fetch
       (http_fetch connectors)
  (* Load PostgreSQL tools *)
  ++ PostgresConnector.createPostgresTools db (postgres connectors).

(** [createGateway]: the gateway, and what [registerTools] threw. *)
Definition createGateway (cfg : GatewayConfig)
           (connectors : ConnectorsConfig) : MCPGateway * option Thrown :=
  registerTools (new_MCPGateway cfg) (loadConnectorTools connectors).

End WithEnvironment.

Record HttpResponse : Type := {
  status : Z;
  body : JSValue
}.

Section WithRegExp.

Variable RegExp_valid : string -> bool.
Variable RegExp_test : string -> string -> bool.

(** The route [POST /tools/:name]: the response and the audit
    events of the call. [invokeTool] catches whatever its pipeline
    throws, so the route's own [catch] (status 500) is not reached. *)
Definition post_tool (gw : MCPGateway) (clk : Clock) (name : string)
           (req_body : JSValue) : HttpResponse * list AuditEvent :=
  let args := if truthy req_body then req_body else JObj [] in
  let r := invokeTool RegExp_valid RegExp_test gw clk name args in
  (if success (fst r) then
     {| status := 200;
        body := JObj [("success", JBool true);
                      ("result", default JUndefined (result (fst r)));
                      ("requestId", JStr (tr_requestId (fst r)))] |}
   else
     {| status := 400;
        body := JObj [("success", JBool false);
                      ("error",
                       match error (fst r) with
                       | Some te => JObj [("code", JStr (code te));
                                          ("message", JStr (message te))]
                       | None => JUndefined
                       end);
                      ("requestId", JStr (tr_requestId (fst r)))] |},
   snd r).

End WithRegExp.

End Server.

(** ** [getToolMetadata] (core/mcp.ts) *)

Module Metadata.
Import MCP Zod.

Record ToolMetadata : Type := {
  md_name : string;
  md_description : string;
  md_inputSchema : list (string * JSValue)
}.

Section WithShapes.

(** [ToolDefinition] keeps of [inputSchema] what [parse] does;
    [schema_of] is the same schema object seen as the class structure
    that [zodToJsonSchema] walks. *)
Variable schema_of : ToolDefinition -> ZodType.

Definition getToolMetadata (gw : MCPGateway) : list ToolMetadata :=
  map (fun kt =>
         {| md_name := name (snd kt);
            md_description := description (snd kt);
            md_inputSchema := zodToJsonSchema (schema_of (snd kt)) |})
      (tools gw).

End WithShapes.

End Metadata.

(** ** Loading the configuration (core/config.ts): environment
       overrides and [deepMerge] *)

Module ConfigLoad.
Import JSObject.

Definition isPlainObject (value : JSValue) : bool :=
  match value with
  | JObj _ => true
  | _ => false
  end.

Definition is_undefined (value : JSValue) : bool :=
  match value with
  | JUndefined => true
  | _ => false
  end.

(** The loop of [deepMerge] over the keys of [source]: [target] is
    read, [result] is written. The keys of an object are distinct,
    so the value that comes with a key is [source[key]]. *)
Fixpoint merge_loop
         (deepMerge : list (string * JSValue) -> JSValue
                      -> list (string * JSValue))
         (target result source : list (string * JSValue))
  : list (string * JSValue) :=
  match source with
  | [] => result
  | (key, sourceVal) :: rest =>
      merge_loop deepMerge target
        (match get_prop key target with
         | Some (JObj targetVal) =>
             if isPlainObject sourceVal then
               set_prop key (JObj (deepMerge targetVal sourceVal)) result
             else if negb (is_undefined sourceVal)
             then set_prop key sourceVal result
             else result
         | _ =>
             if negb (is_undefined sourceVal)
             then set_prop key sourceVal result
             else result
         end)
        rest
  end.

(** [deepMerge(target, source)] for a source object. The sources of
    [loadConfig] are the environment overrides; none of their keys is
    [__proto__]. *)
Fixpoint deepMerge_value (target : list (string * JSValue))
         (source : JSValue) : list (string * JSValue) :=
  match source with
  | JObj sps => merge_loop deepMerge_value target target sps
  | _ => target
  end.

Definition deepMerge (target source : list (string * JSValue))
  : list (string * JSValue) :=
  deepMerge_value target (JObj source).

(** The own properties of [parseYaml(content) || {}], the ones the
    spread [{ ...target }] copies. *)
Definition file_props (fileConfig : JSValue) : list (string * JSValue) :=
  entries (if truthy fileConfig then fileConfig else JObj []).

Section WithEnv.

(** [process.env], and [parseInt(s, 10)] as a JS number (NaN when
    [s] has no leading digits). *)
Variable env : string -> option string.
Variable parseInt : string -> JSValue.

(** [process.env.NAME] when it is truthy. *)
Definition env_var (name : string) : option string :=
  match env name with
  | Some s => if String.eqb s EmptyString then None else Some s
  | None => None
  end.

(** [if (process.env.NAME) obj.key = f(process.env.NAME)] *)
Definition assign (name key : string) (f : string -> JSValue)
           (obj : list (string * JSValue)) : list (string * JSValue) :=
  match env_var name with
  | Some s => set_prop key (f s) obj
  | None => obj
  end.

Definition getEnvOverrides : list (string * JSValue) :=
  let server :=
    assign "MCP_HTTP_HOST" "http_host" JStr
      (assign "MCP_HTTP_PORT" "http_port" parseInt
         (assign "MCP_TRANSPORT" "transport" JStr [])) in
  let audit := assign "MCP_AUDIT_FILE" "file_path" JStr [] in
  (* PostgreSQL overrides *)
  let postgres :=
    assign "POSTGRES_SSL" "ssl" (fun s => JBool (String.eqb s "true"))
      (assign "POSTGRES_DATABASE" "database" JStr
         (assign "POSTGRES_PASSWORD" "password" JStr
            (assign "POSTGRES_USER" "user" JStr
               (assign "POSTGRES_PORT" "port" parseInt
                  (assign "POSTGRES_HOST" "host" JStr []))))) in
  assign "MCP_ACTOR" "actor" JStr
    (assign "MCP_LOG_LEVEL" "log_level" JStr
       [("server", JObj server);
        ("audit", JObj audit);
        ("connectors", JObj [("postgres", JObj postgres)])]).

(** The object [loadConfig] hands to the schema: [fileConfig] is
    what the YAML parser returned for the file, [undefined] when
    there is no file. *)
Definition mergedConfig (fileConfig : JSValue) : list (string * JSValue) :=
  deepMerge (file_props fileConfig) getEnvOverrides.

End WithEnv.

End ConfigLoad.

(** ** The decision order, in the words of the specification *)

Module PolicySpec.
Import Policy.





Section WithRegExp.

(** [RegExp_test pattern text]: the text matches the regular
    expression. *)
Variable RegExp_test : string -> string -> bool.






End WithRegExp.

(** The verdict of a decision, [None] when there is none. *)
Definition verdict (r : Thrown + PolicyDecision) : option bool :=
  match r with
  | inr d => Some (allowed d)
  | inl _ => None
  end.

End PolicySpec.

(** ** The phases of an invocation *)

Module Pipeline.
Import Policy Config Audit MCP.

Inductive Phase : Type :=
| ToolLookup
| SchemaValidation
| PolicyCheck
| Execution.

Section WithRegExp.

Variable RegExp_valid : string -> bool.
Variable RegExp_test : string -> string -> bool.

(** The phase in which [invokeTool] ends: the first of lookup,
    validation and policy that stops the call, execution otherwise
    (the handler, the deadline, the size check, success). *)
Definition phase_reached (gw : MCPGateway) (toolName : string)
           (args : JSValue) : Phase :=
  match Map_get (tools gw) toolName with
  | None => ToolLookup
  | Some tool =>
      match validateArgs tool args with
      | inl _ => SchemaValidation
      | inr _ =>
          match enforce RegExp_valid RegExp_test (gw_policy gw)
                        toolName args with
          | inl _ => PolicyCheck
          | inr _ => Execution
          end
      end
  end.

End WithRegExp.

(** What a handler's promise rejects with, if it rejects. *)
Definition thrown_by (h : Settles) : option Thrown :=
  match h with
  | Promptly (Rejected e) | AfterMs _ (Rejected e) => Some e
  | _ => None
  end.

(** No handler of the registry throws a gateway error that carries
    the policy engine's code or no code at all. *)
Definition handlers_keep_codes (gw : MCPGateway) : Prop :=
  forall toolName tool data e,
    Map_get (tools gw) toolName = Some tool ->
    thrown_by (handler tool data) = Some e ->
    errorToCode e <> "POLICY_DENIED" /\ errorToCode e <> EmptyString.

End Pipeline.

(** ** Descendant paths and whole words, in the words of the
       specification *)

Module PathSpec.

(** [p] equals [a], or extends it at a separator. *)
Definition within (p a : string) : Prop :=
  p = a \/ exists rest, p = a +:+ "/" +:+ rest.

End PathSpec.

Module SqlSpec.

Fixpoint last_is_word (s : string) : bool :=
  match s with
  | EmptyString => false
  | String c EmptyString => is_word c
  | String _ r => last_is_word r
  end.

(** What stands before the current position ends in a word
    character. *)
Definition word_before (prev_word : bool) (pre : string) : bool :=
  match pre with
  | EmptyString => prev_word
  | String _ _ => last_is_word pre
  end.

(** [keyword] occurs in [s] with no word character next to it on
    either side. *)
Definition whole_word (keyword s : string) : Prop :=
  exists pre post,
    s = pre +:+ keyword +:+ post
    /\ last_is_word pre = false
    /\ Postgres.word_follows post = false.

(** The pieces between semicolons that are not blank. *)
Definition statements (s : string) : list string :=
  List.filter Postgres.nonblank (split_char ";" s).

(** [tok] is the first whitespace-delimited token of [s]. *)
Definition first_token (tok s : string) : Prop :=
  exists rest,
    s = tok +:+ rest
    /\ (forall a b c, tok = a +:+ String c b -> is_ws c = false)
    /\ (rest = EmptyString
        \/ exists c r, rest = String c r /\ is_ws c = true).

End SqlSpec.

(** ** Invariants and shapes the further properties speak of *)

Module RegistrySpec.
Import MCP.

(** Every key of the registry is the name of the tool stored under
    it, and no key occurs twice. *)
Definition well_keyed (gw : MCPGateway) : Prop :=
  List.NoDup (Map_keys (tools gw))
  /\ Forall (fun kt => name (snd kt) = fst kt) (tools gw).

End RegistrySpec.

Module MetadataSpec.

(** A JSON schema object that says what type it describes. *)
Definition typed (schema : list (string * JSValue)) : Prop :=
  exists t,
    get_prop "type" schema = Some (JStr t)
    /\ In t ["string"; "number"; "boolean"; "array"; "object"].

End MetadataSpec.

Module PathShape.

(** A path segment proper: not empty, not [.] or [..], without a
    separator. *)
Definition clean (seg : string) : bool :=
  negb (String.eqb seg EmptyString) && negb (String.eqb seg ".")
  && negb (String.eqb seg "..") && negb (has_char "/" seg).

(** The absolute path made of the segments [segs]. *)
Definition absolute_of (segs : list string) : string :=
  "/" +:+ join "/" segs.

End PathShape.

Module RouteShape.

(** The arguments of a call over HTTP: the JSON body of the
    request, the empty object when the body is missing or falsy. *)
Definition arguments_of (req_body : JSValue) : JSValue :=
  if JSObject.truthy req_body then req_body else JObj [].

(** The two answers of [POST /tools/:name]. *)
Definition ok_200 (res : JSValue) (rid : string) : Server.HttpResponse :=
  {| Server.status := 200;
     Server.body := JObj [("success", JBool true);
                          ("result", res);
                          ("requestId", JStr rid)] |}.

Definition error_400 (c m rid : string) : Server.HttpResponse :=
  {| Server.status := 400;
     Server.body := JObj [("success", JBool false);
                          ("error", JObj [("code", JStr c);
                                          ("message", JStr m)]);
                          ("requestId", JStr rid)] |}.

End RouteShape.

Module BuiltinSpec.

(** The codes a handler of the built-in connectors rejects with. *)
Definition handler_codes : list string :=
  ["SECURITY_ERROR"; "CONNECTOR_ERROR"; "TIMEOUT"; "MAX_BYTES_EXCEEDED";
   "INTERNAL_ERROR"].

End BuiltinSpec.

(** ** Concrete tools and configurations for closed statements *)

Module Examples.
Import Policy Config Audit MCP.

(** A RegExp for closed statements: a pattern made of word characters
    matches exactly where it occurs; other patterns are outside this
    fragment and count as rejected. *)
Fixpoint word_pattern_valid (p : string) : bool :=
  match p with
  | EmptyString => true
  | String c r => is_word c && word_pattern_valid r
  end.

Definition word_pattern_test (p s : string) : bool := includes s p.

(** The [custom.echo] tool of the integration tests: a required
    [message] and an [uppercase] flag that defaults to false. *)
Definition echoSchema (args : JSValue) : ParseResult :=
  match args with
  | JObj ps =>
      match get_prop "message" ps with
      | Some (JStr m) =>
          match get_prop "uppercase" ps with
          | None | Some JUndefined =>
              ParseOk (JObj [("message", JStr m); ("uppercase", JBool false)])
          | Some (JBool b) =>
              ParseOk (JObj [("message", JStr m); ("uppercase", JBool b)])
          | Some _ => ParseZodError [(["uppercase"], "Expected boolean")]
          end
      | None | Some JUndefined => ParseZodError [(["message"], "Required")]
      | Some _ => ParseZodError [(["message"], "Expected string")]
      end
  | _ => ParseZodError [([], "Expected object")]
  end.

Definition echo_handler (args : JSValue) : Settles :=
  match args with
  | JObj [(_, JStr m); (_, JBool u)] =>
      Promptly (Resolved (JObj [("echo", JStr (if u then toUpperCase m else m))]))
  | _ => Promptly (Rejected (OtherError "TypeError" "Cannot read properties"))
  end.

Definition echoTool : ToolDefinition :=
  {| name := "custom.echo";
     description := "Echoes the input message";
     inputSchema := echoSchema;
     handler := echo_handler |}.

Definition audit_on : AuditConfig :=
  {| enabled := true; file_path := None;
     include_args := false; include_result := false |}.

Definition audit_off : AuditConfig :=
  {| enabled := false; file_path := None;
     include_args := false; include_result := false |}.

Definition policy_allow_echo : PolicyConfig :=
  {| default_deny := true;
     allow_tools := ["custom.echo"];
     deny_tools := [];
     per_tool := ∅;
     global_timeout_ms := 5000;
     global_max_bytes := 1000000 |}.

Definition gateway_with (a : AuditConfig) (p : PolicyConfig)
           (ts : list ToolDefinition) : MCPGateway :=
  fst (registerTools
         (new_MCPGateway {| Config.policy := p; Config.audit := a;
                            Config.actor := "test-user" |})
         ts).

Definition clock0 : Clock :=
  {| uuid := "550e8400-e29b-41d4-a716-446655440000";
     t_start := 1705314600000;
     t_stamp := 1705314600045;
     t_log := 1705314600045 |}.

Definition clock1 : Clock :=
  {| uuid := "6ba7b810-9dad-41d1-80b4-00c04fd430c8";
     t_start := 1705314700000;
     t_stamp := 1705314700002;
     t_log := 1705314700003 |}.

(** A handler that throws the policy engine's own error class, and
    one that throws a gateway error with an empty code. *)
Definition impostorTool : ToolDefinition :=
  {| name := "custom.impostor";
     description := "Throws PolicyDeniedError from its handler";
     inputSchema := fun args => ParseOk args;
     handler := fun _ =>
       Promptly (Rejected (PolicyDeniedError "custom.impostor" "from handler")) |}.

Definition codelessTool : ToolDefinition :=
  {| name := "custom.codeless";
     description := "Throws a GatewayError whose code is empty";
     inputSchema := fun args => ParseOk args;
     handler := fun _ =>
       Promptly (Rejected (GatewayError "GatewayError" EmptyString "boom")) |}.

Definition policy_default_allow : PolicyConfig :=
  {| default_deny := false;
     allow_tools := [];
     deny_tools := [];
     per_tool := ∅;
     global_timeout_ms := 5000;
     global_max_bytes := 1000000 |}.

(** The [policy] block of the troubleshooting section of
    docs/QUICKSTART.md (raise the timeout of [db.query]) on top of
    the database example of the same guide. *)
Definition raw_policy_timeout_only : RawPolicyConfig :=
  {| raw_default_deny := Some true;
     raw_allow_tools := Some ["db.query"; "db.schema"];
     raw_deny_tools := None;
     raw_per_tool :=
       Some {[ "db.query" :=
                 {| allow := None; max_bytes := None;
                    timeout_ms := Some 120000; arg_allowlist := None |} ]};
     raw_global_timeout_ms := None;
     raw_global_max_bytes := None |}.

(** The same block as an object handed to [new PolicyEngine]
    directly, without the schema. *)
Definition policy_timeout_only_unparsed : PolicyConfig :=
  {| default_deny := true;
     allow_tools := ["db.query"; "db.schema"];
     deny_tools := [];
     per_tool :=
       {[ "db.query" :=
            {| allow := None; max_bytes := None;
               timeout_ms := Some 120000; arg_allowlist := None |} ]};
     global_timeout_ms := 30000;
     global_max_bytes := 10 * 1024 * 1024 |}.

(** [custom.echo] allowed per tool, with an allowlist that names
    [message] only. *)
Definition policy_echo_message_only : PolicyConfig :=
  {| default_deny := true;
     allow_tools := [];
     deny_tools := [];
     per_tool :=
       {[ "custom.echo" :=
            {| allow := Some true; max_bytes := None; timeout_ms := None;
               arg_allowlist := Some {[ "message" := JBool true ]} |} ]};
     global_timeout_ms := 5000;
     global_max_bytes := 1000000 |}.

(** [custom.echo] with an allowlist that names both fields of the
    schema. *)
Definition policy_echo_both_fields : PolicyConfig :=
  {| default_deny := true;
     allow_tools := [];
     deny_tools := [];
     per_tool :=
       {[ "custom.echo" :=
            {| allow := Some true; max_bytes := None; timeout_ms := None;
               arg_allowlist :=
                 Some {[ "message" := JBool true;
                         "uppercase" := JBool true ]} |} ]};
     global_timeout_ms := 5000;
     global_max_bytes := 1000000 |}.

(** A filesystem with the directories [/all] and [/allow] and one
    file, [/allow/foo]. *)
Definition fs_two_dirs : Filesystem.FileSystem :=
  {| Filesystem.stat := fun p =>
       if String.eqb p "/allow/foo"
       then inr {| Filesystem.size := 6; Filesystem.isFile := true;
                   Filesystem.isDirectory := false |}
       else if String.eqb p "/all" || String.eqb p "/allow"
       then inr {| Filesystem.size := 4096; Filesystem.isFile := false;
                   Filesystem.isDirectory := true |}
       else inl Filesystem.ENOENT;
     Filesystem.readFile := fun p _ =>
       if String.eqb p "/allow/foo" then inr "secret"
       else inl Filesystem.ENOENT;
     Filesystem.readdir := fun p =>
       if String.eqb p "/allow"
       then inr [ {| Filesystem.d_name := "foo"; Filesystem.d_isFile := true;
                     Filesystem.d_isDirectory := false |} ]
       else if String.eqb p "/all" then inr []
       else inl Filesystem.ENOENT;
     Filesystem.io_ms := 2 |}.

Definition fs_config (allowed denied : list string) : FilesystemConfig :=
  {| fs_enabled := true;
     allowed_paths := allowed;
     denied_paths := denied;
     max_file_size := 1000000 |}.

Definition http_config (allowed denied : list string) : HttpFetchConfig :=
  {| http_enabled := true;
     allowed_domains := allowed;
     denied_domains := denied;
     max_response_bytes := 1000000;
     http_timeout_ms := 10000 |}.

(** An HTTP client that answers every request with an empty page. *)
Definition fetch_empty_page (cfg : HttpFetchConfig) (u : HttpFetch.URL)
           (headers : list (string * string)) : Settles :=
  AfterMs 5 (Resolved (JObj [("url", JStr (HttpFetch.href u));
                             ("status", JNum 200);
                             ("body", JStr EmptyString);
                             ("size", JNum 0)])).

End Examples.

(** ** Further examples: the connectors over concrete
       environments *)

Module MoreExamples.
Import Policy Config Audit MCP.

(** The filesystem tools over [Examples.fs_two_dirs], allowed by
    name, with a deadline of two milliseconds: the time one handler
    run takes on that filesystem. *)
Definition policy_two_ms : PolicyConfig :=
  {| default_deny := true;
     allow_tools := ["fs.readFile"; "fs.listDir"];
     deny_tools := [];
     per_tool := ∅;
     global_timeout_ms := 2;
     global_max_bytes := 1000000 |}.

Definition fs_gateway (p : PolicyConfig) : MCPGateway :=
  Examples.gateway_with Examples.audit_on p
    (Filesystem.createFilesystemTools "/" Examples.fs_two_dirs
       (Examples.fs_config ["/allow"] [])).

End MoreExamples.

Module ConnectorExamples.
Import Policy Config MCP.

(** A database with one table of three rows; it answers every other
    statement with no rows. *)
Definition db_three_rows : PostgresConnector.Database :=
  {| PostgresConnector.connect := inr tt;
     PostgresConnector.query := fun text params =>
       if String.eqb text "SELECT id FROM t"
       then inr {| PostgresConnector.rows :=
                     [JObj [("id", JNum 1)]; JObj [("id", JNum 2)];
                      JObj [("id", JNum 3)]];
                   PostgresConnector.rowCount := Some 3;
                   PostgresConnector.fields := [("id", 23)] |}
       else inr {| PostgresConnector.rows := [];
                   PostgresConnector.rowCount := None;
                   PostgresConnector.fields := [] |};
     PostgresConnector.db_ms := 4 |}.

(** The same server, except that it refuses to drop the table. *)
Definition db_guarded : PostgresConnector.Database :=
  {| PostgresConnector.connect := inr tt;
     PostgresConnector.query := fun text params =>
       if String.eqb text "DROP TABLE t"
       then inl {| PostgresConnector.pg_code := Some "42501";
                   PostgresConnector.pg_message := "permission denied" |}
       else PostgresConnector.query db_three_rows text params;
     PostgresConnector.db_ms := 4 |}.

(** A server that answers every statement with one row that holds
    the text it was sent. *)
Definition db_reporting : PostgresConnector.Database :=
  {| PostgresConnector.connect := inr tt;
     PostgresConnector.query := fun text params =>
       inr {| PostgresConnector.rows := [JObj [("statement", JStr text)]];
              PostgresConnector.rowCount := Some 1;
              PostgresConnector.fields := [] |};
     PostgresConnector.db_ms := 4 |}.

Definition pg_config (n : Z) : PostgresConnector.PostgresConfig :=
  {| PostgresConnector.pg_enabled := true;
     PostgresConnector.pg_host := "localhost";
     PostgresConnector.pg_port := 5432;
     PostgresConnector.pg_user := Some "reader";
     PostgresConnector.pg_password := None;
     PostgresConnector.pg_database := Some "app";
     PostgresConnector.pg_ssl := false;
     PostgresConnector.max_rows := n;
     PostgresConnector.query_timeout_ms := 30000 |}.



(** The schema object of [custom.echo]. *)
Definition echo_shape (t : ToolDefinition) : Zod.ZodType :=
  Zod.ZodObject None
    [("message", Zod.ZodString (Some "Message to echo"));
     ("uppercase", Zod.ZodDefault None (Zod.ZodBoolean None))].

End ConnectorExamples.

(** * Properties *)

(** ** The repository's unit tests, run on the embedding *)

Module RepoTests.
Import Policy Config Audit MCP Examples.

Definition test_policy (dd : bool) (allowl denyl : list string)
           (pt : gmap string ToolPolicy) : PolicyConfig :=
  {| default_deny := dd; allow_tools := allowl; deny_tools := denyl;
     per_tool := pt; global_timeout_ms := 30000;
     global_max_bytes := 1000000 |}.

Definition only_allow (a : bool) (al : option (gmap string JSValue))
  : ToolPolicy :=
  {| allow := Some a; max_bytes := None; timeout_ms := None;
     arg_allowlist := al |}.

Definition check (cfg : PolicyConfig) (tool : string) (args : JSValue)
  : option (bool * string) :=
  match checkPolicy word_pattern_valid word_pattern_test cfg tool args with
  | inr d => Some (allowed d, Policy.reason d)
  | inl _ => None
  end.

(** FIPS 180-4 test vectors. *)
Example sha256_abc :
  SHA256.sha256_hex "abc"
  = "ba7816bf8f01cfea414140de5dae2223b00361a396177a9cb410ff61f20015ad".
Proof. vm_compute. reflexivity. Qed.

Example sha256_empty :
  SHA256.sha256_hex EmptyString
  = "e3b0c44298fc1c149afbf4c8996fb92427ae41e4649b934ca495991b7852b855".
Proof. vm_compute. reflexivity. Qed.

Example sha256_two_blocks :
  SHA256.sha256_hex "abcdbcdecdefdefgefghfghighijhijkijkljklmklmnlmnomnopnopq"
  = "248d6a61d20638b8e5c026930c3e6039a33ce45964ff2167f6ecedd419db06c1".
Proof. vm_compute. reflexivity. Qed.

(** tests/policy.test.ts *)
Example denies_all_tools_by_default :
  check (test_policy true [] [] ∅) "any.tool" (JObj [])
  = Some (false,
          "Tool " +:+ dq +:+ "any.tool" +:+ dq
          +:+ " not in allow_tools and default_deny is enabled").
Proof. vm_compute. reflexivity. Qed.

Example allows_tools_in_allow_tools :
  check (test_policy true ["fs.readFile"] [] ∅) "fs.readFile" (JObj [])
  = Some (true,
          "Tool " +:+ dq +:+ "fs.readFile" +:+ dq
          +:+ " is in allow_tools list").
Proof. vm_compute. reflexivity. Qed.

Example denies_tools_in_deny_tools :
  check (test_policy false ["fs.readFile"] ["fs.readFile"] ∅)
        "fs.readFile" (JObj [])
  = Some (false,
          "Tool " +:+ dq +:+ "fs.readFile" +:+ dq
          +:+ " is in deny_tools list").
Proof. vm_compute. reflexivity. Qed.

Example respects_per_tool_allow :
  check (test_policy true [] [] {[ "fs.readFile" := only_allow true None ]})
        "fs.readFile" (JObj [])
  = Some (true, "Allowed by per_tool policy").
Proof. vm_compute. reflexivity. Qed.

Example respects_per_tool_deny :
  check (test_policy false ["fs.readFile"] []
           {[ "fs.readFile" := only_allow false None ]})
        "fs.readFile" (JObj [])
  = Some (false,
          "Tool " +:+ dq +:+ "fs.readFile" +:+ dq
          +:+ " is explicitly denied in per_tool policy").
Proof. vm_compute. reflexivity. Qed.

Example allows_args_matching_allowlist :
  check (test_policy true [] []
           {[ "fs.readFile" :=
                only_allow true
                  (Some {[ "path" := JBool true;
                           "encoding" := JArr [JStr "utf-8"; JStr "base64"] ]}) ]})
        "fs.readFile"
        (JObj [("path", JStr "/any/path"); ("encoding", JStr "utf-8")])
  = Some (true, "Allowed by per_tool policy").
Proof. vm_compute. reflexivity. Qed.

Example denies_args_not_in_allowlist :
  check (test_policy true [] []
           {[ "fs.readFile" :=
                only_allow true (Some {[ "path" := JBool true ]}) ]})
        "fs.readFile"
        (JObj [("path", JStr "/any/path"); ("unknownArg", JStr "value")])
  = Some (false,
          "Argument " +:+ dq +:+ "unknownArg" +:+ dq
          +:+ " is not in arg_allowlist").
Proof. vm_compute. reflexivity. Qed.

Example denies_args_with_invalid_values :
  check (test_policy true [] []
           {[ "fs.readFile" :=
                only_allow true
                  (Some {[ "encoding" :=
                             JArr [JStr "utf-8"; JStr "base64"] ]}) ]})
        "fs.readFile" (JObj [("encoding", JStr "binary")])
  = Some (false,
          "Argument " +:+ dq +:+ "encoding" +:+ dq
          +:+ " value not in allowed values: ["
          +:+ dq +:+ "utf-8" +:+ dq +:+ "," +:+ dq +:+ "base64" +:+ dq
          +:+ "]").
Proof. vm_compute. reflexivity. Qed.

Example enforce_throws_when_denied :
  enforce word_pattern_valid word_pattern_test createDefaultPolicy
          "any.tool" (JObj [])
  = inl (PolicyDeniedError "any.tool"
           ("Tool " +:+ dq +:+ "any.tool" +:+ dq
            +:+ " not in allow_tools and default_deny is enabled")).
Proof. vm_compute. reflexivity. Qed.

Example enforce_returns_effective_policy :
  match enforce word_pattern_valid word_pattern_test
          (test_policy true ["fs.readFile"] []
             {[ "fs.readFile" :=
                  {| allow := Some true; max_bytes := Some 1024;
                     timeout_ms := Some 5000; arg_allowlist := None |} ]})
          "fs.readFile" (JObj []) with
  | inr eff => Some (timeoutMs eff, maxBytes eff)
  | inl _ => None
  end = Some (5000, 1024).
Proof. vm_compute. reflexivity. Qed.

Example enforceMaxBytes_small_result :
  enforceMaxBytes (JObj [("data", JStr "small")]) 1000 = inr tt.
Proof. vm_compute. reflexivity. Qed.

Example enforceMaxBytes_large_result :
  enforceMaxBytes (JObj [("data", JStr "0123456789")]) 10
  = inl (MaxBytesExceededError 10 21).
Proof. vm_compute. reflexivity. Qed.

Example executeWithTimeout_in_time :
  executeWithTimeout "test.tool" (Promptly (Resolved (JStr "success"))) 1000
  = Resolved (JStr "success").
Proof. reflexivity. Qed.

Example executeWithTimeout_too_late :
  executeWithTimeout "test.tool" (AfterMs 100 (Resolved JUndefined)) 10
  = Rejected (TimeoutError "test.tool" 10).
Proof. reflexivity. Qed.

(** tests/audit.test.ts *)
Definition test_logger : AuditLogger :=
  {| Audit.config := audit_on; logger_actor := "test-actor" |}.

Definition test_ctx : AuditContext :=
  createContext test_logger (uuid clock0) (t_start clock0) "test.tool"
                (JObj []).

Example logSuccess_logs_allow :
  map (fun ev => (decision ev, Audit.reason ev, error_code ev))
      (logSuccess test_logger (t_stamp clock0) (t_log clock0) test_ctx
                  (JObj [("result", JStr "success")]))
  = [(Allow, "execution_success", None)].
Proof. vm_compute. reflexivity. Qed.

Example logDenied_logs_deny :
  map (fun ev => (decision ev, Audit.reason ev, error_code ev))
      (logDenied test_logger (t_stamp clock0) (t_log clock0) test_ctx
                 "policy violation")
  = [(Deny, "policy violation", Some "POLICY_DENIED")].
Proof. vm_compute. reflexivity. Qed.

Example logError_logs_code :
  map (fun ev => (decision ev, error_code ev))
      (logError test_logger (t_stamp clock0) (t_log clock0) test_ctx
                "TIMEOUT" "Request timed out")
  = [(Allow, Some "TIMEOUT")].
Proof. vm_compute. reflexivity. Qed.

Example noop_logger_logs_nothing :
  logSuccess createNoOpAuditLogger 0 0 test_ctx (JObj [])
  ++ logDenied createNoOpAuditLogger 0 0 test_ctx "reason"
  ++ logError createNoOpAuditLogger 0 0 test_ctx "CODE" "message"
  = [].
Proof. reflexivity. Qed.

(** tests/mcp.test.ts *)
Definition plain_tool (n : string) (h : JSValue -> Settles) : ToolDefinition :=
  {| name := n; description := "Test";
     inputSchema := fun args => ParseOk args; handler := h |}.

Definition invoke_code (gw : MCPGateway) (toolName : string) (args : JSValue)
  : option string :=
  option_map code
    (error (fst (invokeTool word_pattern_valid word_pattern_test gw clock0
                            toolName args))).

Example registers_tools_in_order :
  listTools (gateway_with audit_on createDefaultPolicy
               [ plain_tool "test.tool1"
                   (fun _ => Promptly (Resolved (JStr "result1")));
                 plain_tool "test.tool2"
                   (fun _ => Promptly (Resolved (JStr "result2"))) ])
  = ["test.tool1"; "test.tool2"].
Proof. reflexivity. Qed.

Example duplicate_registration_throws :
  snd (registerTools
         (gateway_with audit_on createDefaultPolicy [echoTool]) [echoTool])
  = Some (OtherError "Error"
            ("Tool " +:+ dq +:+ "custom.echo" +:+ dq
             +:+ " is already registered")).
Proof. reflexivity. Qed.

Example unknown_tool :
  invoke_code (gateway_with audit_on createDefaultPolicy []) "unknown.tool"
              (JObj [])
  = Some "TOOL_NOT_FOUND".
Proof. vm_compute. reflexivity. Qed.

Example validation_failure :
  invoke_code (gateway_with audit_on policy_default_allow [echoTool])
              "custom.echo" (JObj [])
  = Some "VALIDATION_ERROR".
Proof. vm_compute. reflexivity. Qed.

Example policy_denies :
  invoke_code (gateway_with audit_on createDefaultPolicy [echoTool])
              "custom.echo" (JObj [("message", JStr "hello")])
  = Some "POLICY_DENIED".
Proof. vm_compute. reflexivity. Qed.

Example handler_throws :
  invoke_code (gateway_with audit_on policy_default_allow
                 [ plain_tool "test.tool"
                     (fun _ => Promptly (Rejected
                                 (OtherError "Error" "Handler failed"))) ])
              "test.tool" (JObj [])
  = Some "INTERNAL_ERROR".
Proof. vm_compute. reflexivity. Qed.

Example enforces_timeout :
  invoke_code (gateway_with audit_on
                 (test_policy true ["test.tool"] []
                    {[ "test.tool" :=
                         {| allow := Some true; max_bytes := None;
                            timeout_ms := Some 10; arg_allowlist := None |} ]})
                 [ plain_tool "test.tool"
                     (fun _ => AfterMs 100 (Resolved (JStr "result"))) ])
              "test.tool" (JObj [])
  = Some "TIMEOUT".
Proof. vm_compute. reflexivity. Qed.

Example enforces_max_bytes :
  invoke_code (gateway_with audit_on
                 (test_policy true ["test.tool"] []
                    {[ "test.tool" :=
                         {| allow := Some true; max_bytes := Some 10;
                            timeout_ms := None; arg_allowlist := None |} ]})
                 [ plain_tool "test.tool"
                     (fun _ => Promptly (Resolved
                                 (JObj [("data", JStr "0123456789")]))) ])
              "test.tool" (JObj [])
  = Some "MAX_BYTES_EXCEEDED".
Proof. vm_compute. reflexivity. Qed.

(** tests/integration.test.ts: uppercase echo. *)
Example echo_uppercase :
  MCP.result
    (fst (invokeTool word_pattern_valid word_pattern_test
            (gateway_with audit_on policy_allow_echo [echoTool]) clock0
            "custom.echo"
            (JObj [("message", JStr "hello"); ("uppercase", JBool true)])))
  = Some (JObj [("echo", JStr "HELLO")]).
Proof. vm_compute. reflexivity. Qed.

End RepoTests.

(** ** Facts about the string primitives *)

Module JSStringFacts.

Lemma char_eqb_eq (a b : ascii) : char_eqb a b = true <-> a = b.
Proof. unfold char_eqb. apply Ascii.eqb_eq. Qed.

Lemma char_eqb_refl (a : ascii) : char_eqb a a = true.
Proof. apply char_eqb_eq. reflexivity. Qed.

Lemma append_nil_r (s : string) : s +:+ EmptyString = s.
Proof. induction s as [|c s IH]; simpl; [reflexivity | now rewrite IH]. Qed.

Lemma append_assoc (a b c : string) : (a +:+ b) +:+ c = a +:+ (b +:+ c).
Proof. induction a as [|x a IH]; simpl; [reflexivity | now rewrite IH]. Qed.

Lemma append_snoc_cons (a : string) (c : ascii) (b : string) :
  (a +:+ str1 c) +:+ b = a +:+ String c b.
Proof. rewrite append_assoc. reflexivity. Qed.

Lemma startsWith_app (p t : string) : startsWith (p +:+ t) p = true.
Proof.
  induction p as [|c p IH]; simpl; [reflexivity |].
  rewrite char_eqb_refl. exact IH.
Qed.

Lemma startsWith_inv (s p : string) :
  startsWith s p = true -> exists t, s = p +:+ t.
Proof.
  revert s. induction p as [|b p IH]; intros s H.
  - exists s. reflexivity.
  - destruct s as [|a s]; simpl in H; [discriminate |].
    apply andb_prop in H as [Hc Hr].
    apply char_eqb_eq in Hc. subst a.
    destruct (IH _ Hr) as [t ->]. exists t. reflexivity.
Qed.

Lemma startsWith_iff (s p : string) :
  startsWith s p = true <-> exists t, s = p +:+ t.
Proof.
  split; [apply startsWith_inv |].
  intros [t ->]. apply startsWith_app.
Qed.

Lemma endsWith_inv (s p : string) :
  endsWith s p = true -> exists t, s = t +:+ p.
Proof.
  induction s as [|c s IH]; cbn [endsWith]; intros H.
  - rewrite orb_false_r in H. apply String.eqb_eq in H. subst p.
    exists EmptyString. reflexivity.
  - apply orb_prop in H as [H | H].
    + apply String.eqb_eq in H. exists EmptyString. now subst p.
    + destruct (IH H) as [t ->]. exists (String c t). reflexivity.
Qed.

Lemma endsWith_refl (p : string) : endsWith p p = true.
Proof.
  destruct p; cbn [endsWith]; rewrite String.eqb_refl; reflexivity.
Qed.

Lemma endsWith_app (t p : string) : endsWith (t +:+ p) p = true.
Proof.
  induction t as [|c t IH].
  - apply endsWith_refl.
  - simpl String.append. cbn [endsWith]. rewrite IH. apply orb_true_r.
Qed.

Lemma endsWith_iff (s p : string) :
  endsWith s p = true <-> exists t, s = t +:+ p.
Proof.
  split; [apply endsWith_inv |].
  intros [t ->]. apply endsWith_app.
Qed.

Lemma includes_inv (s p : string) :
  includes s p = true -> exists a b, s = a +:+ p +:+ b.
Proof.
  induction s as [|c s IH]; simpl; intros H.
  - rewrite orb_false_r in H.
    destruct (startsWith_inv _ _ H) as [t Ht].
    exists EmptyString, t. exact Ht.
  - apply orb_prop in H as [H | H].
    + destruct (startsWith_inv _ _ H) as [t Ht].
      exists EmptyString, t. exact Ht.
    + destruct (IH H) as (a & b & ->).
      exists (String c a), b. reflexivity.
Qed.

Lemma includes_startsWith (s p : string) :
  startsWith s p = true -> includes s p = true.
Proof. intros H. destruct s; cbn [includes]; rewrite H; reflexivity. Qed.

Lemma includes_app (a p b : string) : includes (a +:+ p +:+ b) p = true.
Proof.
  induction a as [|c a IH].
  - change (EmptyString +:+ p +:+ b) with (p +:+ b).
    apply includes_startsWith, startsWith_app.
  - simpl String.append. cbn [includes]. rewrite IH. apply orb_true_r.
Qed.

Lemma has_char_app (c : ascii) (a b : string) :
  has_char c (a +:+ b) = has_char c a || has_char c b.
Proof.
  induction a as [|x a IH]; simpl; [reflexivity |].
  rewrite IH. apply orb_assoc.
Qed.

Lemma string_in_In (s : string) (l : list string) :
  string_in s l = true <-> In s l.
Proof.
  unfold string_in. rewrite existsb_exists. split.
  - intros (x & Hx & E). apply String.eqb_eq in E. now subst x.
  - intros H. exists s. split; [exact H | apply String.eqb_refl].
Qed.

Lemma string_in_false (s : string) (l : list string) :
  string_in s l = false <-> ~ In s l.
Proof.
  rewrite <- string_in_In. destruct (string_in s l); split; intros H.
  - discriminate.
  - now elim H.
  - intros E; discriminate.
  - reflexivity.
Qed.

Lemma map_chars_app (f : ascii -> ascii) (a b : string) :
  map_chars f (a +:+ b) = map_chars f a +:+ map_chars f b.
Proof. induction a as [|c a IH]; simpl; [reflexivity | now rewrite IH]. Qed.

(** Splitting on a separator that does not occur returns the text. *)
Lemma split_char_go_absent (sep : ascii) (s cur : string) :
  has_char sep s = false -> split_char_go sep cur s = [cur +:+ s].
Proof.
  revert cur. induction s as [|c s IH]; intros cur H; simpl in *.
  - now rewrite append_nil_r.
  - apply orb_false_elim in H as [Hc Hs]. rewrite Hc.
    rewrite (IH _ Hs). now rewrite append_snoc_cons.
Qed.

Lemma includes_char (c : ascii) (s : string) :
  includes s (str1 c) = has_char c s.
Proof.
  induction s as [|x s IH]; simpl; [reflexivity |].
  rewrite IH. destruct (char_eqb x c); simpl; [| reflexivity].
  now destruct s.
Qed.

(** The first piece of [split(/\s+/)] is the text before the first
    whitespace character. *)
Lemma split_ws_go_head (s cur : string) :
  exists tok rest,
    hd EmptyString (split_ws_go cur false s) = cur +:+ tok
    /\ s = tok +:+ rest
    /\ has_ws tok = false
    /\ (rest = EmptyString
        \/ exists c r, rest = String c r /\ is_ws c = true).
Proof.
  revert cur. induction s as [|c s IH]; intros cur.
  - exists EmptyString, EmptyString. simpl.
    rewrite append_nil_r. auto.
  - simpl. destruct (is_ws c) eqn:W.
    + exists EmptyString, (String c s). simpl.
      rewrite append_nil_r. repeat split; eauto.
    + destruct (IH (cur +:+ str1 c)) as (tok & rest & Hh & Hs & Hw & Hr).
      exists (String c tok), rest. simpl.
      rewrite Hh, append_snoc_cons, W, Hw. subst s. auto.
Qed.

Lemma split_ws_head (s : string) :
  exists rest,
    s = hd EmptyString (split_ws s) +:+ rest
    /\ has_ws (hd EmptyString (split_ws s)) = false
    /\ (rest = EmptyString
        \/ exists c r, rest = String c r /\ is_ws c = true).
Proof.
  destruct (split_ws_go_head s EmptyString) as (tok & rest & Hh & Hs & Hw & Hr).
  unfold split_ws. rewrite Hh. simpl. exists rest. auto.
Qed.

End JSStringFacts.

(** ** Policy engine *)

Module PolicyFacts.
Import Policy PolicySpec JSStringFacts.

Section WithRegExp.

Variable RegExp_valid : string -> bool.
Variable RegExp_test : string -> string -> bool.










(** The engine's own reading of a record without [allow]: once the
    allowlist, if any, is satisfied, the global lists decide. *)
Lemma unset_allow_falls_through (cfg : PolicyConfig) (tool : string)
      (args : JSValue) (tp : ToolPolicy) :
  string_in tool (deny_tools cfg) = false ->
  per_tool cfg !! tool = Some tp ->
  allow tp = None ->
  (arg_allowlist tp = None
   \/ exists al c,
       arg_allowlist tp = Some al
       /\ checkArgAllowlist RegExp_valid RegExp_test args al = inr c
       /\ ac_allowed c = true) ->
  checkPolicy RegExp_valid RegExp_test cfg tool args
  = inr (check_global_lists cfg tool (getEffectivePolicy cfg tool)).
Proof.
  intros Hdeny Hpt Hallow Hal.
  unfold Policy.checkPolicy, lookup_tool_policy.
  rewrite Hdeny, Hpt, Hallow.
  destruct Hal as [-> | (al & c & -> & -> & ->)]; reflexivity.
Qed.

End WithRegExp.

End PolicyFacts.


(** ** Registry *)

Module RegistryFacts.
Import Policy Config Audit MCP Pipeline.

Lemma Map_get_set_same (m : list (string * ToolDefinition)) (k : string)
      (v : ToolDefinition) :
  Map_get (Map_set m k v) k = Some v.
Proof.
  induction m as [|[k' v'] m IH]; simpl.
  - now rewrite String.eqb_refl.
  - destruct (String.eqb k' k) eqn:E; simpl; rewrite E; [reflexivity | exact IH].
Qed.

Lemma Map_get_set_other (m : list (string * ToolDefinition)) (k k' : string)
      (v : ToolDefinition) :
  k <> k' -> Map_get (Map_set m k v) k' = Map_get m k'.
Proof.
  intros Hne. induction m as [|[k0 v0] m IH]; simpl.
  - destruct (String.eqb k k') eqn:E; [| reflexivity].
    apply String.eqb_eq in E. contradiction.
  - destruct (String.eqb k0 k) eqn:E; simpl.
    + apply String.eqb_eq in E. subst k0.
      destruct (String.eqb k k') eqn:E'; [| reflexivity].
      apply String.eqb_eq in E'. contradiction.
    + destruct (String.eqb k0 k'); [reflexivity | exact IH].
Qed.

Lemma Map_has_true (m : list (string * ToolDefinition)) (k : string) :
  Map_has m k = true <-> exists v, Map_get m k = Some v.
Proof.
  unfold Map_has. destruct (Map_get m k); split; eauto; try discriminate.
  intros [v H]. discriminate.
Qed.

Lemma Map_has_false (m : list (string * ToolDefinition)) (k : string) :
  Map_has m k = false <-> Map_get m k = None.
Proof.
  unfold Map_has. destruct (Map_get m k); split; congruence.
Qed.

(** Registering a list of fresh, pairwise distinct names succeeds and
    adds exactly those tools. *)
Lemma registerTools_fresh_prefix (pre : list ToolDefinition) :
  forall (gw : MCPGateway) (rest : list ToolDefinition),
    List.NoDup (map name pre) ->
    (forall t, In t pre -> Map_has (tools gw) (name t) = false) ->
    exists gw',
      registerTools gw (pre ++ rest) = registerTools gw' rest
      /\ (forall t, In t pre -> Map_get (tools gw') (name t) = Some t)
      /\ (forall k, ~ In k (map name pre) ->
                    Map_get (tools gw') k = Map_get (tools gw) k)
      /\ gw_policy gw' = gw_policy gw
      /\ gw_audit gw' = gw_audit gw.
Proof.
  induction pre as [|t0 pre IH]; intros gw rest Hnd Hfresh.
  - exists gw. simpl. repeat split; auto. intros t [].
  - simpl in Hnd. apply List.NoDup_cons_iff in Hnd as [Hnotin Hnd].
    simpl. unfold registerTool at 1.
    rewrite (Hfresh t0 (or_introl eq_refl)).
    set (gw1 := {| tools := Map_set (tools gw) (name t0) t0;
                   gw_policy := gw_policy gw;
                   gw_audit := gw_audit gw |}).
    assert (Hfresh1 : forall t, In t pre -> Map_has (tools gw1) (name t) = false).
    { intros t Ht. apply Map_has_false. simpl.
      rewrite Map_get_set_other.
      - apply Map_has_false, Hfresh. now right.
      - intros E. apply Hnotin. rewrite E. now apply in_map. }
    destruct (IH gw1 rest Hnd Hfresh1) as (gw' & Hreg & Hin & Hout & Hp & Ha).
    exists gw'. split; [exact Hreg |]. split; [| split; [| split]].
    + intros t [<- | Ht]; [| now apply Hin].
      rewrite Hout by exact Hnotin. simpl. apply Map_get_set_same.
    + intros k Hk. rewrite Hout.
      * simpl. apply Map_get_set_other. intros E. apply Hk. now left.
      * intros Hk'. apply Hk. now right.
    + exact Hp.
    + exact Ha.
Qed.

End RegistryFacts.

(** C9. [registerTools] is not atomic. When the tools before position
    i have fresh, pairwise distinct names and the tool at position i
    has a name that is registered by then (before the call, or by an
    earlier position), the call throws, and afterwards every tool
    before position i is registered under its name, so that an
    invocation of it gets past the tool lookup; what was registered
    before the call stays registered. *)
Theorem registerTools_not_rolled_back
        (gw : MCP.MCPGateway) (pre post : list MCP.ToolDefinition)
        (dup : MCP.ToolDefinition) :
  List.NoDup (map MCP.name pre) ->
  (forall t, In t pre -> MCP.Map_has (MCP.tools gw) (MCP.name t) = false) ->
  (MCP.Map_has (MCP.tools gw) (MCP.name dup) = true
   \/ In (MCP.name dup) (map MCP.name pre)) ->
  exists gw' e,
    MCP.registerTools gw (pre ++ dup :: post) = (gw', Some e)
    /\ (forall t, In t pre ->
          MCP.Map_get (MCP.tools gw') (MCP.name t) = Some t
          /\ forall RegExp_valid RegExp_test args,
               Pipeline.phase_reached RegExp_valid RegExp_test gw'
                                      (MCP.name t) args
               <> Pipeline.ToolLookup)
    /\ (forall k v, MCP.Map_get (MCP.tools gw) k = Some v ->
          MCP.Map_get (MCP.tools gw') k = Some v).
Proof.
  intros Hnd Hfresh Hdup.
  destruct (RegistryFacts.registerTools_fresh_prefix pre gw (dup :: post)
              Hnd Hfresh) as (gw' & Hreg & Hin & Hout & _ & _).
  assert (Hhas : MCP.Map_has (MCP.tools gw') (MCP.name dup) = true).
  { apply RegistryFacts.Map_has_true.
    destruct (in_dec string_dec (MCP.name dup) (map MCP.name pre)) as [Hi | Hn].
    - apply in_map_iff in Hi as (t & Et & Ht). rewrite <- Et. eauto.
    - destruct Hdup as [Hd | Hd]; [| contradiction].
      rewrite Hout by exact Hn. now apply RegistryFacts.Map_has_true. }
  exists gw'. eexists. split; [| split].
  - rewrite Hreg. simpl. unfold MCP.registerTool. rewrite Hhas. reflexivity.
  - intros t Ht. split; [now apply Hin |].
    intros RV RT args. unfold Pipeline.phase_reached.
    rewrite (Hin t Ht).
    destruct (MCP.validateArgs t args); [discriminate |].
    destruct (Policy.enforce _ _ _ _ _); discriminate.
  - intros k v Hk.
    destruct (in_dec string_dec k (map MCP.name pre)) as [Hi | Hn].
    + apply in_map_iff in Hi as (t & Et & Ht).
      pose proof (Hfresh t Ht) as Hf.
      apply RegistryFacts.Map_has_false in Hf. congruence.
    + rewrite Hout by exact Hn. exact Hk.
Qed.

(** A gateway that holds [custom.impostor] is given the echo tool
    twice and then a third tool: the call throws at the repetition,
    [custom.echo] and [custom.impostor] are registered afterwards. *)
Lemma registerTools_not_rolled_back_witness :
  exists gw' e,
    MCP.registerTools
      (Examples.gateway_with Examples.audit_on Examples.policy_allow_echo
                             [Examples.impostorTool])
      ([Examples.echoTool] ++ Examples.echoTool :: [Examples.codelessTool])
    = (gw', Some e)
    /\ MCP.Map_get (MCP.tools gw') "custom.echo" = Some Examples.echoTool
    /\ MCP.Map_get (MCP.tools gw') "custom.impostor"
       = Some Examples.impostorTool.
Proof.
  destruct (registerTools_not_rolled_back
              (Examples.gateway_with Examples.audit_on
                 Examples.policy_allow_echo [Examples.impostorTool])
              [Examples.echoTool] [Examples.codelessTool] Examples.echoTool)
    as (gw' & e & Hreg & Hpre & Hold).
  - simpl. constructor; [intros [] | constructor].
  - intros t [<- | []]. reflexivity.
  - right. simpl. left. reflexivity.
  - exists gw', e. split; [exact Hreg |]. split.
    + apply (Hpre Examples.echoTool). left. reflexivity.
    + apply Hold. reflexivity.
Defined.

(** ** Invocation pipeline and audit events *)

Module InvokeFacts.
Import Policy Config Audit MCP Pipeline.

Lemma log_enabled (lg : AuditLogger) (stamp now : Z) (ctx : AuditContext)
      (d : Decision) (why : string) (res : JSValue) (ec : option string) :
  enabled (config lg) = true ->
  exists ev,
    log lg stamp now ctx d why res ec = [ev]
    /\ decision ev = d
    /\ args_sha256 ev = hashArgs (args ctx)
    /\ error_code ev =
       match ec with
       | Some c => if String.eqb c EmptyString then None else Some c
       | None => None
       end.
Proof.
  intros He. unfold log. rewrite He. simpl. eexists. repeat split.
Qed.

Lemma log_disabled (lg : AuditLogger) (stamp now : Z) (ctx : AuditContext)
      (d : Decision) (why : string) (res : JSValue) (ec : option string) :
  enabled (config lg) = false -> log lg stamp now ctx d why res ec = [].
Proof. intros He. unfold log. now rewrite He. Qed.

(** Every event a call to [log] writes carries the hash of the
    context's arguments. *)
Lemma log_hash (lg : AuditLogger) (stamp now : Z) (ctx : AuditContext)
      (d : Decision) (why : string) (res : JSValue) (ec : option string)
      (ev : AuditEvent) :
  In ev (log lg stamp now ctx d why res ec) ->
  args_sha256 ev = hashArgs (args ctx).
Proof.
  unfold log. destruct (negb _); simpl; [intros [] |].
  intros [<- | []]. reflexivity.
Qed.

Section WithRegExp.

Variable RegExp_valid : string -> bool.
Variable RegExp_test : string -> string -> bool.

(** The allowlist loop throws nothing but the SyntaxError of a
    rejected pattern. *)
Lemma check_entry_throws (al : gmap string JSValue) (k : string)
      (v : JSValue) (e : Thrown) :
  check_entry RegExp_valid RegExp_test al k v = inl e ->
  exists p, e = regex_syntax_error p.
Proof.
  unfold check_entry, must_equal, deny_arg.
  destruct (al !! k) as [av|]; [| destruct (string_in _ _); discriminate].
  destruct av as [| |[|]| |av| |];
    try (destruct (negb _); discriminate); try discriminate.
  destruct (startsWith av "regex:"); [| destruct (negb _); discriminate].
  destruct (negb (RegExp_valid _)).
  - intros [= <-]. eauto.
  - destruct (match v with JStr _ => _ | _ => _ end); discriminate.
Qed.

Lemma checkArgAllowlist_throws (args : JSValue) (al : gmap string JSValue)
      (e : Thrown) :
  checkArgAllowlist RegExp_valid RegExp_test args al = inl e ->
  exists p, e = regex_syntax_error p.
Proof.
  unfold checkArgAllowlist.
  induction (entries args) as [|[k v] rest IH]; simpl; [discriminate |].
  destruct (check_entry _ _ al k v) as [e'|[verdict|]] eqn:E.
  - intros [= <-]. eapply check_entry_throws, E.
  - discriminate.
  - exact IH.
Qed.

Lemma checkPolicy_throws (cfg : PolicyConfig) (toolName : string)
      (args : JSValue) (e : Thrown) :
  checkPolicy RegExp_valid RegExp_test cfg toolName args = inl e ->
  exists p, e = regex_syntax_error p.
Proof.
  unfold checkPolicy.
  destruct (string_in _ _); [discriminate |].
  destruct (lookup_tool_policy _ _) as [tp|]; [| discriminate].
  destruct (match allow tp with Some false => true | _ => false end);
    [discriminate |].
  destruct (arg_allowlist tp) as [al|].
  - destruct (checkArgAllowlist _ _ args al) as [e'|c] eqn:E.
    + intros [= <-]. eapply checkArgAllowlist_throws, E.
    + destruct (negb _); [discriminate |].
      destruct (match allow tp with Some true => true | _ => false end);
        discriminate.
  - simpl.
    destruct (match allow tp with Some true => true | _ => false end);
      discriminate.
Qed.

(** What [enforce] throws: the denial, or the SyntaxError. *)
Lemma enforce_throws (cfg : PolicyConfig) (toolName : string)
      (args : JSValue) (e : Thrown) :
  enforce RegExp_valid RegExp_test cfg toolName args = inl e ->
  (exists d,
      checkPolicy RegExp_valid RegExp_test cfg toolName args = inr d
      /\ allowed d = false
      /\ e = PolicyDeniedError toolName (Policy.reason d))
  \/ (exists p, e = regex_syntax_error p).
Proof.
  unfold enforce.
  destruct (checkPolicy _ _ cfg toolName args) as [e'|d] eqn:E.
  - intros [= <-]. right. eapply checkPolicy_throws, E.
  - destruct (allowed d) eqn:Ha; simpl; [discriminate |].
    intros [= <-]. left. eauto.
Qed.

Lemma enforce_returns (cfg : PolicyConfig) (toolName : string)
      (args : JSValue) (eff : EffectivePolicy) :
  enforce RegExp_valid RegExp_test cfg toolName args = inr eff ->
  exists d,
    checkPolicy RegExp_valid RegExp_test cfg toolName args = inr d
    /\ allowed d = true /\ eff = effectivePolicy d.
Proof.
  unfold enforce.
  destruct (checkPolicy _ _ cfg toolName args) as [e'|d]; [discriminate |].
  destruct (allowed d) eqn:Ha; simpl; [| discriminate].
  intros [= <-]. eauto.
Qed.

(** The [catch] block with the logger enabled. *)
Lemma invoke_catch_event (gw : MCPGateway) (clk : Clock)
      (ctx : AuditContext) (err : Thrown) :
  enabled (config (gw_audit gw)) = true ->
  exists ev,
    snd (invoke_catch gw clk ctx err) = [ev]
    /\ success (fst (invoke_catch gw clk ctx err)) = false
    /\ error (fst (invoke_catch gw clk ctx err))
       = Some {| code := errorToCode err; message := error_message err |}
    /\ (decision ev = Deny <->
        isGatewayError err = true /\ errorToCode err = "POLICY_DENIED")
    /\ (errorToCode err <> EmptyString ->
        error_code ev = Some (errorToCode err)).
Proof.
  intros He. unfold invoke_catch, logDenied, logError, failure.
  cbn [fst snd success error].
  destruct (isGatewayError err && String.eqb (errorToCode err) "POLICY_DENIED")
    eqn:Hd.
  - apply andb_prop in Hd as [Hg Hc]. apply String.eqb_eq in Hc.
    destruct (log_enabled (gw_audit gw) (t_stamp clk) (t_log clk) ctx Deny
                (error_message err) JUndefined (Some "POLICY_DENIED") He)
      as (ev & -> & Hdec & _ & Hec).
    exists ev. repeat split; auto.
    intros _. rewrite Hec, Hc. reflexivity.
  - destruct (log_enabled (gw_audit gw) (t_stamp clk) (t_log clk) ctx Allow
                ("error: " +:+ error_message err) JUndefined
                (Some (errorToCode err)) He)
      as (ev & -> & Hdec & _ & Hec).
    exists ev. repeat split; auto.
    + congruence.
    + congruence.
    + intros [Hg Hc]. rewrite Hg, Hc in Hd. discriminate.
    + intros Hne. rewrite Hec.
      destruct (String.eqb (errorToCode err) EmptyString) eqn:E; [| reflexivity].
      apply String.eqb_eq in E. contradiction.
Qed.

(** Every event of an invocation carries the hash of the arguments
    the caller passed. *)
Lemma invoke_event_hash (gw : MCPGateway) (clk : Clock) (toolName : string)
      (raw : JSValue) (ev : AuditEvent) :
  In ev (snd (invokeTool RegExp_valid RegExp_test gw clk toolName raw)) ->
  args_sha256 ev = hashArgs raw.
Proof.
  unfold invokeTool, invoke_catch, logDenied, logError, logSuccess.
  destruct (Map_get _ _) as [tool|]; simpl; [| apply log_hash].
  destruct (validateArgs tool raw) as [verr|data]; simpl; [apply log_hash |].
  destruct (enforce _ _ _ _ _) as [err|eff]; simpl.
  { destruct (_ && _); apply log_hash. }
  destruct (executeWithTimeout _ _ _) as [res|err]; simpl.
  - destruct (enforceMaxBytes _ _) as [err|[]]; simpl.
    + destruct (_ && _); apply log_hash.
    + apply log_hash.
  - destruct (_ && _); apply log_hash.
Qed.

End WithRegExp.

Lemma executeWithTimeout_rejects (toolName : string) (h : Settles)
      (timeoutMs : Z) (e : Thrown) :
  executeWithTimeout toolName h timeoutMs = Rejected e ->
  thrown_by h = Some e \/ e = TimeoutError toolName timeoutMs.
Proof.
  destruct h as [[v|e']|ms [v|e']|]; simpl.
  - discriminate.
  - intros [= <-]. now left.
  - destruct (ms <? timeoutMs); [discriminate |]. intros [= <-]. now right.
  - destruct (ms <? timeoutMs); intros [= <-]; [now left | now right].
  - intros [= <-]. now right.
Qed.

Lemma enforceMaxBytes_throws (res : JSValue) (maxBytes : Z) (e : Thrown) :
  enforceMaxBytes res maxBytes = inl e ->
  errorToCode e = "INTERNAL_ERROR" \/ errorToCode e = "MAX_BYTES_EXCEEDED".
Proof.
  unfold enforceMaxBytes. destruct (stringify res).
  - destruct (_ <? _); [| discriminate]. intros [= <-]. now right.
  - intros [= <-]. now left.
Qed.

End InvokeFacts.

(** The example registry holds the echo tool alone, and its handler
    throws nothing but a TypeError. *)
Module ExampleFacts.
Import Policy Config Audit MCP Pipeline Examples.

Lemma echo_handler_throws (data : JSValue) (e : Thrown) :
  thrown_by (echo_handler data) = Some e ->
  errorToCode e = "INTERNAL_ERROR".
Proof.
  unfold echo_handler.
  repeat match goal with
         | |- context [match ?x with _ => _ end] => destruct x
         end;
    cbn [thrown_by]; intros H; inversion H; reflexivity.
Qed.

Lemma echo_gateway_keeps_codes (a : AuditConfig) (p : PolicyConfig) :
  handlers_keep_codes (gateway_with a p [echoTool]).
Proof.
  intros toolName tool data e Hget Hth.
  change (tools (gateway_with a p [echoTool]))
    with [("custom.echo", echoTool)] in Hget.
  cbn [Map_get] in Hget.
  destruct (String.eqb "custom.echo" toolName); [| discriminate].
  injection Hget as <-.
  rewrite (echo_handler_throws data e Hth). split; discriminate.
Qed.

End ExampleFacts.

(** C3, as the code has it. With the audit logger enabled, every call
    to [invokeTool] writes exactly one audit event. Its decision is
    deny only when the call ended in the tool lookup, the schema
    validation or the policy check; a call that reached execution
    records allow and, unless it succeeded, the error's code as
    error_code; and the event has decision allow and no error_code
    exactly when the call returned success. This holds for a registry
    whose handlers do not themselves throw a gateway error coded
    POLICY_DENIED or with an empty code. *)
Theorem invoke_writes_one_classified_event
        (RegExp_valid : string -> bool)
        (RegExp_test : string -> string -> bool)
        (gw : MCP.MCPGateway) (clk : MCP.Clock)
        (toolName : string) (args : JSValue) :
  Config.enabled (Audit.config (MCP.gw_audit gw)) = true ->
  Pipeline.handlers_keep_codes gw ->
  exists ev,
    snd (MCP.invokeTool RegExp_valid RegExp_test gw clk toolName args) = [ev]
    /\ (Audit.decision ev = Audit.Deny ->
        Pipeline.phase_reached RegExp_valid RegExp_test gw toolName args
        <> Pipeline.Execution)
    /\ (Pipeline.phase_reached RegExp_valid RegExp_test gw toolName args
        = Pipeline.Execution ->
        Audit.decision ev = Audit.Allow
        /\ (MCP.success
              (fst (MCP.invokeTool RegExp_valid RegExp_test gw clk
                                   toolName args)) = true
            \/ exists te,
                MCP.error
                  (fst (MCP.invokeTool RegExp_valid RegExp_test gw clk
                                       toolName args)) = Some te
                /\ Audit.error_code ev = Some (MCP.code te)))
    /\ ((Audit.decision ev = Audit.Allow /\ Audit.error_code ev = None)
        <-> MCP.success
              (fst (MCP.invokeTool RegExp_valid RegExp_test gw clk
                                   toolName args)) = true).
Proof.
  intros He Hcodes.
  assert (Hcatch : forall ctx err,
            errorToCode err <> "POLICY_DENIED" ->
            errorToCode err <> EmptyString ->
            exists ev,
              snd (MCP.invoke_catch gw clk ctx err) = [ev]
              /\ Audit.decision ev = Audit.Allow
              /\ Audit.error_code ev = Some (errorToCode err)
              /\ MCP.success (fst (MCP.invoke_catch gw clk ctx err)) = false
              /\ MCP.error (fst (MCP.invoke_catch gw clk ctx err))
                 = Some {| MCP.code := errorToCode err;
                           MCP.message := error_message err |}).
  { intros ctx err Hpd Hne.
    destruct (InvokeFacts.invoke_catch_event gw clk ctx err He)
      as (ev & Hev & Hs & Herr & Hdeny & Hcode).
    exists ev. repeat split; auto.
    destruct (Audit.decision ev) eqn:Hd; [reflexivity |].
    destruct Hdeny as [Hdeny _]. destruct (Hdeny eq_refl). contradiction. }
  unfold MCP.invokeTool, Pipeline.phase_reached.
  destruct (MCP.Map_get (MCP.tools gw) toolName) as [tool|] eqn:Hget.
  2:{ unfold Audit.logDenied.
      destruct (InvokeFacts.log_enabled (MCP.gw_audit gw) (MCP.t_stamp clk)
                  (MCP.t_log clk)
                  (Audit.createContext (MCP.gw_audit gw) (MCP.uuid clk)
                     (MCP.t_start clk) toolName args)
                  Audit.Deny
                  ("Tool " +:+ dq +:+ toolName +:+ dq +:+ " not found")
                  JUndefined (Some "POLICY_DENIED") He)
        as (ev & Hev & Hd & _ & Hec).
      cbn [fst snd]. rewrite Hev. exists ev.
      unfold MCP.failure. cbn [MCP.success].
      split; [reflexivity |]. split; [discriminate |].
      split; [discriminate |]. split; [| discriminate].
      intros [Ha _]. congruence. }
  destruct (MCP.validateArgs tool args) as [verr|data] eqn:Hval.
  { unfold Audit.logDenied.
    destruct (InvokeFacts.log_enabled (MCP.gw_audit gw) (MCP.t_stamp clk)
                  (MCP.t_log clk)
                (Audit.createContext (MCP.gw_audit gw) (MCP.uuid clk)
                   (MCP.t_start clk) toolName args)
                Audit.Deny ("Validation failed: " +:+ verr)
                JUndefined (Some "POLICY_DENIED") He)
      as (ev & Hev & Hd & _ & Hec).
    cbn [fst snd]. rewrite Hev. exists ev.
    unfold MCP.failure. cbn [MCP.success].
    split; [reflexivity |]. split; [discriminate |].
    split; [discriminate |]. split; [| discriminate].
    intros [Ha _]. congruence. }
  destruct (Policy.enforce RegExp_valid RegExp_test (MCP.gw_policy gw)
                           toolName args) as [err|eff] eqn:Henf.
  { destruct (InvokeFacts.invoke_catch_event gw clk
                (Audit.createContext (MCP.gw_audit gw) (MCP.uuid clk)
                   (MCP.t_start clk) toolName args) err He)
      as (ev & Hev & Hs & Herr & Hdeny & Hcode).
    exists ev. split; [exact Hev |].
    split; [discriminate |]. split; [discriminate |].
    rewrite Hs. split; [| discriminate].
    intros [Ha Hn]. exfalso.
    assert (Hne : errorToCode err <> EmptyString).
    { destruct (InvokeFacts.enforce_throws _ _ _ _ _ _ Henf)
        as [(d & _ & _ & ->) | (p & ->)]; discriminate. }
    rewrite (Hcode Hne) in Hn. discriminate. }
  destruct (Policy.executeWithTimeout toolName (MCP.handler tool data)
                                      (Policy.timeoutMs eff))
    as [res|err] eqn:Hexec.
  - destruct (Policy.enforceMaxBytes res (Policy.maxBytes eff))
      as [err|[]] eqn:Hmax.
    + destruct (Hcatch (Audit.createContext (MCP.gw_audit gw) (MCP.uuid clk)
                          (MCP.t_start clk) toolName args) err)
        as (ev & Hev & Hd & Hec & Hs & Herr).
      * destruct (InvokeFacts.enforceMaxBytes_throws _ _ _ Hmax) as [-> | ->];
          discriminate.
      * destruct (InvokeFacts.enforceMaxBytes_throws _ _ _ Hmax) as [-> | ->];
          discriminate.
      * exists ev. split; [exact Hev |].
        split; [congruence |]. split.
        -- intros _. split; [exact Hd |]. right. eexists. split; [exact Herr |].
           exact Hec.
        -- rewrite Hs. split; [| discriminate].
           intros [_ Hn]. congruence.
    + unfold Audit.logSuccess.
      destruct (InvokeFacts.log_enabled (MCP.gw_audit gw) (MCP.t_stamp clk)
                  (MCP.t_log clk)
                  (Audit.createContext (MCP.gw_audit gw) (MCP.uuid clk)
                     (MCP.t_start clk) toolName args)
                  Audit.Allow "execution_success" res None He)
        as (ev & Hev & Hd & _ & Hec).
      cbn [fst snd MCP.success]. rewrite Hev. exists ev.
      split; [reflexivity |]. split; [congruence |].
      split; [intros _; split; [exact Hd | now left] |].
      split; [reflexivity | intros _; split; [exact Hd | exact Hec]].
  - destruct (Hcatch (Audit.createContext (MCP.gw_audit gw) (MCP.uuid clk)
                        (MCP.t_start clk) toolName args) err)
      as (ev & Hev & Hd & Hec & Hs & Herr).
    + destruct (InvokeFacts.executeWithTimeout_rejects _ _ _ _ Hexec)
        as [Hth | ->]; [| discriminate].
      exact (proj1 (Hcodes toolName tool data err Hget Hth)).
    + destruct (InvokeFacts.executeWithTimeout_rejects _ _ _ _ Hexec)
        as [Hth | ->]; [| discriminate].
      exact (proj2 (Hcodes toolName tool data err Hget Hth)).
    + exists ev. split; [exact Hev |].
      split; [congruence |]. split.
      * intros _. split; [exact Hd |]. right. eexists. split; [exact Herr |].
        exact Hec.
      * rewrite Hs. split; [| discriminate].
        intros [_ Hn]. congruence.
Qed.

(** The echo tool, allowed by policy and called with a message. *)
Lemma invoke_writes_one_classified_event_witness :
  exists ev,
    snd (MCP.invokeTool Examples.word_pattern_valid Examples.word_pattern_test
           (Examples.gateway_with Examples.audit_on Examples.policy_allow_echo
                                  [Examples.echoTool])
           Examples.clock0 "custom.echo" (JObj [("message", JStr "hello")]))
    = [ev]
    /\ Audit.decision ev = Audit.Allow
    /\ Audit.error_code ev = None.
Proof.
  destruct (invoke_writes_one_classified_event
              Examples.word_pattern_valid Examples.word_pattern_test
              (Examples.gateway_with Examples.audit_on
                 Examples.policy_allow_echo [Examples.echoTool])
              Examples.clock0 "custom.echo"
              (JObj [("message", JStr "hello")]))
    as (ev & Hev & _ & _ & Hiff).
  - reflexivity.
  - apply ExampleFacts.echo_gateway_keeps_codes.
  - exists ev. split; [exact Hev |].
    apply Hiff. vm_compute. reflexivity.
Defined.

(** C3 as stated fails in three ways. With the logger disabled a
    successful call writes no event. A handler that throws the policy
    error class makes a call that reached execution record deny. A
    handler that throws a gateway error with an empty code makes a
    failed call record allow without error_code. *)
Lemma invoke_event_exceptions :
  (MCP.success
     (fst (MCP.invokeTool Examples.word_pattern_valid
             Examples.word_pattern_test
             (Examples.gateway_with Examples.audit_off
                Examples.policy_allow_echo [Examples.echoTool])
             Examples.clock0 "custom.echo"
             (JObj [("message", JStr "hello")]))) = true
   /\ snd (MCP.invokeTool Examples.word_pattern_valid
             Examples.word_pattern_test
             (Examples.gateway_with Examples.audit_off
                Examples.policy_allow_echo [Examples.echoTool])
             Examples.clock0 "custom.echo"
             (JObj [("message", JStr "hello")])) = [])
  /\ (Pipeline.phase_reached Examples.word_pattern_valid
        Examples.word_pattern_test
        (Examples.gateway_with Examples.audit_on Examples.policy_default_allow
           [Examples.impostorTool; Examples.codelessTool])
        "custom.impostor" (JObj []) = Pipeline.Execution
      /\ map Audit.decision
           (snd (MCP.invokeTool Examples.word_pattern_valid
                   Examples.word_pattern_test
                   (Examples.gateway_with Examples.audit_on
                      Examples.policy_default_allow
                      [Examples.impostorTool; Examples.codelessTool])
                   Examples.clock0 "custom.impostor" (JObj [])))
         = [Audit.Deny])
  /\ (MCP.success
        (fst (MCP.invokeTool Examples.word_pattern_valid
                Examples.word_pattern_test
                (Examples.gateway_with Examples.audit_on
                   Examples.policy_default_allow
                   [Examples.impostorTool; Examples.codelessTool])
                Examples.clock0 "custom.codeless" (JObj []))) = false
      /\ map (fun ev => (Audit.decision ev, Audit.error_code ev))
           (snd (MCP.invokeTool Examples.word_pattern_valid
                   Examples.word_pattern_test
                   (Examples.gateway_with Examples.audit_on
                      Examples.policy_default_allow
                      [Examples.impostorTool; Examples.codelessTool])
                   Examples.clock0 "custom.codeless" (JObj [])))
         = [(Audit.Allow, None)]).
Proof. vm_compute. repeat split. Qed.

(** ** Serialization of the arguments *)

Module StringifyFacts.

(** A property whose value is undefined leaves no trace in the
    serialization of the object. *)
Lemma stringify_elides_undefined (ps1 ps2 : list (string * JSValue))
      (k : string) :
  stringify (JObj (ps1 ++ (k, JUndefined) :: ps2))
  = stringify (JObj (ps1 ++ ps2)).
Proof.
  cbn [stringify]. rewrite !omap_app. reflexivity.
Qed.

Lemma stringify_null_property (k : string) :
  stringify (JObj [(k, JNull)])
  = Some ("{" +:+ (quote k +:+ ":null") +:+ "}").
Proof. reflexivity. Qed.

End StringifyFacts.

(** C4, as the code has it. [args_sha256] is the SHA-256 of
    [JSON.stringify] of the arguments the caller passed, with the
    properties in the object's own order: a property whose value is
    undefined is left out and null is written as null, but keys are
    not sorted. Two invocations with the same arguments (the same
    properties in the same order) carry the same hash, whatever the
    gateway, tool, actor and clock. *)
Theorem args_sha256_is_function_of_args
        (RegExp_valid : string -> bool)
        (RegExp_test : string -> string -> bool)
        (gw1 gw2 : MCP.MCPGateway) (clk1 clk2 : MCP.Clock)
        (tool1 tool2 : string) (args : JSValue)
        (ev1 ev2 : Audit.AuditEvent) :
  In ev1 (snd (MCP.invokeTool RegExp_valid RegExp_test gw1 clk1 tool1 args)) ->
  In ev2 (snd (MCP.invokeTool RegExp_valid RegExp_test gw2 clk2 tool2 args)) ->
  Audit.args_sha256 ev1 = Audit.args_sha256 ev2
  /\ Audit.args_sha256 ev1 = Audit.hashArgs args
  /\ (forall ps1 ps2 k,
        Audit.hashArgs (JObj (ps1 ++ (k, JUndefined) :: ps2))
        = Audit.hashArgs (JObj (ps1 ++ ps2)))
  /\ (forall k,
        Audit.hashArgs (JObj [(k, JNull)])
        = SHA256.sha256_hex ("{" +:+ (quote k +:+ ":null") +:+ "}")).
Proof.
  intros H1 H2.
  apply InvokeFacts.invoke_event_hash in H1.
  apply InvokeFacts.invoke_event_hash in H2.
  split; [congruence |]. split; [exact H1 |]. split.
  - intros ps1 ps2 k. unfold Audit.hashArgs, stringify_text.
    now rewrite StringifyFacts.stringify_elides_undefined.
  - intros k. reflexivity.
Qed.

(** Two calls of the echo tool with the same arguments, by different
    gateways at different times. *)
Lemma args_sha256_is_function_of_args_witness :
  map Audit.args_sha256
      (snd (MCP.invokeTool Examples.word_pattern_valid
              Examples.word_pattern_test
              (Examples.gateway_with Examples.audit_on
                 Examples.policy_allow_echo [Examples.echoTool])
              Examples.clock0 "custom.echo"
              (JObj [("message", JStr "hello")])))
  = map Audit.args_sha256
      (snd (MCP.invokeTool Examples.word_pattern_valid
              Examples.word_pattern_test
              (Examples.gateway_with Examples.audit_on
                 Examples.policy_default_allow [Examples.impostorTool])
              Examples.clock1 "custom.impostor"
              (JObj [("message", JStr "hello")]))).
Proof.
  destruct (MCP.invokeTool Examples.word_pattern_valid
              Examples.word_pattern_test
              (Examples.gateway_with Examples.audit_on
                 Examples.policy_allow_echo [Examples.echoTool])
              Examples.clock0 "custom.echo"
              (JObj [("message", JStr "hello")])) as [r1 [|e1 [|]]] eqn:E1;
    try (vm_compute in E1; discriminate).
  destruct (MCP.invokeTool Examples.word_pattern_valid
              Examples.word_pattern_test
              (Examples.gateway_with Examples.audit_on
                 Examples.policy_default_allow [Examples.impostorTool])
              Examples.clock1 "custom.impostor"
              (JObj [("message", JStr "hello")])) as [r2 [|e2 [|]]] eqn:E2;
    try (vm_compute in E2; discriminate).
  cbn [snd map]. f_equal.
  apply (args_sha256_is_function_of_args
           Examples.word_pattern_valid Examples.word_pattern_test
           (Examples.gateway_with Examples.audit_on
              Examples.policy_allow_echo [Examples.echoTool])
           (Examples.gateway_with Examples.audit_on
              Examples.policy_default_allow [Examples.impostorTool])
           Examples.clock0 Examples.clock1 "custom.echo" "custom.impostor"
           (JObj [("message", JStr "hello")]) e1 e2).
  - rewrite E1. left. reflexivity.
  - rewrite E2. left. reflexivity.
Defined.

(** C4 as stated fails: the objects [{a: 1, b: 2}] and [{b: 2, a: 1}]
    are the same map, and the events of the two calls carry
    different hashes. *)
Lemma args_sha256_depends_on_key_order :
  (list_to_map [("a", JNum 1); ("b", JNum 2)] : gmap string JSValue)
  = list_to_map [("b", JNum 2); ("a", JNum 1)]
  /\ map Audit.args_sha256
       (snd (MCP.invokeTool Examples.word_pattern_valid
               Examples.word_pattern_test
               (Examples.gateway_with Examples.audit_on
                  Examples.policy_allow_echo [Examples.echoTool])
               Examples.clock0 "custom.echo"
               (JObj [("a", JNum 1); ("b", JNum 2)])))
     = ["43258cff783fe7036d8a43033f830adfc60ec037382473548ac742b888292777"]
  /\ map Audit.args_sha256
       (snd (MCP.invokeTool Examples.word_pattern_valid
               Examples.word_pattern_test
               (Examples.gateway_with Examples.audit_on
                  Examples.policy_allow_echo [Examples.echoTool])
               Examples.clock0 "custom.echo"
               (JObj [("b", JNum 2); ("a", JNum 1)])))
     = ["3fb75453225c732a76b7899ea2096dda1455189c89817239732182f73fe5a09f"]
  /\ Audit.hashArgs (JObj [("a", JNum 1); ("b", JNum 2)])
     <> Audit.hashArgs (JObj [("b", JNum 2); ("a", JNum 1)]).
Proof.
  split; [| split; [| split]].
  - vm_compute. reflexivity.
  - vm_compute. reflexivity.
  - vm_compute. reflexivity.
  - vm_compute. discriminate.
Qed.

(** C5. The engine tells an unset [allow] from [false]: a record
    without [allow] whose allowlist, if any, is satisfied leaves the
    decision to allow_tools and default_deny. But the configuration
    schema does not let [allow] stay unset: the block that only
    raises the timeout of [db.query], a tool on [allow_tools], parses
    to a record with [allow = false], and the engine denies the tool.
    The same block handed to the engine without the schema is allowed
    through [allow_tools]. *)
Theorem schema_default_denies_timeout_only_tool :
  (forall RegExp_valid RegExp_test cfg tool args tp,
      string_in tool (Policy.deny_tools cfg) = false ->
      Policy.per_tool cfg !! tool = Some tp ->
      Policy.allow tp = None ->
      (Policy.arg_allowlist tp = None
       \/ exists al c,
           Policy.arg_allowlist tp = Some al
           /\ Policy.checkArgAllowlist RegExp_valid RegExp_test args al = inr c
           /\ Policy.ac_allowed c = true) ->
      Policy.checkPolicy RegExp_valid RegExp_test cfg tool args
      = inr (Policy.check_global_lists cfg tool
               (Policy.getEffectivePolicy cfg tool)))
  /\ (forall raw tp,
         Config.ToolPolicySchema_parse raw = Some tp ->
         Policy.allow tp = Some (default false (Policy.allow raw)))
  /\ match Config.PolicyConfigSchema_parse Examples.raw_policy_timeout_only with
     | Some cfg =>
         match Policy.checkPolicy Examples.word_pattern_valid
                 Examples.word_pattern_test cfg "db.query"
                 (JObj [("sql", JStr "SELECT 1")]) with
         | inr d => Some (Policy.allowed d, Policy.reason d)
         | inl _ => None
         end
     | None => None
     end
     = Some (false,
             "Tool " +:+ dq +:+ "db.query" +:+ dq
             +:+ " is explicitly denied in per_tool policy")
  /\ PolicySpec.verdict
       (Policy.checkPolicy Examples.word_pattern_valid
          Examples.word_pattern_test Examples.policy_timeout_only_unparsed
          "db.query" (JObj [("sql", JStr "SELECT 1")]))
     = Some true.
Proof.
  split; [| split; [| split]].
  - intros RV RT cfg tool args tp.
    apply PolicyFacts.unset_allow_falls_through.
  - intros raw tp. unfold Config.ToolPolicySchema_parse.
    destruct (_ && _); [| discriminate]. intros [= <-]. reflexivity.
  - vm_compute. reflexivity.
  - vm_compute. reflexivity.
Qed.

(** C6, as the code has it. For an invocation that passes
    validation, the handler receives the parsed value, and the policy
    decision, the evaluation of arg_allowlist included, is taken on
    the caller's raw arguments: a denial of the raw arguments ends
    the call with POLICY_DENIED, whatever the parsed value is, and
    when the raw arguments are allowed the result is what the handler
    makes of the parsed value. *)
Theorem policy_reads_raw_handler_reads_parsed
        (RegExp_valid : string -> bool)
        (RegExp_test : string -> string -> bool)
        (gw : MCP.MCPGateway) (clk : MCP.Clock) (toolName : string)
        (tool : MCP.ToolDefinition) (raw data : JSValue)
        (d : Policy.PolicyDecision) :
  MCP.Map_get (MCP.tools gw) toolName = Some tool ->
  MCP.validateArgs tool raw = inr data ->
  Policy.checkPolicy RegExp_valid RegExp_test (MCP.gw_policy gw) toolName raw
  = inr d ->
  (Policy.allowed d = false ->
   fst (MCP.invokeTool RegExp_valid RegExp_test gw clk toolName raw)
   = MCP.failure "POLICY_DENIED" ("Policy denied: " +:+ Policy.reason d)
                 (MCP.uuid clk))
  /\ (Policy.allowed d = true ->
      forall v,
        Policy.executeWithTimeout toolName (MCP.handler tool data)
          (Policy.timeoutMs (Policy.effectivePolicy d)) = Policy.Resolved v ->
        Policy.enforceMaxBytes v (Policy.maxBytes (Policy.effectivePolicy d))
        = inr tt ->
        fst (MCP.invokeTool RegExp_valid RegExp_test gw clk toolName raw)
        = {| MCP.success := true;
             MCP.result := Some v;
             MCP.error := None;
             MCP.tr_requestId := MCP.uuid clk |})
  /\ (Policy.allowed d = true ->
      forall e,
        Policy.executeWithTimeout toolName (MCP.handler tool data)
          (Policy.timeoutMs (Policy.effectivePolicy d)) = Policy.Rejected e ->
        fst (MCP.invokeTool RegExp_valid RegExp_test gw clk toolName raw)
        = MCP.failure (errorToCode e) (error_message e) (MCP.uuid clk)).
Proof.
  intros Hget Hval Hpol.
  unfold MCP.invokeTool, Policy.enforce.
  rewrite Hget, Hval, Hpol.
  split; [| split].
  - intros Ha. rewrite Ha. reflexivity.
  - intros Ha v Hexec Hmax. rewrite Ha. cbn [negb].
    rewrite Hexec, Hmax. reflexivity.
  - intros Ha e Hexec. rewrite Ha. cbn [negb].
    rewrite Hexec. reflexivity.
Qed.

(** The echo tool under an allowlist that names [message] only: the
    raw arguments pass, and the handler runs on the parsed value with
    its default. *)
Lemma policy_reads_raw_handler_reads_parsed_witness :
  fst (MCP.invokeTool Examples.word_pattern_valid Examples.word_pattern_test
         (Examples.gateway_with Examples.audit_on
            Examples.policy_echo_message_only [Examples.echoTool])
         Examples.clock0 "custom.echo" (JObj [("message", JStr "hello")]))
  = {| MCP.success := true;
       MCP.result := Some (JObj [("echo", JStr "hello")]);
       MCP.error := None;
       MCP.tr_requestId := MCP.uuid Examples.clock0 |}.
Proof.
  destruct (Policy.checkPolicy Examples.word_pattern_valid
              Examples.word_pattern_test Examples.policy_echo_message_only
              "custom.echo" (JObj [("message", JStr "hello")]))
    as [e|d] eqn:Hpol; [vm_compute in Hpol; discriminate |].
  assert (Ha : Policy.allowed d = true).
  { vm_compute in Hpol. injection Hpol as <-. reflexivity. }
  assert (He : Policy.effectivePolicy d
               = Policy.getEffectivePolicy Examples.policy_echo_message_only
                                           "custom.echo").
  { vm_compute in Hpol. injection Hpol as <-. vm_compute. reflexivity. }
  apply (proj1 (proj2
           (policy_reads_raw_handler_reads_parsed
              Examples.word_pattern_valid Examples.word_pattern_test
              (Examples.gateway_with Examples.audit_on
                 Examples.policy_echo_message_only [Examples.echoTool])
              Examples.clock0 "custom.echo" Examples.echoTool
              (JObj [("message", JStr "hello")])
              (JObj [("message", JStr "hello"); ("uppercase", JBool false)])
              d eq_refl eq_refl Hpol)) Ha).
  - rewrite He. reflexivity.
  - rewrite He. reflexivity.
Defined.

(** C6 as stated fails in both directions. Under an allowlist that
    names [message] only, the parsed value (with the default of
    [uppercase] filled in) would be denied, yet the call succeeds.
    Under an allowlist that names both fields, the parsed value
    (without the stray key the schema strips) would be allowed, yet
    the call is denied for that key. *)
Lemma policy_decision_ignores_parsed_value :
  (MCP.validateArgs Examples.echoTool (JObj [("message", JStr "hello")])
   = inr (JObj [("message", JStr "hello"); ("uppercase", JBool false)])
   /\ PolicySpec.verdict
        (Policy.checkPolicy Examples.word_pattern_valid
           Examples.word_pattern_test Examples.policy_echo_message_only
           "custom.echo"
           (JObj [("message", JStr "hello"); ("uppercase", JBool false)]))
      = Some false
   /\ MCP.success
        (fst (MCP.invokeTool Examples.word_pattern_valid
                Examples.word_pattern_test
                (Examples.gateway_with Examples.audit_on
                   Examples.policy_echo_message_only [Examples.echoTool])
                Examples.clock0 "custom.echo"
                (JObj [("message", JStr "hello")]))) = true)
  /\ (MCP.validateArgs Examples.echoTool
        (JObj [("message", JStr "hello"); ("note", JStr "x")])
      = inr (JObj [("message", JStr "hello"); ("uppercase", JBool false)])
      /\ PolicySpec.verdict
           (Policy.checkPolicy Examples.word_pattern_valid
              Examples.word_pattern_test Examples.policy_echo_both_fields
              "custom.echo"
              (JObj [("message", JStr "hello"); ("uppercase", JBool false)]))
         = Some true
      /\ option_map MCP.code
           (MCP.error
              (fst (MCP.invokeTool Examples.word_pattern_valid
                      Examples.word_pattern_test
                      (Examples.gateway_with Examples.audit_on
                         Examples.policy_echo_both_fields [Examples.echoTool])
                      Examples.clock0 "custom.echo"
                      (JObj [("message", JStr "hello"); ("note", JStr "x")]))))
         = Some "POLICY_DENIED").
Proof. vm_compute. repeat split. Qed.

(** ** Connector guards *)

(** C1. [isPathAllowed] compares by textual prefix. With [/all] as
    the only allowed path, [/allow/foo] is accepted although it is
    neither [/all] nor below it: [fs.readFile] returns the file and
    [fs.listDir] lists [/allow]. Writing the allowed path with a
    trailing slash changes nothing, since [resolve] removes it. On
    the deny side the same test rejects [/allow/foo], a file inside
    the allowed [/allow], because [/all] is denied. *)
Theorem isPathAllowed_accepts_textual_prefix :
  Filesystem.validatePath "/srv" "/allow/foo" ["/all"] [] = inr "/allow/foo"
  /\ ~ PathSpec.within "/allow/foo" "/all"
  /\ Filesystem.readFile_handler "/srv" Examples.fs_two_dirs
       (Examples.fs_config ["/all"] []) (JObj [("path", JStr "/allow/foo")])
     = Policy.AfterMs 2
         (Policy.Resolved
            (JObj [("path", JStr "/allow/foo"); ("content", JStr "secret");
                   ("size", JNum 6); ("encoding", JStr "utf-8")]))
  /\ Filesystem.listDir_handler "/srv" Examples.fs_two_dirs
       (Examples.fs_config ["/all"] []) (JObj [("path", JStr "/allow")])
     = Policy.AfterMs 2
         (Policy.Resolved
            (JObj [("path", JStr "/allow");
                   ("entries",
                    JArr [JObj [("name", JStr "foo");
                                ("path", JStr "/allow/foo");
                                ("type", JStr "file"); ("size", JNum 6)]]);
                   ("count", JNum 1)]))
  /\ Filesystem.validatePath "/srv" "/allow/foo" ["/all/"] []
     = inr "/allow/foo"
  /\ (PathSpec.within "/allow/foo" "/allow"
      /\ Filesystem.isPathAllowed "/srv" "/allow/foo" ["/allow"] ["/all"]
         = false).
Proof.
  split; [vm_compute; reflexivity |].
  split.
  { intros [H | [rest H]]; discriminate. }
  split; [vm_compute; reflexivity |].
  split; [vm_compute; reflexivity |].
  split; [vm_compute; reflexivity |].
  split; [| vm_compute; reflexivity].
  right. exists "foo". reflexivity.
Qed.

Module GuardFacts.
Import Policy Config MCP.

Ltac break_match :=
  repeat match goal with
         | |- context [match ?x with _ => _ end] => destruct x eqn:?
         end.

Section WithCwd.

Variable cwd : string.

Lemma isPathAllowed_empty (target : string) (denied : list string) :
  Filesystem.isPathAllowed cwd target [] denied = false.
Proof.
  unfold Filesystem.isPathAllowed. destruct (existsb _ denied); reflexivity.
Qed.

Lemma validatePath_empty (path : string) (denied : list string) :
  exists m, Filesystem.validatePath cwd path [] denied = inl (SecurityError m).
Proof.
  unfold Filesystem.validatePath. rewrite isPathAllowed_empty.
  destruct (includes path ".."); simpl; eauto.
Qed.

(** What the two schemas return is of the shape the handlers take
    apart, and parses to itself. *)
Lemma readFileSchema_parsed (args data : JSValue) :
  Filesystem.readFileSchema args = ParseOk data ->
  (exists p e, data = JObj [("path", JStr p); ("encoding", JStr e)])
  /\ Filesystem.readFileSchema data = ParseOk data.
Proof.
  unfold Filesystem.readFileSchema at 1.
  break_match; try discriminate; intros [= <-]; (split; [eauto |]);
    cbn; try reflexivity.
  unfold string_in, Filesystem.encodings in *. cbn [existsb] in *.
  match goal with H : (_ || _) = true |- _ => rewrite H end.
  reflexivity.
Qed.

Lemma listDirSchema_parsed (args data : JSValue) :
  Filesystem.listDirSchema args = ParseOk data ->
  (exists p r d, data = JObj [("path", JStr p); ("recursive", JBool r);
                              ("maxDepth", JNum d)])
  /\ Filesystem.listDirSchema data = ParseOk data.
Proof.
  unfold Filesystem.listDirSchema at 1.
  destruct args as [| | | | | |props]; try discriminate.
  destruct (get_prop "path" props) as [[| | | |p| |]|]; try discriminate.
  destruct (match get_prop "recursive" props with
            | Some (JBool b) => Some b
            | Some JUndefined | None => Some false
            | _ => None
            end) as [r|]; [| discriminate].
  destruct (match get_prop "maxDepth" props with
            | Some (JNum n) => if (1 <=? n) && (n <=? 10) then Some n else None
            | Some JUndefined | None => Some 3
            | _ => None
            end) as [d|] eqn:Hd; [| discriminate].
  intros [= <-]. split; [eauto |].
  assert (Hrange : (1 <=? d) && (d <=? 10) = true).
  { destruct (get_prop "maxDepth" props) as [[| | |n| | |]|];
      try discriminate; try (injection Hd as <-; reflexivity).
    destruct ((1 <=? n) && (n <=? 10)) eqn:E; [| discriminate].
    injection Hd as <-. exact E. }
  cbn. rewrite Hrange. reflexivity.
Qed.

Lemma readFile_handler_rejects (fsys : Filesystem.FileSystem)
      (cfg : FilesystemConfig) (args data : JSValue) :
  allowed_paths cfg = [] ->
  Filesystem.readFileSchema args = ParseOk data ->
  exists m,
    Filesystem.readFile_handler cwd fsys cfg args
    = Promptly (Rejected (SecurityError m)).
Proof.
  intros Hempty Hparse. unfold Filesystem.readFile_handler.
  destruct (readFileSchema_parsed args data Hparse) as [(p & e & ->) _].
  rewrite Hparse, Hempty.
  destruct (validatePath_empty p (denied_paths cfg)) as [m ->]. eauto.
Qed.

Lemma listDir_handler_rejects (fsys : Filesystem.FileSystem)
      (cfg : FilesystemConfig) (args data : JSValue) :
  allowed_paths cfg = [] ->
  Filesystem.listDirSchema args = ParseOk data ->
  exists m,
    Filesystem.listDir_handler cwd fsys cfg args
    = Promptly (Rejected (SecurityError m)).
Proof.
  intros Hempty Hparse. unfold Filesystem.listDir_handler.
  destruct (listDirSchema_parsed args data Hparse) as [(p & r & d & ->) _].
  rewrite Hparse, Hempty.
  destruct (validatePath_empty p (denied_paths cfg)) as [m ->]. eauto.
Qed.

End WithCwd.

Section WithURL.

Variable URL_parse : string -> option HttpFetch.URL.
Variable perform_fetch :
  HttpFetchConfig -> HttpFetch.URL -> list (string * string) -> Settles.

Lemma host_allowed_empty (h : string) (denied : list string) :
  HttpFetch.host_allowed h [] denied = false.
Proof.
  unfold HttpFetch.host_allowed. destruct (HttpFetch.denied_by h denied);
    reflexivity.
Qed.

Lemma validateUrl_empty (url : string) (cfg : HttpFetchConfig) :
  allowed_domains cfg = [] ->
  exists m, HttpFetch.validateUrl URL_parse url cfg = inl (SecurityError m).
Proof.
  intros Hempty. unfold HttpFetch.validateUrl, HttpFetch.isDomainAllowed.
  destruct (URL_parse url) as [parsed|]; [| eauto].
  destruct (negb (string_in _ _)); [eauto |].
  destruct (string_in _ HttpFetch.blockedHosts); [eauto |].
  destruct (existsb _ HttpFetch.blockedPatterns); [eauto |].
  rewrite Hempty, host_allowed_empty. simpl. eauto.
Qed.

Lemma fetchSchema_parsed (args data : JSValue) :
  HttpFetch.fetchSchema URL_parse args = ParseOk data ->
  (exists u more, data = JObj (("url", JStr u) :: more))
  /\ HttpFetch.fetchSchema URL_parse data = ParseOk data.
Proof.
  unfold HttpFetch.fetchSchema at 1.
  destruct args as [| | | | | |props]; try discriminate.
  destruct (get_prop "url" props) as [[| | | |u| |]|]; try discriminate.
  destruct (negb (bool_decide (is_Some (URL_parse u)))) eqn:Hu;
    [discriminate |].
  destruct (get_prop "headers" props) as [hv|].
  - destruct (HttpFetch.string_record hv) as [hs|] eqn:Hrec.
    + assert (Hshape : exists ps, hv = JObj ps).
      { destruct hv; try discriminate. eauto. }
      destruct Hshape as [ps ->].
      intros [= <-]. split; [eauto |].
      cbv beta iota delta [HttpFetch.fetchSchema get_prop String.eqb
                             Ascii.eqb Bool.eqb].
      rewrite Hu, Hrec. reflexivity.
    + destruct hv; try discriminate.
      intros [= <-]. split; [eauto |].
      cbv beta iota delta [HttpFetch.fetchSchema get_prop String.eqb
                             Ascii.eqb Bool.eqb].
      rewrite Hu. reflexivity.
  - intros [= <-]. split; [eauto |].
    cbv beta iota delta [HttpFetch.fetchSchema get_prop String.eqb
                           Ascii.eqb Bool.eqb].
    rewrite Hu. reflexivity.
Qed.

Lemma fetch_handler_rejects (cfg : HttpFetchConfig) (args data : JSValue) :
  allowed_domains cfg = [] ->
  HttpFetch.fetchSchema URL_parse args = ParseOk data ->
  exists m,
    HttpFetch.fetch_handler URL_parse perform_fetch cfg args
    = Promptly (Rejected (SecurityError m)).
Proof.
  intros Hempty Hparse. unfold HttpFetch.fetch_handler.
  destruct (fetchSchema_parsed args data Hparse) as [(u & more & ->) _].
  rewrite Hparse.
  destruct (validateUrl_empty u cfg Hempty) as [m ->]. eauto.
Qed.

End WithURL.

(** A handler that rejects at once decides the call, whatever the
    deadline. *)
Lemma invoke_prompt_rejection
      (RegExp_valid : string -> bool)
      (RegExp_test : string -> string -> bool)
      (gw : MCPGateway) (clk : Clock) (toolName : string)
      (tool : ToolDefinition) (raw data : JSValue)
      (eff : EffectivePolicy) (e : Thrown) :
  Map_get (tools gw) toolName = Some tool ->
  validateArgs tool raw = inr data ->
  enforce RegExp_valid RegExp_test (gw_policy gw) toolName raw = inr eff ->
  handler tool data = Promptly (Rejected e) ->
  fst (invokeTool RegExp_valid RegExp_test gw clk toolName raw)
  = failure (errorToCode e) (error_message e) (uuid clk).
Proof.
  intros Hget Hval Henf Hh. unfold invokeTool.
  rewrite Hget, Hval, Henf, Hh. reflexivity.
Qed.

Lemma validateArgs_ok (tool : ToolDefinition) (raw data : JSValue) :
  validateArgs tool raw = inr data -> inputSchema tool raw = ParseOk data.
Proof.
  unfold validateArgs. destruct (inputSchema tool raw); congruence.
Qed.

End GuardFacts.

(** C8. With an empty [allowed_paths], every call of [fs.readFile]
    and [fs.listDir] whose arguments the schema accepts is rejected
    by the connector with a SecurityError, whatever the path; with an
    empty [allowed_domains] the same holds for [web.fetch], whatever
    the URL. Through the gateway, every invocation of these tools
    that passes validation and policy returns SECURITY_ERROR. *)
Theorem empty_allowlists_reject_every_call
        (cwd : string) (fsys : Filesystem.FileSystem)
        (fcfg : Config.FilesystemConfig)
        (URL_parse : string -> option HttpFetch.URL)
        (perform_fetch :
           Config.HttpFetchConfig -> HttpFetch.URL ->
           list (string * string) -> Policy.Settles)
        (hcfg : Config.HttpFetchConfig) :
  Config.allowed_paths fcfg = [] ->
  Config.allowed_domains hcfg = [] ->
  (forall args data,
      Filesystem.readFileSchema args = MCP.ParseOk data ->
      exists m,
        Filesystem.readFile_handler cwd fsys fcfg args
        = Policy.Promptly (Policy.Rejected (SecurityError m)))
  /\ (forall args data,
         Filesystem.listDirSchema args = MCP.ParseOk data ->
         exists m,
           Filesystem.listDir_handler cwd fsys fcfg args
           = Policy.Promptly (Policy.Rejected (SecurityError m)))
  /\ (forall args data,
         HttpFetch.fetchSchema URL_parse args = MCP.ParseOk data ->
         exists m,
           HttpFetch.fetch_handler URL_parse perform_fetch hcfg args
           = Policy.Promptly (Policy.Rejected (SecurityError m)))
  /\ (forall RegExp_valid RegExp_test gw clk tool raw data eff,
         In tool (Filesystem.createFilesystemTools cwd fsys fcfg
                  ++ HttpFetch.createHttpFetchTools URL_parse perform_fetch
                                                    hcfg) ->
         MCP.Map_get (MCP.tools gw) (MCP.name tool) = Some tool ->
         MCP.validateArgs tool raw = inr data ->
         Policy.enforce RegExp_valid RegExp_test (MCP.gw_policy gw)
                        (MCP.name tool) raw = inr eff ->
         exists m,
           fst (MCP.invokeTool RegExp_valid RegExp_test gw clk
                               (MCP.name tool) raw)
           = MCP.failure "SECURITY_ERROR" m (MCP.uuid clk)).
Proof.
  intros Hpaths Hdomains.
  split; [| split; [| split]].
  - intros args data. now apply GuardFacts.readFile_handler_rejects.
  - intros args data. now apply GuardFacts.listDir_handler_rejects.
  - intros args data. now apply GuardFacts.fetch_handler_rejects.
  - intros RV RT gw clk tool raw data eff Hin Hget Hval Henf.
    apply GuardFacts.validateArgs_ok in Hval as Hparse.
    assert (Hrej : exists m,
               MCP.handler tool data
               = Policy.Promptly (Policy.Rejected (SecurityError m))).
    { apply in_app_or in Hin as [Hin | Hin].
      - unfold Filesystem.createFilesystemTools in Hin.
        destruct (negb (Config.fs_enabled fcfg)); [destruct Hin |].
        destruct Hin as [<- | [<- | []]]; cbn [MCP.handler MCP.inputSchema] in *.
        + destruct (GuardFacts.readFileSchema_parsed raw data Hparse)
            as [_ Hself].
          now apply (GuardFacts.readFile_handler_rejects cwd fsys fcfg
                       data data).
        + destruct (GuardFacts.listDirSchema_parsed raw data Hparse)
            as [_ Hself].
          now apply (GuardFacts.listDir_handler_rejects cwd fsys fcfg
                       data data).
      - unfold HttpFetch.createHttpFetchTools in Hin.
        destruct (negb (Config.http_enabled hcfg)); [destruct Hin |].
        destruct Hin as [<- | []]; cbn [MCP.handler MCP.inputSchema] in *.
        destruct (GuardFacts.fetchSchema_parsed URL_parse raw data Hparse)
          as [_ Hself].
        now apply (GuardFacts.fetch_handler_rejects URL_parse perform_fetch
                     hcfg data data). }
    destruct Hrej as [m Hrej]. exists m.
    now rewrite (GuardFacts.invoke_prompt_rejection RV RT gw clk
                   (MCP.name tool) tool raw data eff (SecurityError m)
                   Hget Hval Henf Hrej).
Qed.

(** The connectors of the examples with both lists empty, behind a
    policy that allows every tool: reading [/allow/foo] is refused. *)
Lemma empty_allowlists_reject_every_call_witness :
  exists m,
    fst (MCP.invokeTool Examples.word_pattern_valid Examples.word_pattern_test
           (Examples.gateway_with Examples.audit_on
              Examples.policy_default_allow
              (Filesystem.createFilesystemTools "/srv" Examples.fs_two_dirs
                 (Examples.fs_config [] [])))
           Examples.clock0 "fs.readFile" (JObj [("path", JStr "/allow/foo")]))
    = MCP.failure "SECURITY_ERROR" m (MCP.uuid Examples.clock0).
Proof.
  destruct (empty_allowlists_reject_every_call
              "/srv" Examples.fs_two_dirs (Examples.fs_config [] [])
              HttpFetch.simple_URL_parse Examples.fetch_empty_page
              (Examples.http_config [] []) eq_refl eq_refl)
    as (_ & _ & _ & Hgw).
  apply (Hgw Examples.word_pattern_valid Examples.word_pattern_test
             (Examples.gateway_with Examples.audit_on
                Examples.policy_default_allow
                (Filesystem.createFilesystemTools "/srv" Examples.fs_two_dirs
                   (Examples.fs_config [] [])))
             Examples.clock0
             {| MCP.name := "fs.readFile";
                MCP.description :=
                  "Read the contents of a file. Only works for files in allowed paths.";
                MCP.inputSchema := Filesystem.readFileSchema;
                MCP.handler :=
                  Filesystem.readFile_handler "/srv" Examples.fs_two_dirs
                    (Examples.fs_config [] []) |}
             (JObj [("path", JStr "/allow/foo")])
             (JObj [("path", JStr "/allow/foo"); ("encoding", JStr "utf-8")])
             (Policy.getEffectivePolicy Examples.policy_default_allow
                                        "fs.readFile")).
  - left. reflexivity.
  - reflexivity.
  - reflexivity.
  - reflexivity.
Defined.

Module DomainFacts.
Import JSStringFacts.

Lemma domain_matches_iff (h entry : string) :
  HttpFetch.domain_matches h entry = true
  <-> h = entry \/ exists sub, h = sub +:+ "." +:+ entry.
Proof.
  unfold HttpFetch.domain_matches. rewrite orb_true_iff.
  rewrite String.eqb_eq, endsWith_iff. reflexivity.
Qed.

Lemma toLowerCase_wildcard (foo : string) :
  toLowerCase ("*." +:+ foo) = "*." +:+ toLowerCase foo.
Proof. reflexivity. Qed.

(** A hostname without an asterisk matches no wildcard entry taken
    literally. *)
Lemma starless_host_no_literal_match (h foo : string) :
  has_char "*" h = false ->
  HttpFetch.domain_matches h (toLowerCase ("*." +:+ foo)) = false.
Proof.
  intros Hstar.
  destruct (HttpFetch.domain_matches h _) eqn:E; [| reflexivity].
  apply domain_matches_iff in E. rewrite toLowerCase_wildcard in E.
  destruct E as [-> | [sub ->]].
  - cbn in Hstar. discriminate.
  - rewrite has_char_app in Hstar. cbn in Hstar.
    rewrite orb_true_r in Hstar. discriminate.
Qed.

Lemma wildcard_entry_allows (h foo : string) :
  h = toLowerCase foo \/ (exists sub, h = sub +:+ "." +:+ toLowerCase foo) ->
  HttpFetch.allowed_by_entry h ("*." +:+ foo) = true.
Proof.
  intros Hm. unfold HttpFetch.allowed_by_entry.
  rewrite toLowerCase_wildcard.
  change (startsWith ("*." +:+ toLowerCase foo) "*.") with true.
  change (slice 2 ("*." +:+ toLowerCase foo)) with (toLowerCase foo).
  apply domain_matches_iff in Hm. rewrite Hm. apply orb_true_r.
Qed.

End DomainFacts.

(** C10, as the code has it. An [allowed_domains] entry [*.foo]
    admits [foo] and every subdomain of it, unless a denied entry
    matches. A [denied_domains] entry [*.foo] is compared as it is
    written: it matches exactly the hostnames that are [*.foo] or end
    in [.*.foo], asterisk included, and so has no effect on a
    hostname without an asterisk. *)
Theorem wildcard_entries_honored_on_allow_side
        (URL_parse : string -> option HttpFetch.URL)
        (url : string) (parsed : HttpFetch.URL) (foo : string) :
  URL_parse url = Some parsed ->
  (forall allowed denied,
      In ("*." +:+ foo) allowed ->
      HttpFetch.denied_by (toLowerCase (HttpFetch.hostname parsed)) denied
      = false ->
      toLowerCase (HttpFetch.hostname parsed) = toLowerCase foo
      \/ (exists sub,
             toLowerCase (HttpFetch.hostname parsed)
             = sub +:+ "." +:+ toLowerCase foo) ->
      HttpFetch.isDomainAllowed URL_parse url allowed denied = true)
  /\ (HttpFetch.denied_by (toLowerCase (HttpFetch.hostname parsed))
                          ["*." +:+ foo] = true
      <-> toLowerCase (HttpFetch.hostname parsed) = "*." +:+ toLowerCase foo
          \/ exists sub,
              toLowerCase (HttpFetch.hostname parsed)
              = sub +:+ ".*." +:+ toLowerCase foo)
  /\ (has_char "*" (toLowerCase (HttpFetch.hostname parsed))
      = false ->
      forall allowed denied,
        HttpFetch.isDomainAllowed URL_parse url allowed
                                  (("*." +:+ foo) :: denied)
        = HttpFetch.isDomainAllowed URL_parse url allowed denied).
Proof.
  intros Hparse. split; [| split].
  - intros allowed denied Hin Hden Hm.
    unfold HttpFetch.isDomainAllowed, HttpFetch.host_allowed.
    rewrite Hparse, Hden.
    destruct allowed as [|a allowed]; [destruct Hin |].
    cbn [length Nat.eqb]. apply existsb_exists.
    exists ("*." +:+ foo). split; [exact Hin |].
    now apply DomainFacts.wildcard_entry_allows.
  - unfold HttpFetch.denied_by. cbn [existsb]. rewrite orb_false_r.
    rewrite DomainFacts.domain_matches_iff, DomainFacts.toLowerCase_wildcard.
    split; (intros [H | [sub H]]; [left; exact H | right; exists sub]);
      rewrite H; reflexivity.
  - intros Hstar allowed denied.
    unfold HttpFetch.isDomainAllowed, HttpFetch.host_allowed.
    rewrite Hparse. unfold HttpFetch.denied_by. cbn [existsb].
    now rewrite (DomainFacts.starless_host_no_literal_match _ foo Hstar).
Qed.

(** [api.example.com] under the allowed entry [*.example.com]: the
    same entry on the deny side changes nothing. *)
Lemma wildcard_entries_honored_on_allow_side_witness :
  HttpFetch.isDomainAllowed HttpFetch.simple_URL_parse
    "https://api.example.com/v1" ["*.example.com"] ["*.example.com"]
  = HttpFetch.isDomainAllowed HttpFetch.simple_URL_parse
      "https://api.example.com/v1" ["*.example.com"] [].
Proof.
  apply (proj2 (proj2
           (wildcard_entries_honored_on_allow_side
              HttpFetch.simple_URL_parse "https://api.example.com/v1"
              {| HttpFetch.protocol := "https:";
                 HttpFetch.hostname := "api.example.com";
                 HttpFetch.href := "https://api.example.com/v1" |}
              "example.com" eq_refl))).
  reflexivity.
Defined.

(** C10 as stated fails: the denied entry [*.foo.com] does match a
    hostname, the one spelled [*.foo.com] (and those that end in
    [.*.foo.com]); a URL with that host is admitted by the allowed
    wildcard entry alone and refused once the denied entry is
    added. *)
Lemma wildcard_deny_entry_matches_literal_host :
  option_map HttpFetch.hostname
             (HttpFetch.simple_URL_parse "http://*.foo.com/x")
  = Some "*.foo.com"
  /\ HttpFetch.isDomainAllowed HttpFetch.simple_URL_parse
       "http://*.foo.com/x" ["*.foo.com"] [] = true
  /\ HttpFetch.isDomainAllowed HttpFetch.simple_URL_parse
       "http://*.foo.com/x" ["*.foo.com"] ["*.foo.com"] = false
  /\ HttpFetch.denied_by "*.foo.com" ["*.foo.com"] = true
  /\ HttpFetch.denied_by "a.*.foo.com" ["*.foo.com"] = true.
Proof. vm_compute. repeat split. Qed.

(** ** Read-only SQL verifier *)

Module SqlFacts.
Import JSStringFacts Postgres SqlSpec.

Lemma startsWith_ci_app (kw post : string) :
  startsWith_ci (kw +:+ post) kw = true.
Proof.
  induction kw as [|c kw IH]; simpl; [reflexivity |].
  rewrite char_eqb_refl. exact IH.
Qed.

Lemma slice_length_app (kw post : string) :
  slice (String.length kw) (kw +:+ post) = post.
Proof. induction kw as [|c kw IH]; simpl; [reflexivity | exact IH]. Qed.

(** The scan finds every occurrence that has no word character on
    either side. *)
Lemma keyword_test_go_complete (kw post pre : string) :
  forall prev_word,
    word_before prev_word pre = false ->
    word_follows post = false ->
    keyword_test_go prev_word kw (pre +:+ kw +:+ post) = true.
Proof.
  induction pre as [|c pre IH]; intros prev_word Hb Hf.
  - simpl in Hb. subst prev_word.
    change (EmptyString +:+ kw +:+ post) with (kw +:+ post).
    assert (Hhere : keyword_here false kw (kw +:+ post) = true).
    { unfold keyword_here.
      rewrite startsWith_ci_app, slice_length_app, Hf. reflexivity. }
    destruct (kw +:+ post); cbn [keyword_test_go]; rewrite Hhere; reflexivity.
  - change (String c pre +:+ kw +:+ post)
      with (String c (pre +:+ kw +:+ post)).
    cbn [keyword_test_go]. rewrite (IH (is_word c)).
    + apply orb_true_r.
    + destruct pre as [|c' pre']; [exact Hb |]. exact Hb.
    + exact Hf.
Qed.

Lemma keyword_test_complete (kw s : string) :
  whole_word kw s -> keyword_test kw s = true.
Proof.
  intros (pre & post & -> & Hb & Hf). unfold keyword_test.
  apply keyword_test_go_complete; [| exact Hf].
  destruct pre; [reflexivity | exact Hb].
Qed.

Lemma has_ws_app (a b : string) : has_ws (a +:+ b) = has_ws a || has_ws b.
Proof.
  induction a as [|c a IH]; simpl; [reflexivity |].
  rewrite IH. apply orb_assoc.
Qed.

Lemma statements_without_semicolon (s : string) :
  includes s ";" = false -> (length (statements s) <= 1)%nat.
Proof.
  intros H. change ";" with (str1 ";"%char) in H.
  rewrite includes_char in H.
  unfold statements, split_char.
  rewrite (split_char_go_absent _ _ _ H). cbn [List.filter].
  destruct (nonblank _); simpl; lia.
Qed.

Lemma first_token_of_split (s : string) :
  first_token (hd EmptyString (split_ws s)) s.
Proof.
  destruct (split_ws_head s) as (rest & Hs & Hw & Hr).
  exists rest. split; [exact Hs |]. split; [| exact Hr].
  intros a b c E. rewrite E, has_ws_app in Hw. simpl in Hw.
  apply orb_false_elim in Hw as [_ Hw].
  now apply orb_false_elim in Hw as [Hw _].
Qed.

End SqlFacts.

(** What acceptance guarantees. The checks run on the normalized
    text (comments stripped, whitespace collapsed, trimmed,
    upper-cased), not on the string as submitted. For every accepted
    string, its normalized text has at most one piece between
    semicolons that is not blank, contains no blocklisted keyword as a
    whole word, and begins with the token SELECT, WITH or EXPLAIN. *)
Theorem accepted_query_normalized_properties (sql : string) :
  Postgres.validateReadOnlyQuery sql = inr tt ->
  (length (SqlSpec.statements (Postgres.normalizeSql sql)) <= 1)%nat
  /\ (forall keyword,
         In keyword Postgres.BLOCKED_KEYWORDS ->
         ~ SqlSpec.whole_word keyword (Postgres.normalizeSql sql))
  /\ (exists tok,
         In tok Postgres.allowedStarts
         /\ SqlSpec.first_token tok (Postgres.normalizeSql sql)).
Proof.
  unfold Postgres.validateReadOnlyQuery.
  set (n := Postgres.normalizeSql sql).
  destruct (includes n ";"
            && Nat.ltb 1 (length (List.filter Postgres.nonblank
                                              (split_char ";" n)))) eqn:Hsemi;
    [discriminate |].
  destruct (List.find (fun keyword => Postgres.keyword_test keyword n)
                      Postgres.BLOCKED_KEYWORDS) as [kw|] eqn:Hkw;
    [discriminate |].
  destruct (negb (string_in (hd EmptyString (split_ws n))
                            Postgres.allowedStarts)) eqn:Hstart;
    [discriminate |].
  intros _. split; [| split].
  - apply andb_false_iff in Hsemi as [Hs | Hs].
    + now apply SqlFacts.statements_without_semicolon.
    + apply Nat.ltb_ge in Hs. exact Hs.
  - intros keyword Hin Hword.
    pose proof (List.find_none _ _ Hkw keyword Hin) as Hnone.
    cbn beta in Hnone.
    rewrite (SqlFacts.keyword_test_complete keyword n Hword) in Hnone.
    discriminate.
  - exists (hd EmptyString (split_ws n)). split.
    + apply JSStringFacts.string_in_In.
      now apply negb_false_iff in Hstart.
    + apply SqlFacts.first_token_of_split.
Qed.

(** A parameterized lookup with a trailing semicolon. *)
Lemma accepted_query_normalized_properties_witness :
  (length (SqlSpec.statements
             (Postgres.normalizeSql "select name from users where id = $1;"))
   <= 1)%nat
  /\ (forall keyword,
         In keyword Postgres.BLOCKED_KEYWORDS ->
         ~ SqlSpec.whole_word keyword
             (Postgres.normalizeSql "select name from users where id = $1;"))
  /\ (exists tok,
         In tok Postgres.allowedStarts
         /\ SqlSpec.first_token tok
              (Postgres.normalizeSql "select name from users where id = $1;")).
Proof.
  apply (accepted_query_normalized_properties
           "select name from users where id = $1;").
  vm_compute. reflexivity.
Defined.

(** The same does not hold of the accepted string itself. A query
    with a line comment is accepted, yet it splits on semicolons into
    two non-empty pieces and contains DROP as a whole word; a
    lower-case query is accepted, yet its first token is not one of
    the three upper-case words; and a quoted double hyphen makes the
    verifier drop the rest of a line that holds a second statement. *)
Lemma accepted_string_breaks_stated_properties :
  (Postgres.validateReadOnlyQuery "SELECT 1 -- ; DROP TABLE users" = inr tt
   /\ length (List.filter (fun p => negb (String.eqb p EmptyString))
                          (split_char ";" "SELECT 1 -- ; DROP TABLE users"))
      = 2%nat
   /\ length (SqlSpec.statements "SELECT 1 -- ; DROP TABLE users") = 2%nat
   /\ SqlSpec.whole_word "DROP" "SELECT 1 -- ; DROP TABLE users")
  /\ (Postgres.validateReadOnlyQuery "select 1" = inr tt
      /\ hd EmptyString (split_ws "select 1") = "select"
      /\ ~ In "select" Postgres.allowedStarts)
  /\ (Postgres.validateReadOnlyQuery "SELECT '--'; DROP TABLE users; --'"
      = inr tt
      /\ length (SqlSpec.statements "SELECT '--'; DROP TABLE users; --'")
         = 3%nat).
Proof.
  split; [| split].
  - split; [vm_compute; reflexivity |].
    split; [vm_compute; reflexivity |].
    split; [vm_compute; reflexivity |].
    exists "SELECT 1 -- ; ", " TABLE users". repeat split.
  - split; [vm_compute; reflexivity |].
    split; [vm_compute; reflexivity |].
    intros H. repeat (destruct H as [H | H]; [discriminate |]). exact H.
  - split; vm_compute; reflexivity.
Qed.

(** C7. The verifier accepts a text that chains a second statement.
    In [SELECT '--'; DROP TABLE users; --'] the double hyphen stands
    inside a string literal, but the comment stripping does not know
    literals and drops the rest of the line: the checks run on
    [SELECT '] alone and pass, while the text as submitted splits on
    semicolons into three pieces that are not blank and holds DROP as
    a whole word. [db.query] then sends the text as submitted, not
    the normalized one: on every database that hands out a client
    and accepts the timeout statement, the outcome of the handler is
    the database's answer to the whole text. *)
Theorem verifier_accepts_chained_statement :
  Postgres.normalizeSql "SELECT '--'; DROP TABLE users; --'" = "SELECT '"
  /\ Postgres.validateReadOnlyQuery "SELECT '--'; DROP TABLE users; --'"
     = inr tt
  /\ SqlSpec.statements "SELECT '--'; DROP TABLE users; --'"
     = ["SELECT '--'"; " DROP TABLE users"; " --'"]
  /\ SqlSpec.whole_word "DROP" "SELECT '--'; DROP TABLE users; --'"
  /\ (forall db cfg r0,
         PostgresConnector.connect db = inr tt ->
         PostgresConnector.query
           db (PostgresConnector.set_statement_timeout cfg) [] = inr r0 ->
         PostgresConnector.query_handler db cfg
           (JObj [("sql", JStr "SELECT '--'; DROP TABLE users; --'")])
         = Policy.AfterMs (PostgresConnector.db_ms db)
             match PostgresConnector.query
                     db "SELECT '--'; DROP TABLE users; --'" [] with
             | inr result =>
                 Policy.Resolved (PostgresConnector.query_result cfg result)
             | inl e =>
                 if bool_decide (PostgresConnector.pg_code e = Some "57014")
                 then Policy.Rejected
                        (TimeoutError "db.query"
                           (PostgresConnector.query_timeout_ms cfg))
                 else Policy.Rejected
                        (ConnectorError "postgres"
                           ("Query failed: "
                            +:+ PostgresConnector.message_or_unknown e))
             end)
  /\ PostgresConnector.query_handler
       ConnectorExamples.db_reporting (ConnectorExamples.pg_config 100)
       (JObj [("sql", JStr "SELECT '--'; DROP TABLE users; --'")])
     = Policy.AfterMs 4
         (Policy.Resolved
            (JObj [("rows",
                    JArr [JObj [("statement",
                                 JStr "SELECT '--'; DROP TABLE users; --'")]]);
                   ("rowCount", JNum 1);
                   ("fields", JArr []);
                   ("truncated", JBool false);
                   ("maxRows", JNum 100)])).
Proof.
  split; [vm_compute; reflexivity |].
  split; [vm_compute; reflexivity |].
  split; [vm_compute; reflexivity |].
  split; [exists "SELECT '--'; ", " TABLE users; --'"; repeat split |].
  split; [| vm_compute; reflexivity].
  intros db cfg r0 Hc Hset.
  unfold PostgresConnector.query_handler.
  change (PostgresConnector.querySchema
            (JObj [("sql", JStr "SELECT '--'; DROP TABLE users; --'")]))
    with (MCP.ParseOk
            (JObj [("sql", JStr "SELECT '--'; DROP TABLE users; --'")])).
  cbv beta iota.
  replace (Postgres.validateReadOnlyQuery
             "SELECT '--'; DROP TABLE users; --'")
    with (@inr Thrown unit tt) by (vm_compute; reflexivity).
  rewrite Hc, Hset.
  destruct (PostgresConnector.query
              db "SELECT '--'; DROP TABLE users; --'" []) as [e|result];
    reflexivity.
Qed.

(** * Further properties of the code *)

(** ** Policy engine *)

Module PolicyMore.
Import Policy.

Section WithRegExp.
Variable RegExp_valid : string -> bool.
Variable RegExp_test : string -> string -> bool.

Lemma checkPolicy_effective (cfg : PolicyConfig) (tool : string)
      (args : JSValue) (d : PolicyDecision) :
  checkPolicy RegExp_valid RegExp_test cfg tool args = inr d ->
  effectivePolicy d = getEffectivePolicy cfg tool.
Proof.
  unfold checkPolicy, check_global_lists, decision.
  repeat match goal with
         | |- context [if ?b then _ else _] => destruct b
         | |- context [match ?x with _ => _ end] => destruct x
         end; intros [= <-]; reflexivity.
Qed.

Lemma enforce_effective (cfg : PolicyConfig) (tool : string)
      (args : JSValue) (eff : EffectivePolicy) :
  enforce RegExp_valid RegExp_test cfg tool args = inr eff ->
  eff = getEffectivePolicy cfg tool.
Proof.
  unfold enforce.
  destruct (checkPolicy _ _ cfg tool args) as [e|d] eqn:E; [discriminate |].
  destruct (negb (allowed d)); [discriminate |].
  intros [= <-]. eapply checkPolicy_effective, E.
Qed.

(** A verdict produced inside the loop is a refusal. *)
Lemma check_entry_verdict (al : gmap string JSValue) (k : string)
      (v : JSValue) (c : ArgCheck) :
  check_entry RegExp_valid RegExp_test al k v = inr (Some c) ->
  ac_allowed c = false.
Proof.
  unfold check_entry, must_equal, deny_arg.
  repeat match goal with
         | |- context [if ?b then _ else _] => destruct b
         | |- context [match ?x with _ => _ end] => destruct x
         end; intros [= <-]; reflexivity.
Qed.

Lemma loop_allowed_iff (ps : list (string * JSValue))
      (al : gmap string JSValue) :
  (exists c, checkArgAllowlist_loop RegExp_valid RegExp_test ps al = inr c
             /\ ac_allowed c = true)
  <-> Forall (fun kv => check_entry RegExp_valid RegExp_test al
                                    (fst kv) (snd kv) = inr None) ps.
Proof.
  induction ps as [|[k v] ps IH]; simpl.
  - split; [constructor | eauto].
  - destruct (check_entry _ _ al k v) as [e|[c|]] eqn:E.
    + split; [intros (c & H & _); discriminate |].
      intros H. inversion H; subst. simpl in *. congruence.
    + split.
      * intros (c' & [= <-] & Hc). apply check_entry_verdict in E. congruence.
      * intros H. inversion H; subst. simpl in *. congruence.
    + rewrite IH. split; [intros H; constructor; [exact E | exact H] |].
      intros H. now inversion H.
Qed.

Lemma loop_allowed_value (ps : list (string * JSValue))
      (al : gmap string JSValue) (c : ArgCheck) :
  checkArgAllowlist_loop RegExp_valid RegExp_test ps al = inr c ->
  ac_allowed c = true ->
  c = {| ac_allowed := true; ac_reason := "Arguments match allowlist" |}.
Proof.
  induction ps as [|[k v] ps IH]; simpl.
  - intros [= <-]. reflexivity.
  - destruct (check_entry _ _ al k v) as [e|[c'|]] eqn:E; [discriminate | |].
    + intros [= <-] Hc. apply check_entry_verdict in E. congruence.
    + exact IH.
Qed.

End WithRegExp.

(** An array or an object is strictly equal to nothing the
    configuration holds. *)
Lemma includes_value_structured (xs : list JSValue) (v : JSValue) :
  (exists ys, v = JArr ys) \/ (exists qs, v = JObj qs) ->
  includes_value xs v = false.
Proof.
  intros Hv. unfold includes_value.
  induction xs as [|x xs IH]; [reflexivity |].
  simpl. rewrite IH.
  destruct Hv as [[ys ->] | [qs ->]]; destruct x; reflexivity.
Qed.

End PolicyMore.

(** X1. [createDefaultPolicy] denies every tool: [enforce] throws
    the denial whatever the tool name and the arguments (names that
    [Object.prototype] defines included), and a gateway under that
    policy answers every call with a failure coded TOOL_NOT_FOUND,
    VALIDATION_ERROR or POLICY_DENIED, whatever tools it holds. *)
Theorem default_policy_denies_every_call
        (RegExp_valid : string -> bool)
        (RegExp_test : string -> string -> bool)
        (ts : list (string * MCP.ToolDefinition)) (lg : Audit.AuditLogger)
        (clk : MCP.Clock) (toolName : string) (args : JSValue) :
  Policy.enforce RegExp_valid RegExp_test Policy.createDefaultPolicy
                 toolName args
  = inl (PolicyDeniedError toolName
           ("Tool " +:+ dq +:+ toolName +:+ dq
            +:+ " not in allow_tools and default_deny is enabled"))
  /\ exists te,
      fst (MCP.invokeTool RegExp_valid RegExp_test
             {| MCP.tools := ts;
                MCP.gw_policy := Policy.createDefaultPolicy;
                MCP.gw_audit := lg |} clk toolName args)
      = {| MCP.success := false; MCP.result := None;
           MCP.error := Some te; MCP.tr_requestId := MCP.uuid clk |}
      /\ In (MCP.code te)
            ["TOOL_NOT_FOUND"; "VALIDATION_ERROR"; "POLICY_DENIED"].
Proof.
  assert (He : Policy.enforce RegExp_valid RegExp_test
                 Policy.createDefaultPolicy toolName args
               = inl (PolicyDeniedError toolName
                        ("Tool " +:+ dq +:+ toolName +:+ dq
                         +:+ " not in allow_tools and default_deny is enabled"))).
  { unfold Policy.enforce, Policy.checkPolicy, Policy.lookup_tool_policy,
      Policy.check_global_lists, Policy.createDefaultPolicy.
    cbn [Policy.deny_tools Policy.per_tool Policy.allow_tools
         Policy.default_deny string_in existsb].
    rewrite lookup_empty.
    match goal with
    | |- context [if ?b then Some _ else None] => destruct b
    end; reflexivity. }
  split; [exact He |].
  unfold MCP.invokeTool. cbn [MCP.tools MCP.gw_policy MCP.gw_audit].
  destruct (MCP.Map_get ts toolName) as [tool|].
  - destruct (MCP.validateArgs tool args) as [verr|data].
    + eexists. split; [reflexivity |]. simpl. auto.
    + rewrite He. unfold MCP.invoke_catch. cbn [fst].
      eexists. split; [reflexivity |]. simpl. auto.
  - eexists. split; [reflexivity |]. simpl. auto.
Qed.

(** X2. [checkArgAllowlist] constrains the arguments that are
    present and requires none: when an argument object passes the
    allowlist, so does every object obtained by leaving some of its
    properties out. *)
Theorem arg_allowlist_closed_under_removal
        (RegExp_valid : string -> bool)
        (RegExp_test : string -> string -> bool)
        (al : gmap string JSValue)
        (ps ps' : list (string * JSValue)) (c : Policy.ArgCheck) :
  sublist ps' ps ->
  Policy.checkArgAllowlist RegExp_valid RegExp_test (JObj ps) al = inr c ->
  Policy.ac_allowed c = true ->
  Policy.checkArgAllowlist RegExp_valid RegExp_test (JObj ps') al
  = inr {| Policy.ac_allowed := true;
           Policy.ac_reason := "Arguments match allowlist" |}.
Proof.
  unfold Policy.checkArgAllowlist. cbn [entries].
  intros Hsub Hc Ha.
  assert (Hall : Forall (fun kv => Policy.check_entry RegExp_valid RegExp_test
                                     al (fst kv) (snd kv) = inr None) ps).
  { apply PolicyMore.loop_allowed_iff. eauto. }
  assert (Hall' : Forall (fun kv => Policy.check_entry RegExp_valid RegExp_test
                                      al (fst kv) (snd kv) = inr None) ps').
  { rewrite Forall_forall in *. intros kv Hin. apply Hall.
    eapply elem_of_sublist; eauto. }
  apply PolicyMore.loop_allowed_iff in Hall' as (c' & Hc' & Ha').
  rewrite Hc'. f_equal. eapply PolicyMore.loop_allowed_value; eauto.
Qed.

(** [message] and [uppercase] pass; [message] alone passes too. *)
Lemma arg_allowlist_closed_under_removal_witness :
  Policy.checkArgAllowlist Examples.word_pattern_valid Examples.word_pattern_test
    (JObj [("message", JStr "hi")])
    {[ "message" := JBool true; "uppercase" := JArr [JBool false] ]}
  = inr {| Policy.ac_allowed := true;
           Policy.ac_reason := "Arguments match allowlist" |}.
Proof.
  apply (arg_allowlist_closed_under_removal
           Examples.word_pattern_valid Examples.word_pattern_test
           {[ "message" := JBool true; "uppercase" := JArr [JBool false] ]}
           [("message", JStr "hi"); ("uppercase", JBool false)]
           [("message", JStr "hi")]
           {| Policy.ac_allowed := true;
              Policy.ac_reason := "Arguments match allowlist" |}).
  - apply sublist_skip, sublist_cons, sublist_nil.
  - vm_compute. reflexivity.
  - reflexivity.
Defined.

(** X3. An argument whose value is an array or an object passes
    [checkArgAllowlist] only under the allowlist value [true]: the
    list, the exact-value and the regex forms compare with [===],
    [includes] and [typeof], which no array or object satisfies. With
    any other allowlist value for its key, the call is refused (or
    the pattern fails to compile). *)
Theorem structured_argument_needs_true
        (RegExp_valid : string -> bool)
        (RegExp_test : string -> string -> bool)
        (al : gmap string JSValue) (ps : list (string * JSValue))
        (k : string) (v av : JSValue) :
  In (k, v) ps ->
  (exists xs, v = JArr xs) \/ (exists qs, v = JObj qs) ->
  al !! k = Some av ->
  av <> JBool true ->
  match Policy.checkArgAllowlist RegExp_valid RegExp_test (JObj ps) al with
  | inr c => Policy.ac_allowed c = false
  | inl _ => True
  end.
Proof.
  intros Hin Hv Hal Hav.
  destruct (Policy.checkArgAllowlist RegExp_valid RegExp_test (JObj ps) al)
    as [e|c] eqn:E; [exact I |].
  destruct (Policy.ac_allowed c) eqn:Ha; [| reflexivity]. exfalso.
  assert (Hall : Forall (fun kv => Policy.check_entry RegExp_valid RegExp_test
                                     al (fst kv) (snd kv) = inr None) ps).
  { apply PolicyMore.loop_allowed_iff. eauto. }
  rewrite Forall_forall in Hall.
  apply list_elem_of_In in Hin. specialize (Hall _ Hin). cbn [fst snd] in Hall.
  unfold Policy.check_entry, Policy.must_equal, Policy.deny_arg in Hall.
  rewrite Hal in Hall.
  destruct av as [| |[|]| |s| |]; try congruence.
  - destruct Hv as [[xs ->] | [qs ->]]; discriminate.
  - destruct Hv as [[xs ->] | [qs ->]]; discriminate.
  - destruct Hv as [[xs ->] | [qs ->]]; discriminate.
  - destruct Hv as [[xs ->] | [qs ->]]; discriminate.
  - destruct (startsWith s "regex:").
    + destruct (negb (RegExp_valid _)); [discriminate |].
      destruct Hv as [[xs ->] | [qs ->]]; discriminate.
    + destruct Hv as [[xs ->] | [qs ->]]; discriminate.
  - rewrite (PolicyMore.includes_value_structured xs v Hv) in Hall.
    discriminate.
  - destruct Hv as [[xs ->] | [qs ->]]; discriminate.
Qed.

(** The argument [["a"]] under the allowed list [["a"]]: refused. *)
Lemma structured_argument_needs_true_witness :
  match Policy.checkArgAllowlist Examples.word_pattern_valid
          Examples.word_pattern_test
          (JObj [("tags", JArr [JStr "a"])])
          {[ "tags" := JArr [JStr "a"] ]} with
  | inr c => Policy.ac_allowed c = false
  | inl _ => True
  end.
Proof.
  apply (structured_argument_needs_true
           Examples.word_pattern_valid Examples.word_pattern_test
           {[ "tags" := JArr [JStr "a"] ]}
           [("tags", JArr [JStr "a"])] "tags"
           (JArr [JStr "a"]) (JArr [JStr "a"])).
  - left. reflexivity.
  - left. exists [JStr "a"]. reflexivity.
  - vm_compute. reflexivity.
  - discriminate.
Defined.

(** ** Configuration *)

Module SchemaFacts.
Import Policy Config.

Lemma positive_opt_default (d : Z) (o : option Z) :
  0 < d -> positive_opt o = true -> 0 < default d o.
Proof.
  intros Hd. destruct o as [n|]; simpl; [| intros _; exact Hd].
  now intros H%Z.ltb_lt.
Qed.

Lemma ToolPolicySchema_parse_ok (raw tp : ToolPolicy) :
  ToolPolicySchema_parse raw = Some tp ->
  (exists b, allow tp = Some b)
  /\ positive_opt (max_bytes tp) = true
  /\ positive_opt (timeout_ms tp) = true
  /\ forall al k v,
      arg_allowlist tp = Some al ->
      al !! k = Some v ->
      allowlist_value_ok v = true.
Proof.
  unfold ToolPolicySchema_parse.
  destruct (positive_opt (max_bytes raw)) eqn:Hb; [| discriminate].
  destruct (positive_opt (timeout_ms raw)) eqn:Ht; [| discriminate].
  cbn [andb].
  destruct (match arg_allowlist raw with Some _ => _ | None => _ end)
    eqn:Hal; [| discriminate].
  intros [= <-]. cbn.
  split; [eauto |]. split; [exact Hb |]. split; [exact Ht |].
  intros al k v Hraw Hk. rewrite Hraw in Hal.
  rewrite forallb_forall in Hal.
  apply (Hal (k, v)). apply list_elem_of_In, elem_of_map_to_list. exact Hk.
Qed.

Lemma per_tool_parse_lookup (m pt : gmap string ToolPolicy) (tool : string)
      (tp : ToolPolicy) :
  per_tool_parse m = Some pt ->
  pt !! tool = Some tp ->
  exists raw, m !! tool = Some raw /\ ToolPolicySchema_parse raw = Some tp.
Proof.
  unfold per_tool_parse. destruct (forallb _ _); [| discriminate].
  intros [= <-]. rewrite lookup_omap.
  destruct (m !! tool) as [raw|]; [| discriminate].
  simpl. eauto.
Qed.

End SchemaFacts.

(** X4. For a policy that [PolicyConfigSchema] accepted, every
    tool's effective timeout and byte limit ([getEffectivePolicy]) is
    positive, every [per_tool] record carries a definite [allow], and
    every allowlist value is a string, a boolean, a number or an
    array of strings. *)
Theorem parsed_policy_has_positive_limits
        (raw : Config.RawPolicyConfig) (cfg : Policy.PolicyConfig) :
  Config.PolicyConfigSchema_parse raw = Some cfg ->
  (forall tool,
      0 < Policy.timeoutMs (Policy.getEffectivePolicy cfg tool)
      /\ 0 < Policy.maxBytes (Policy.getEffectivePolicy cfg tool))
  /\ (forall tool tp,
         Policy.per_tool cfg !! tool = Some tp ->
         (exists b, Policy.allow tp = Some b)
         /\ forall al k v,
             Policy.arg_allowlist tp = Some al ->
             al !! k = Some v ->
             Config.allowlist_value_ok v = true).
Proof.
  unfold Config.PolicyConfigSchema_parse.
  destruct (Config.positive_opt (Config.raw_global_timeout_ms raw)) eqn:Ht;
    [| discriminate].
  destruct (Config.positive_opt (Config.raw_global_max_bytes raw)) eqn:Hb;
    [| discriminate].
  cbn [andb].
  destruct (Config.per_tool_parse _) as [pt|] eqn:Hpt; [| discriminate].
  intros [= <-].
  assert (Hgt : 0 < default 30000 (Config.raw_global_timeout_ms raw))
    by (apply SchemaFacts.positive_opt_default; [lia | exact Ht]).
  assert (Hgb : 0 < default (10 * 1024 * 1024)
                            (Config.raw_global_max_bytes raw))
    by (apply SchemaFacts.positive_opt_default; [lia | exact Hb]).
  split.
  - intros tool. unfold Policy.getEffectivePolicy.
    cbn [Policy.per_tool Policy.global_timeout_ms Policy.global_max_bytes].
    destruct (pt !! tool) as [tp|] eqn:Htp;
      cbn [Policy.timeoutMs Policy.maxBytes]; [| split; assumption].
    destruct (SchemaFacts.per_tool_parse_lookup _ _ _ _ Hpt Htp)
      as (rawtp & _ & Hparse).
    destruct (SchemaFacts.ToolPolicySchema_parse_ok _ _ Hparse)
      as (_ & Hmb & Hto & _).
    split; apply SchemaFacts.positive_opt_default; assumption.
  - intros tool tp Htp. cbn [Policy.per_tool] in Htp.
    destruct (SchemaFacts.per_tool_parse_lookup _ _ _ _ Hpt Htp)
      as (rawtp & _ & Hparse).
    destruct (SchemaFacts.ToolPolicySchema_parse_ok _ _ Hparse)
      as (Ha & _ & _ & Hal).
    split; [exact Ha | exact Hal].
Qed.

(** The policy block of the quick start guide, parsed. *)
Lemma parsed_policy_has_positive_limits_witness :
  (forall tool,
      0 < Policy.timeoutMs
            (Policy.getEffectivePolicy
               {| Policy.default_deny := true;
                  Policy.allow_tools := ["db.query"; "db.schema"];
                  Policy.deny_tools := [];
                  Policy.per_tool :=
                    {[ "db.query" :=
                         {| Policy.allow := Some false;
                            Policy.max_bytes := None;
                            Policy.timeout_ms := Some 120000;
                            Policy.arg_allowlist := None |} ]};
                  Policy.global_timeout_ms := 30000;
                  Policy.global_max_bytes := 10 * 1024 * 1024 |} tool)
      /\ 0 < Policy.maxBytes
               (Policy.getEffectivePolicy
                  {| Policy.default_deny := true;
                     Policy.allow_tools := ["db.query"; "db.schema"];
                     Policy.deny_tools := [];
                     Policy.per_tool :=
                       {[ "db.query" :=
                            {| Policy.allow := Some false;
                               Policy.max_bytes := None;
                               Policy.timeout_ms := Some 120000;
                               Policy.arg_allowlist := None |} ]};
                     Policy.global_timeout_ms := 30000;
                     Policy.global_max_bytes := 10 * 1024 * 1024 |} tool))
  /\ (forall tool tp,
         Policy.per_tool
           {| Policy.default_deny := true;
              Policy.allow_tools := ["db.query"; "db.schema"];
              Policy.deny_tools := [];
              Policy.per_tool :=
                {[ "db.query" :=
                     {| Policy.allow := Some false;
                        Policy.max_bytes := None;
                        Policy.timeout_ms := Some 120000;
                        Policy.arg_allowlist := None |} ]};
              Policy.global_timeout_ms := 30000;
              Policy.global_max_bytes := 10 * 1024 * 1024 |} !! tool
         = Some tp ->
         (exists b, Policy.allow tp = Some b)
         /\ forall al k v,
             Policy.arg_allowlist tp = Some al ->
             al !! k = Some v ->
             Config.allowlist_value_ok v = true).
Proof.
  apply (parsed_policy_has_positive_limits Examples.raw_policy_timeout_only).
  vm_compute. reflexivity.
Defined.

Module JSObjectFacts.
Import JSObject.

Lemma get_set_prop_other (k k' : string) (v : JSValue)
      (ps : list (string * JSValue)) :
  k <> k' -> get_prop k' (set_prop k v ps) = get_prop k' ps.
Proof.
  intros Hne. induction ps as [|[k0 v0] ps IH]; simpl.
  - destruct (String.eqb k' k) eqn:E; [| reflexivity].
    apply String.eqb_eq in E. congruence.
  - destruct (String.eqb k0 k) eqn:E; simpl.
    + apply String.eqb_eq in E. subst k0.
      destruct (String.eqb k' k) eqn:E'; [| reflexivity].
      apply String.eqb_eq in E'. congruence.
    + now rewrite IH.
Qed.

Lemma get_set_prop_same (k : string) (v : JSValue)
      (ps : list (string * JSValue)) :
  get_prop k (set_prop k v ps) = Some v.
Proof.
  induction ps as [|[k0 v0] ps IH]; simpl.
  - now rewrite String.eqb_refl.
  - destruct (String.eqb k0 k) eqn:E; simpl.
    + rewrite String.eqb_sym, E. reflexivity.
    + rewrite String.eqb_sym, E. exact IH.
Qed.

End JSObjectFacts.

Module ConfigLoadFacts.
Import JSObject JSObjectFacts ConfigLoad.

(** What the loop leaves under a key, for a source that names the
    key at most once. *)
Lemma merge_loop_lookup
      (F : list (string * JSValue) -> JSValue -> list (string * JSValue))
      (target : list (string * JSValue)) (k : string)
      (source : list (string * JSValue)) :
  List.NoDup (map fst source) ->
  forall result,
    get_prop k (merge_loop F target result source)
    = match get_prop k source with
      | None => get_prop k result
      | Some sv =>
          match get_prop k target with
          | Some (JObj tv) =>
              if isPlainObject sv then Some (JObj (F tv sv))
              else if is_undefined sv then get_prop k result else Some sv
          | _ => if is_undefined sv then get_prop k result else Some sv
          end
      end.
Proof.
  induction source as [|[key sv] rest IH]; intros Hnd result;
    [reflexivity |].
  simpl in Hnd. apply List.NoDup_cons_iff in Hnd as [Hnotin Hnd].
  cbn [merge_loop get_prop].
  match goal with
  | |- get_prop k (merge_loop F target ?r rest) = _ => set (result' := r)
  end.
  rewrite (IH Hnd).
  destruct (String.eqb k key) eqn:E.
  - apply String.eqb_eq in E. subst key.
    assert (Hrest : get_prop k rest = None).
    { clear -Hnotin. induction rest as [|[k0 v0] rest IH]; [reflexivity |].
      simpl in *. destruct (String.eqb k k0) eqn:E.
      - apply String.eqb_eq in E. elim Hnotin. now left.
      - apply IH. intros H. apply Hnotin. now right. }
    rewrite Hrest. subst result'.
    destruct (get_prop k target) as [[| | | | | |tv]|];
      try (destruct (is_undefined sv); cbn [negb];
           [reflexivity | apply get_set_prop_same]).
    destruct (isPlainObject sv); [apply get_set_prop_same |].
    destruct (is_undefined sv); cbn [negb];
      [reflexivity | apply get_set_prop_same].
  - apply String.eqb_neq in E.
    assert (Hsame : forall v, get_prop k (set_prop key v result)
                              = get_prop k result)
      by (intros v; apply get_set_prop_other; congruence).
    assert (Hres : get_prop k result' = get_prop k result).
    { subst result'.
      destruct (get_prop key target) as [[| | | | | |tv]|];
        try (destruct (negb (is_undefined sv)); [apply Hsame | reflexivity]).
      destruct (isPlainObject sv); [apply Hsame |].
      destruct (negb (is_undefined sv)); [apply Hsame | reflexivity]. }
    now rewrite Hres.
Qed.

Lemma deepMerge_lookup (target source : list (string * JSValue))
      (k : string) :
  List.NoDup (map fst source) ->
  get_prop k (deepMerge target source)
  = match get_prop k source with
    | None => get_prop k target
    | Some sv =>
        match get_prop k target with
        | Some (JObj tv) =>
            if isPlainObject sv then Some (JObj (deepMerge_value tv sv))
            else if is_undefined sv then get_prop k target else Some sv
        | _ => if is_undefined sv then get_prop k target else Some sv
        end
    end.
Proof.
  intros Hnd. unfold deepMerge. cbn [deepMerge_value].
  now apply merge_loop_lookup.
Qed.

Section WithEnv.

Variable env : string -> option string.
Variable parseInt : string -> JSValue.

Lemma assign_lookup_same (name key : string) (f : string -> JSValue)
      (obj : list (string * JSValue)) :
  get_prop key (assign env name key f obj)
  = match env_var env name with
    | Some s => Some (f s)
    | None => get_prop key obj
    end.
Proof.
  unfold assign. destruct (env_var env name); [| reflexivity].
  apply get_set_prop_same.
Qed.

Lemma assign_lookup_other (name key k : string) (f : string -> JSValue)
      (obj : list (string * JSValue)) :
  key <> k ->
  get_prop k (assign env name key f obj) = get_prop k obj.
Proof.
  intros Hne. unfold assign. destruct (env_var env name); [| reflexivity].
  now apply get_set_prop_other.
Qed.

(** The keys of the overrides, and what stands under them. *)
Lemma overrides_top :
  List.NoDup (map fst (getEnvOverrides env parseInt))
  /\ (exists server audit postgres,
         get_prop "server" (getEnvOverrides env parseInt)
         = Some (JObj server)
         /\ get_prop "audit" (getEnvOverrides env parseInt)
            = Some (JObj audit)
         /\ get_prop "connectors" (getEnvOverrides env parseInt)
            = Some (JObj [("postgres", JObj postgres)])
         /\ List.NoDup (map fst server)
         /\ get_prop "transport" server
            = option_map JStr (env_var env "MCP_TRANSPORT")
         /\ get_prop "http_host" server
            = option_map JStr (env_var env "MCP_HTTP_HOST")
         /\ List.NoDup (map fst audit)
         /\ get_prop "file_path" audit
            = option_map JStr (env_var env "MCP_AUDIT_FILE"))
  /\ get_prop "actor" (getEnvOverrides env parseInt)
     = option_map JStr (env_var env "MCP_ACTOR")
  /\ get_prop "log_level" (getEnvOverrides env parseInt)
     = option_map JStr (env_var env "MCP_LOG_LEVEL").
Proof.
  unfold getEnvOverrides, assign.
  destruct (env_var env "MCP_ACTOR"), (env_var env "MCP_LOG_LEVEL");
    (split; [cbn; repeat constructor; cbn; intuition discriminate |]);
    (split; [| split; reflexivity]);
    do 3 eexists;
    (split; [reflexivity |]); (split; [reflexivity |]);
    (split; [reflexivity |]);
    destruct (env_var env "MCP_TRANSPORT"), (env_var env "MCP_HTTP_PORT"),
      (env_var env "MCP_HTTP_HOST"), (env_var env "MCP_AUDIT_FILE");
    cbn; repeat split; repeat constructor; cbn; intuition discriminate.
Qed.

End WithEnv.
End ConfigLoadFacts.

(** X5. In the object [loadConfig] validates, a non-empty
    environment variable overrides what the file says ([actor],
    [log_level], [server.transport], [audit.file_path]) and an unset
    or empty one leaves the file's value; [server] and [audit] are
    always objects there (a file value that is not a mapping is
    replaced); every other top-level key is as in the file. *)
Theorem environment_overrides_win
        (env : string -> option string) (parseInt : string -> JSValue)
        (fileConfig : JSValue) :
  get_prop "actor" (ConfigLoad.mergedConfig env parseInt fileConfig)
  = match ConfigLoad.env_var env "MCP_ACTOR" with
    | Some a => Some (JStr a)
    | None => get_prop "actor" (ConfigLoad.file_props fileConfig)
    end
  /\ get_prop "log_level" (ConfigLoad.mergedConfig env parseInt fileConfig)
     = match ConfigLoad.env_var env "MCP_LOG_LEVEL" with
       | Some l => Some (JStr l)
       | None => get_prop "log_level" (ConfigLoad.file_props fileConfig)
       end
  /\ (exists server,
         get_prop "server" (ConfigLoad.mergedConfig env parseInt fileConfig)
         = Some (JObj server)
         /\ get_prop "transport" server
            = match ConfigLoad.env_var env "MCP_TRANSPORT" with
              | Some t => Some (JStr t)
              | None =>
                  match get_prop "server" (ConfigLoad.file_props fileConfig) with
                  | Some (JObj o) => get_prop "transport" o
                  | _ => None
                  end
              end)
  /\ (exists audit,
         get_prop "audit" (ConfigLoad.mergedConfig env parseInt fileConfig)
         = Some (JObj audit)
         /\ get_prop "file_path" audit
            = match ConfigLoad.env_var env "MCP_AUDIT_FILE" with
              | Some p => Some (JStr p)
              | None =>
                  match get_prop "audit" (ConfigLoad.file_props fileConfig) with
                  | Some (JObj o) => get_prop "file_path" o
                  | _ => None
                  end
              end)
  /\ (forall k,
         ~ In k ["server"; "audit"; "connectors"; "log_level"; "actor"] ->
         get_prop k (ConfigLoad.mergedConfig env parseInt fileConfig)
         = get_prop k (ConfigLoad.file_props fileConfig)).
Proof.
  unfold ConfigLoad.mergedConfig.
  set (file := ConfigLoad.file_props fileConfig).
  destruct (ConfigLoadFacts.overrides_top env parseInt)
    as (Hnd & (server & audit & postgres & Hs & Ha & Hc & Hnds & Ht & Hh
               & Hnda & Hf) & Hactor & Hlevel).
  repeat split.
  - rewrite ConfigLoadFacts.deepMerge_lookup by exact Hnd. rewrite Hactor.
    destruct (ConfigLoad.env_var env "MCP_ACTOR"); cbn [option_map];
      [| reflexivity].
    now destruct (get_prop "actor" file) as [[| | | | | |tv]|].
  - rewrite ConfigLoadFacts.deepMerge_lookup by exact Hnd. rewrite Hlevel.
    destruct (ConfigLoad.env_var env "MCP_LOG_LEVEL"); cbn [option_map];
      [| reflexivity].
    now destruct (get_prop "log_level" file) as [[| | | | | |tv]|].
  - rewrite ConfigLoadFacts.deepMerge_lookup by exact Hnd. rewrite Hs.
    cbn [ConfigLoad.isPlainObject ConfigLoad.is_undefined].
    destruct (get_prop "server" file) as [[| | | | | |tv]|];
      try (eexists; split; [reflexivity |]; rewrite Ht;
           now destruct (ConfigLoad.env_var env "MCP_TRANSPORT")).
    eexists. split; [reflexivity |]. cbn [ConfigLoad.deepMerge_value].
    rewrite ConfigLoadFacts.merge_loop_lookup by exact Hnds. rewrite Ht.
    destruct (ConfigLoad.env_var env "MCP_TRANSPORT"); cbn [option_map];
      [| reflexivity].
    now destruct (get_prop "transport" tv) as [[| | | | | |x]|].
  - rewrite ConfigLoadFacts.deepMerge_lookup by exact Hnd. rewrite Ha.
    cbn [ConfigLoad.isPlainObject ConfigLoad.is_undefined].
    destruct (get_prop "audit" file) as [[| | | | | |tv]|];
      try (eexists; split; [reflexivity |]; rewrite Hf;
           now destruct (ConfigLoad.env_var env "MCP_AUDIT_FILE")).
    eexists. split; [reflexivity |]. cbn [ConfigLoad.deepMerge_value].
    rewrite ConfigLoadFacts.merge_loop_lookup by exact Hnda. rewrite Hf.
    destruct (ConfigLoad.env_var env "MCP_AUDIT_FILE"); cbn [option_map];
      [| reflexivity].
    now destruct (get_prop "file_path" tv) as [[| | | | | |x]|].
  - intros k Hk. rewrite ConfigLoadFacts.deepMerge_lookup by exact Hnd.
    assert (Hnone : get_prop k (ConfigLoad.getEnvOverrides env parseInt)
                    = None).
    { unfold ConfigLoad.getEnvOverrides.
      rewrite !ConfigLoadFacts.assign_lookup_other
        by (intros <-; apply Hk; simpl; auto 10).
      cbn [get_prop].
      destruct (String.eqb k "server") eqn:E1;
        [apply String.eqb_eq in E1; subst; elim Hk; simpl; auto |].
      destruct (String.eqb k "audit") eqn:E2;
        [apply String.eqb_eq in E2; subst; elim Hk; simpl; auto |].
      destruct (String.eqb k "connectors") eqn:E3;
        [apply String.eqb_eq in E3; subst; elim Hk; simpl; auto |].
      reflexivity. }
    now rewrite Hnone.
Qed.

(** ** Registry and tool metadata *)

Module RegistryMore.
Import Policy Config Audit MCP RegistrySpec.

Lemma Map_get_None_keys (m : list (string * ToolDefinition)) (k : string) :
  Map_get m k = None <-> ~ In k (Map_keys m).
Proof.
  unfold Map_keys. induction m as [|[k' v] m IH]; simpl.
  - split; [intros _ [] | reflexivity].
  - destruct (String.eqb k' k) eqn:E.
    + apply String.eqb_eq in E. split; [discriminate |].
      intros H. elim H. now left.
    + rewrite IH. apply String.eqb_neq in E. split.
      * intros H [H' | H']; [contradiction | contradiction].
      * intros H H'. apply H. now right.
Qed.

Lemma Map_get_In (m : list (string * ToolDefinition)) (k : string)
      (t : ToolDefinition) :
  Map_get m k = Some t -> exists k', In (k', t) m.
Proof.
  induction m as [|[k' v] m IH]; simpl; [discriminate |].
  destruct (String.eqb k' k).
  - intros [= <-]. eauto.
  - intros H. destruct (IH H) as [k0 H0]. eauto.
Qed.

Lemma Map_set_absent (m : list (string * ToolDefinition)) (k : string)
      (v : ToolDefinition) :
  Map_get m k = None -> Map_set m k v = m ++ [(k, v)].
Proof.
  induction m as [|[k' v'] m IH]; simpl; [reflexivity |].
  destruct (String.eqb k' k); [discriminate |].
  intros H. now rewrite IH.
Qed.

Lemma Map_get_well_keyed (m : list (string * ToolDefinition)) (k : string)
      (t : ToolDefinition) :
  Forall (fun kt => name (snd kt) = fst kt) m ->
  Map_get m k = Some t -> name t = k.
Proof.
  induction m as [|[k' v] m IH]; simpl; [discriminate |].
  intros H. inversion H as [|? ? Hk Hm]; subst. simpl in Hk.
  destruct (String.eqb k' k) eqn:E.
  - apply String.eqb_eq in E. intros [= <-]. congruence.
  - now apply IH.
Qed.

(** What a call to [registerTool] leaves behind. *)
Lemma registerTool_cases (gw : MCPGateway) (t : ToolDefinition) :
  (Map_get (tools gw) (name t) = None
   /\ snd (registerTool gw t) = None
   /\ tools (fst (registerTool gw t)) = tools gw ++ [(name t, t)])
  \/ (In (name t) (Map_keys (tools gw))
      /\ snd (registerTool gw t)
         = Some (OtherError "Error"
                   ("Tool " +:+ dq +:+ name t +:+ dq
                    +:+ " is already registered"))
      /\ fst (registerTool gw t) = gw).
Proof.
  unfold registerTool, Map_has.
  destruct (Map_get (tools gw) (name t)) as [t'|] eqn:E; simpl.
  - right. split; [| split; reflexivity].
    destruct (in_dec string_dec (name t) (Map_keys (tools gw))) as [H|H];
      [exact H |].
    apply Map_get_None_keys in H. congruence.
  - left. split; [reflexivity |]. split; [reflexivity |].
    now apply Map_set_absent.
Qed.

Lemma registerTool_well_keyed (gw : MCPGateway) (t : ToolDefinition) :
  well_keyed gw -> well_keyed (fst (registerTool gw t)).
Proof.
  intros [Hnd Hk].
  destruct (registerTool_cases gw t) as [(Hnone & _ & Ht) | (_ & _ & ->)];
    [| now split].
  unfold well_keyed. rewrite Ht. split.
  - unfold Map_keys in *. rewrite map_app. simpl.
    apply NoDup_ListNoDup, list.NoDup_app.
    split; [now apply NoDup_ListNoDup |]. split.
    + intros k Hin Hk'. apply list_elem_of_In in Hin.
      apply list_elem_of_In in Hk'. destruct Hk' as [<- | []].
      apply Map_get_None_keys in Hnone. contradiction.
    + apply NoDup_singleton.
  - apply Forall_app. split; [exact Hk |]. repeat constructor.
Qed.

Lemma registerTools_well_keyed (ts : list ToolDefinition) :
  forall gw, well_keyed gw -> well_keyed (fst (registerTools gw ts)).
Proof.
  induction ts as [|t ts IH]; intros gw H; [exact H |].
  simpl. pose proof (registerTool_well_keyed gw t H) as H1.
  destruct (registerTool gw t) as [gw1 [e|]]; simpl in *; [exact H1 |].
  now apply IH.
Qed.

Lemma registerTools_order (ts : list ToolDefinition) :
  forall gw,
  exists pre rest,
    ts = pre ++ rest
    /\ tools (fst (registerTools gw ts))
       = tools gw ++ map (fun t => (name t, t)) pre
    /\ match snd (registerTools gw ts) with
       | None => rest = []
       | Some e =>
           exists t rest',
             rest = t :: rest'
             /\ In (name t) (Map_keys (tools gw) ++ map name pre)
             /\ e = OtherError "Error"
                      ("Tool " +:+ dq +:+ name t +:+ dq
                       +:+ " is already registered")
       end.
Proof.
  induction ts as [|t ts IH]; intros gw.
  - exists [], []. simpl. rewrite app_nil_r. auto.
  - simpl.
    destruct (registerTool_cases gw t) as [(Hnone & Hs & Ht) | (Hin & Hs & Hg)].
    + destruct (registerTool gw t) as [gw1 o]; simpl in *. subst o.
      destruct (IH gw1) as (pre & rest & -> & Htools & Hsnd).
      exists (t :: pre), rest. split; [reflexivity |]. split.
      * rewrite Htools, Ht. simpl. now rewrite <- app_assoc.
      * destruct (snd (registerTools gw1 (pre ++ rest))); [| exact Hsnd].
        destruct Hsnd as (t' & rest' & -> & Hin' & He).
        exists t', rest'. split; [reflexivity |]. split; [| exact He].
        rewrite Ht in Hin'. unfold Map_keys in *.
        rewrite map_app in Hin'. simpl in *.
        now rewrite <- app_assoc in Hin'.
    + destruct (registerTool gw t) as [gw1 [e|]]; simpl in *; [| congruence].
      subst gw1. exists [], (t :: ts). simpl. rewrite !app_nil_r.
      split; [reflexivity |]. split; [reflexivity |].
      exists t, ts. split; [reflexivity |]. split; [exact Hin | congruence].
Qed.

End RegistryMore.

(** X6. [registerTools] keeps the registry well keyed, whether it
    returns or throws: no name occurs twice in [listTools], and the
    tool found under a name carries that name. *)
Theorem registry_stays_well_keyed
        (gw : MCP.MCPGateway) (ts : list MCP.ToolDefinition) :
  RegistrySpec.well_keyed gw ->
  RegistrySpec.well_keyed (fst (MCP.registerTools gw ts))
  /\ (forall k t,
         MCP.Map_get (MCP.tools (fst (MCP.registerTools gw ts))) k = Some t ->
         MCP.name t = k)
  /\ List.NoDup (MCP.listTools (fst (MCP.registerTools gw ts))).
Proof.
  intros H. pose proof (RegistryMore.registerTools_well_keyed ts gw H) as H'.
  split; [exact H' |]. destruct H' as [Hnd Hk]. split; [| exact Hnd].
  intros k t. now apply RegistryMore.Map_get_well_keyed.
Qed.

(** A new gateway, then [custom.echo] twice and a third tool. *)
Lemma registry_stays_well_keyed_witness :
  RegistrySpec.well_keyed
    (fst (MCP.registerTools
            (MCP.new_MCPGateway
               {| Config.policy := Policy.createDefaultPolicy;
                  Config.audit := Examples.audit_on;
                  Config.actor := "local-user" |})
            [Examples.echoTool; Examples.echoTool; Examples.impostorTool]))
  /\ (forall k t,
         MCP.Map_get
           (MCP.tools
              (fst (MCP.registerTools
                      (MCP.new_MCPGateway
                         {| Config.policy := Policy.createDefaultPolicy;
                            Config.audit := Examples.audit_on;
                            Config.actor := "local-user" |})
                      [Examples.echoTool; Examples.echoTool;
                       Examples.impostorTool]))) k = Some t ->
         MCP.name t = k)
  /\ List.NoDup
       (MCP.listTools
          (fst (MCP.registerTools
                  (MCP.new_MCPGateway
                     {| Config.policy := Policy.createDefaultPolicy;
                        Config.audit := Examples.audit_on;
                        Config.actor := "local-user" |})
                  [Examples.echoTool; Examples.echoTool;
                   Examples.impostorTool]))).
Proof.
  apply (registry_stays_well_keyed
           (MCP.new_MCPGateway
              {| Config.policy := Policy.createDefaultPolicy;
                 Config.audit := Examples.audit_on;
                 Config.actor := "local-user" |})
           [Examples.echoTool; Examples.echoTool; Examples.impostorTool]).
  split; simpl; constructor.
Defined.

(** X7. After [registerTools], [listTools] is the former list
    followed by the names of the tools registered by the call, in the
    order given. The call registers the whole list, or it stops at
    the first tool whose name is already taken, by the registry or by
    an earlier tool of the list, and throws the error that says so. *)
Theorem tools_listed_in_registration_order
        (gw : MCP.MCPGateway) (ts : list MCP.ToolDefinition) :
  exists pre rest,
    ts = pre ++ rest
    /\ MCP.listTools (fst (MCP.registerTools gw ts))
       = MCP.listTools gw ++ map MCP.name pre
    /\ match snd (MCP.registerTools gw ts) with
       | None => rest = []
       | Some e =>
           exists t rest',
             rest = t :: rest'
             /\ In (MCP.name t) (MCP.listTools gw ++ map MCP.name pre)
             /\ e = OtherError "Error"
                      ("Tool " +:+ dq +:+ MCP.name t +:+ dq
                       +:+ " is already registered")
       end.
Proof.
  destruct (RegistryMore.registerTools_order ts gw)
    as (pre & rest & Hts & Htools & Hsnd).
  exists pre, rest. split; [exact Hts |]. split; [| exact Hsnd].
  unfold MCP.listTools, MCP.Map_keys. rewrite Htools, map_app, map_map.
  reflexivity.
Qed.

Module ZodFacts.
Import JSObject JSObjectFacts Zod MetadataSpec.

Lemma finish_type (n : bool) (current : ZodType)
      (schema : list (string * JSValue)) :
  get_prop "type" (finish n current schema) = get_prop "type" schema.
Proof.
  unfold finish.
  assert (H : get_prop "type"
                (if n then set_prop "nullable" (JBool true) schema else schema)
              = get_prop "type" schema).
  { destruct n; [| reflexivity]. now apply get_set_prop_other. }
  destruct (description_of current) as [d|]; [| exact H].
  destruct (String.eqb d EmptyString); [exact H |].
  rewrite get_set_prop_other by discriminate. exact H.
Qed.

Lemma field_and_class_typed (f : ZodType) :
  typed (zodFieldToJsonSchema f)
  /\ typed (class_schema zodFieldToJsonSchema f).
Proof.
  assert (Hs : typed [("type", JStr "string")])
    by (exists "string"; simpl; auto).
  induction f as [d|d|d|d el IH|d opts|d shape|d inner IH|d inner IH
                  |d inner IH|d val IH|d].
  all: try (split; unfold typed; cbn [zodFieldToJsonSchema class_schema];
            rewrite ?finish_type; cbn; eauto 10; fail).
  - (* ZodOptional *)
    split; [| exact Hs].
    destruct IH as [IHf IHc]. unfold typed in *.
    destruct inner; cbn [zodFieldToJsonSchema] in *;
      rewrite finish_type in *; try exact IHc; exact IHf.
  - (* ZodNullable *)
    split; [| exact Hs].
    destruct IH as [_ IHc]. unfold typed in *.
    cbn [zodFieldToJsonSchema]. now rewrite finish_type.
  - (* ZodDefault *)
    destruct IH as [IHf _]. split; [| exact IHf].
    unfold typed in *. cbn [zodFieldToJsonSchema class_schema].
    now rewrite finish_type.
Qed.

End ZodFacts.

(** X8. [zodToJsonSchema] always returns an object schema, and
    each of its properties is an object with a [type] among string,
    number, boolean, array and object, whatever the nesting of
    optional, nullable and default wrappers and whatever schema class
    the field has. *)
Theorem tool_metadata_is_typed (schema : Zod.ZodType) :
  get_prop "type" (Zod.zodToJsonSchema schema) = Some (JStr "object")
  /\ exists props,
      get_prop "properties" (Zod.zodToJsonSchema schema) = Some (JObj props)
      /\ forall k s,
          In (k, s) props ->
          exists ps, s = JObj ps /\ MetadataSpec.typed ps.
Proof.
  destruct schema as [d|d|d|d el|d opts|d shape|d inner|d inner
                      |d inner|d val|d];
    try (split; [reflexivity |]; exists []; split; [reflexivity |];
         intros k s []).
  split; [reflexivity |].
  eexists. split; [reflexivity |].
  intros k s Hin. apply in_map_iff in Hin as ([k' f] & [= <- <-] & _).
  eexists. split; [reflexivity |]. apply ZodFacts.field_and_class_typed.
Qed.

(** X9. On a well keyed registry, [getToolMetadata] describes
    exactly the tools of [listTools], in the same order. *)
Theorem metadata_lists_registered_tools
        (schema_of : MCP.ToolDefinition -> Zod.ZodType)
        (gw : MCP.MCPGateway) :
  RegistrySpec.well_keyed gw ->
  map Metadata.md_name (Metadata.getToolMetadata schema_of gw)
  = MCP.listTools gw.
Proof.
  intros [_ Hk]. unfold Metadata.getToolMetadata, MCP.listTools, MCP.Map_keys.
  rewrite map_map. cbn [Metadata.md_name].
  induction Hk as [|[k t] m Hkt _ IH]; [reflexivity |].
  simpl in *. now rewrite Hkt, IH.
Qed.

(** The gateway that holds [custom.echo]. *)
Lemma metadata_lists_registered_tools_witness :
  map Metadata.md_name
      (Metadata.getToolMetadata ConnectorExamples.echo_shape
         (Examples.gateway_with Examples.audit_on
            Examples.policy_allow_echo [Examples.echoTool]))
  = MCP.listTools
      (Examples.gateway_with Examples.audit_on
         Examples.policy_allow_echo [Examples.echoTool]).
Proof.
  apply (metadata_lists_registered_tools ConnectorExamples.echo_shape
           (Examples.gateway_with Examples.audit_on
              Examples.policy_allow_echo [Examples.echoTool])).
  split.
  - repeat constructor. intros [].
  - repeat constructor.
Defined.

(** ** Invocation, audit events and the HTTP route *)

Module InvokeMore.
Import Policy Config Audit MCP.

(** The fields every event of [log] takes from the context and the
    clock. *)
Lemma log_fields (lg : AuditLogger) (stamp now : Z) (ctx : AuditContext)
      (d : Decision) (why : string) (res : JSValue) (ec : option string)
      (ev : AuditEvent) :
  In ev (log lg stamp now ctx d why res ec) ->
  request_id ev = requestId ctx
  /\ Audit.tool ev = ctx_tool ctx
  /\ Audit.actor ev = ctx_actor ctx
  /\ timestamp ev = stamp
  /\ duration_ms ev = now - startTime ctx
  /\ result_bytes ev = getResultBytes res.
Proof.
  unfold log. destruct (negb _); simpl; [intros [] |].
  intros [<- | []]. repeat split.
Qed.

Section WithRegExp.

Variable RegExp_valid : string -> bool.
Variable RegExp_test : string -> string -> bool.

(** The shape of every answer of [invokeTool], and what each of its
    events takes from the call. *)
Lemma invoke_shape (gw : MCPGateway) (clk : Clock) (toolName : string)
      (args : JSValue) :
  tr_requestId (fst (invokeTool RegExp_valid RegExp_test gw clk toolName args))
  = uuid clk
  /\ ((success (fst (invokeTool RegExp_valid RegExp_test gw clk toolName args))
       = true
       /\ error (fst (invokeTool RegExp_valid RegExp_test gw clk toolName args))
          = None
       /\ exists res,
           result (fst (invokeTool RegExp_valid RegExp_test gw clk
                                   toolName args)) = Some res)
      \/ (success (fst (invokeTool RegExp_valid RegExp_test gw clk
                                   toolName args)) = false
          /\ result (fst (invokeTool RegExp_valid RegExp_test gw clk
                                     toolName args)) = None
          /\ exists te,
              error (fst (invokeTool RegExp_valid RegExp_test gw clk
                                     toolName args)) = Some te))
  /\ forall ev,
      In ev (snd (invokeTool RegExp_valid RegExp_test gw clk toolName args)) ->
      request_id ev = uuid clk
      /\ Audit.tool ev = toolName
      /\ Audit.actor ev = logger_actor (gw_audit gw)
      /\ timestamp ev = t_stamp clk
      /\ duration_ms ev = t_log clk - t_start clk.
Proof.
  assert (Hlog : forall d why res ec ev,
             In ev (log (gw_audit gw) (t_stamp clk) (t_log clk)
                        (createContext (gw_audit gw) (uuid clk) (t_start clk)
                                       toolName args) d why res ec) ->
             request_id ev = uuid clk
             /\ Audit.tool ev = toolName
             /\ Audit.actor ev = logger_actor (gw_audit gw)
             /\ timestamp ev = t_stamp clk
             /\ duration_ms ev = t_log clk - t_start clk).
  { intros d why res ec ev Hin.
    destruct (log_fields _ _ _ _ _ _ _ _ _ Hin) as (H1 & H2 & H3 & H4 & H5 & _).
    auto. }
  unfold invokeTool, invoke_catch, logDenied, logError, logSuccess, failure.
  destruct (Map_get _ _) as [tool|]; cbn [fst snd success error result tr_requestId];
    [| split; [reflexivity | split; [right; eauto | apply Hlog]]].
  destruct (validateArgs tool args) as [verr|data];
    cbn [fst snd success error result tr_requestId];
    [split; [reflexivity | split; [right; eauto | apply Hlog]] |].
  destruct (enforce _ _ _ _ _) as [err|eff];
    cbn [fst snd success error result tr_requestId].
  { split; [reflexivity | split; [right; eauto |]].
    destruct (_ && _); apply Hlog. }
  destruct (executeWithTimeout _ _ _) as [res|err];
    cbn [fst snd success error result tr_requestId].
  - destruct (enforceMaxBytes _ _) as [err|[]];
      cbn [fst snd success error result tr_requestId].
    + split; [reflexivity | split; [right; eauto |]].
      destruct (_ && _); apply Hlog.
    + split; [reflexivity | split; [left; eauto | apply Hlog]].
  - split; [reflexivity | split; [right; eauto |]].
    destruct (_ && _); apply Hlog.
Qed.

End WithRegExp.
End InvokeMore.

(** X10. A result that [invokeTool] returns has a JSON text within
    the tool's effective [max_bytes], and the [result_bytes] of the
    event written for it is at most the size of that text. *)
Theorem successful_result_within_max_bytes
        (RegExp_valid : string -> bool)
        (RegExp_test : string -> string -> bool)
        (gw : MCP.MCPGateway) (clk : MCP.Clock) (toolName : string)
        (args res : JSValue) :
  MCP.result (fst (MCP.invokeTool RegExp_valid RegExp_test gw clk
                                  toolName args)) = Some res ->
  exists s,
    stringify res = Some s
    /\ byteLength s
       <= Policy.maxBytes (Policy.getEffectivePolicy (MCP.gw_policy gw)
                                                     toolName)
    /\ forall ev,
        In ev (snd (MCP.invokeTool RegExp_valid RegExp_test gw clk
                                   toolName args)) ->
        0 <= Audit.result_bytes ev <= byteLength s.
Proof.
  unfold MCP.invokeTool, MCP.invoke_catch, MCP.failure.
  destruct (MCP.Map_get _ _) as [tool|]; cbn [fst snd MCP.result];
    [| discriminate].
  destruct (MCP.validateArgs tool args) as [verr|data];
    cbn [fst snd MCP.result]; [discriminate |].
  destruct (Policy.enforce _ _ _ _ _) as [err|eff] eqn:Heff;
    cbn [fst snd MCP.result]; [discriminate |].
  apply PolicyMore.enforce_effective in Heff. subst eff.
  destruct (Policy.executeWithTimeout _ _ _) as [r|err];
    cbn [fst snd MCP.result]; [| discriminate].
  destruct (Policy.enforceMaxBytes _ _) as [err|[]] eqn:Hmax;
    cbn [fst snd MCP.result]; [discriminate |].
  intros [= ->]. unfold Policy.enforceMaxBytes in Hmax.
  destruct (stringify res) as [s|] eqn:Hs; [| discriminate].
  destruct (_ <? byteLength s) eqn:Hlt; [discriminate |].
  apply Z.ltb_ge in Hlt.
  exists s. split; [reflexivity |]. split; [exact Hlt |].
  intros ev Hin. unfold Audit.logSuccess in Hin.
  apply InvokeMore.log_fields in Hin as (_ & _ & _ & _ & _ & ->).
  unfold Audit.getResultBytes, stringify_text. rewrite Hs. simpl.
  unfold byteLength. destruct res; lia.
Qed.

(** The echo of [hi]. *)
Lemma successful_result_within_max_bytes_witness :
  exists s,
    stringify (JObj [("echo", JStr "hi")]) = Some s
    /\ byteLength s
       <= Policy.maxBytes
            (Policy.getEffectivePolicy
               (MCP.gw_policy
                  (Examples.gateway_with Examples.audit_on
                     Examples.policy_allow_echo [Examples.echoTool]))
               "custom.echo")
    /\ forall ev,
        In ev (snd (MCP.invokeTool Examples.word_pattern_valid
                      Examples.word_pattern_test
                      (Examples.gateway_with Examples.audit_on
                         Examples.policy_allow_echo [Examples.echoTool])
                      Examples.clock0 "custom.echo"
                      (JObj [("message", JStr "hi")]))) ->
        0 <= Audit.result_bytes ev <= byteLength s.
Proof.
  apply (successful_result_within_max_bytes
           Examples.word_pattern_valid Examples.word_pattern_test
           (Examples.gateway_with Examples.audit_on
              Examples.policy_allow_echo [Examples.echoTool])
           Examples.clock0 "custom.echo"
           (JObj [("message", JStr "hi")])
           (JObj [("echo", JStr "hi")])).
  vm_compute. reflexivity.
Defined.

(** X11. When a call passes lookup, validation and policy and its
    handler settles no earlier than the tool's effective timeout (or
    never), [invokeTool] answers TIMEOUT with the effective timeout
    in the message, and the event records decision allow, error_code
    TIMEOUT and no result bytes. A handler that needs exactly the
    timeout loses. *)
Theorem slow_handler_is_timed_out
        (RegExp_valid : string -> bool)
        (RegExp_test : string -> string -> bool)
        (gw : MCP.MCPGateway) (clk : MCP.Clock) (toolName : string)
        (args data : JSValue) (tool : MCP.ToolDefinition)
        (eff : Policy.EffectivePolicy) :
  MCP.Map_get (MCP.tools gw) toolName = Some tool ->
  MCP.validateArgs tool args = inr data ->
  Policy.enforce RegExp_valid RegExp_test (MCP.gw_policy gw) toolName args
  = inr eff ->
  (MCP.handler tool data = Policy.Never
   \/ exists ms c,
       MCP.handler tool data = Policy.AfterMs ms c
       /\ Policy.timeoutMs
            (Policy.getEffectivePolicy (MCP.gw_policy gw) toolName) <= ms) ->
  fst (MCP.invokeTool RegExp_valid RegExp_test gw clk toolName args)
  = MCP.failure "TIMEOUT"
      ("Tool " +:+ toolName +:+ " timed out after "
       +:+ number_to_string
             (Policy.timeoutMs
                (Policy.getEffectivePolicy (MCP.gw_policy gw) toolName))
       +:+ "ms")
      (MCP.uuid clk)
  /\ forall ev,
      In ev (snd (MCP.invokeTool RegExp_valid RegExp_test gw clk
                                 toolName args)) ->
      Audit.decision ev = Audit.Allow
      /\ Audit.error_code ev = Some "TIMEOUT"
      /\ Audit.result_bytes ev = 0.
Proof.
  intros Hget Hval Henf Hslow.
  pose proof (PolicyMore.enforce_effective _ _ _ _ _ _ Henf) as ->.
  unfold MCP.invokeTool. rewrite Hget, Hval, Henf.
  assert (Hx : Policy.executeWithTimeout toolName (MCP.handler tool data)
                 (Policy.timeoutMs
                    (Policy.getEffectivePolicy (MCP.gw_policy gw) toolName))
               = Policy.Rejected
                   (TimeoutError toolName
                      (Policy.timeoutMs
                         (Policy.getEffectivePolicy (MCP.gw_policy gw)
                                                    toolName)))).
  { destruct Hslow as [-> | (ms & c & -> & Hle)]; [reflexivity |].
    simpl. apply Z.ltb_ge in Hle. now rewrite Hle. }
  rewrite Hx. unfold MCP.invoke_catch. cbn [fst snd].
  split; [reflexivity |].
  intros ev. cbn [isGatewayError TimeoutError errorToCode andb].
  change (String.eqb "TIMEOUT" "POLICY_DENIED") with false. cbv iota.
  unfold Audit.logError, Audit.log.
  destruct (negb _); [intros [] |]. intros [<- | []]. repeat split.
Qed.

(** Reading [/allow/foo] takes two milliseconds; the deadline is two
    milliseconds. *)
Lemma slow_handler_is_timed_out_witness :
  fst (MCP.invokeTool Examples.word_pattern_valid Examples.word_pattern_test
         (MoreExamples.fs_gateway MoreExamples.policy_two_ms)
         Examples.clock0 "fs.readFile" (JObj [("path", JStr "/allow/foo")]))
  = MCP.failure "TIMEOUT"
      ("Tool " +:+ "fs.readFile" +:+ " timed out after "
       +:+ number_to_string
             (Policy.timeoutMs
                (Policy.getEffectivePolicy
                   (MCP.gw_policy
                      (MoreExamples.fs_gateway MoreExamples.policy_two_ms))
                   "fs.readFile"))
       +:+ "ms")
      (MCP.uuid Examples.clock0)
  /\ forall ev,
      In ev (snd (MCP.invokeTool Examples.word_pattern_valid
                    Examples.word_pattern_test
                    (MoreExamples.fs_gateway MoreExamples.policy_two_ms)
                    Examples.clock0 "fs.readFile"
                    (JObj [("path", JStr "/allow/foo")]))) ->
      Audit.decision ev = Audit.Allow
      /\ Audit.error_code ev = Some "TIMEOUT"
      /\ Audit.result_bytes ev = 0.
Proof.
  apply (slow_handler_is_timed_out
           Examples.word_pattern_valid Examples.word_pattern_test
           (MoreExamples.fs_gateway MoreExamples.policy_two_ms)
           Examples.clock0 "fs.readFile" (JObj [("path", JStr "/allow/foo")])
           (JObj [("path", JStr "/allow/foo"); ("encoding", JStr "utf-8")])
           {| MCP.name := "fs.readFile";
              MCP.description :=
                "Read the contents of a file. Only works for files in allowed paths.";
              MCP.inputSchema := Filesystem.readFileSchema;
              MCP.handler :=
                Filesystem.readFile_handler "/" Examples.fs_two_dirs
                  (Examples.fs_config ["/allow"] []) |}
           {| Policy.timeoutMs := 2; Policy.maxBytes := 1000000;
              Policy.argAllowlist := None |}).
  - reflexivity.
  - reflexivity.
  - reflexivity.
  - right. eexists. eexists. split.
    + reflexivity.
    + cbv. discriminate.
Defined.

(** X12. Every audit event with decision deny carries error_code
    POLICY_DENIED and no result bytes, while the answer to the caller
    is coded TOOL_NOT_FOUND, VALIDATION_ERROR or POLICY_DENIED; for
    an unregistered tool the answer says TOOL_NOT_FOUND and the event
    POLICY_DENIED. *)
Theorem deny_events_are_coded_policy_denied
        (RegExp_valid : string -> bool)
        (RegExp_test : string -> string -> bool)
        (gw : MCP.MCPGateway) (clk : MCP.Clock) (toolName : string)
        (args : JSValue) (ev : Audit.AuditEvent) :
  In ev (snd (MCP.invokeTool RegExp_valid RegExp_test gw clk toolName args)) ->
  Audit.decision ev = Audit.Deny ->
  Audit.error_code ev = Some "POLICY_DENIED"
  /\ Audit.result_bytes ev = 0
  /\ exists te,
      MCP.error (fst (MCP.invokeTool RegExp_valid RegExp_test gw clk
                                     toolName args)) = Some te
      /\ In (MCP.code te)
            ["TOOL_NOT_FOUND"; "VALIDATION_ERROR"; "POLICY_DENIED"]
      /\ (MCP.Map_get (MCP.tools gw) toolName = None ->
          MCP.code te = "TOOL_NOT_FOUND").
Proof.
  assert (Hdenied : forall ctx why e,
             In e (Audit.logDenied (MCP.gw_audit gw) (MCP.t_stamp clk)
                                   (MCP.t_log clk) ctx why) ->
             Audit.error_code e = Some "POLICY_DENIED"
             /\ Audit.result_bytes e = 0).
  { intros ctx why e. unfold Audit.logDenied, Audit.log.
    destruct (negb _); [intros [] |]. intros [<- | []]. split; reflexivity. }
  assert (Herror : forall ctx c m e,
             In e (Audit.logError (MCP.gw_audit gw) (MCP.t_stamp clk)
                                  (MCP.t_log clk) ctx c m) ->
             Audit.decision e = Audit.Allow).
  { intros ctx c m e. unfold Audit.logError, Audit.log.
    destruct (negb _); [intros [] |]. intros [<- | []]. reflexivity. }
  assert (Hcatch : forall ctx err,
             In ev (snd (MCP.invoke_catch gw clk ctx err)) ->
             Audit.decision ev = Audit.Deny ->
             Audit.error_code ev = Some "POLICY_DENIED"
             /\ Audit.result_bytes ev = 0
             /\ exists te,
                 MCP.error (fst (MCP.invoke_catch gw clk ctx err)) = Some te
                 /\ In (MCP.code te)
                       ["TOOL_NOT_FOUND"; "VALIDATION_ERROR"; "POLICY_DENIED"]).
  { intros ctx err. unfold MCP.invoke_catch. cbn [fst snd MCP.failure MCP.error].
    destruct (isGatewayError err && String.eqb (errorToCode err) "POLICY_DENIED")
      eqn:Hd.
    - intros Hin _. apply Hdenied in Hin as [H1 H2].
      split; [exact H1 |]. split; [exact H2 |].
      eexists. split; [reflexivity |]. cbn [MCP.code].
      apply andb_prop in Hd as [_ Hc]. apply String.eqb_eq in Hc.
      rewrite Hc. simpl. auto.
    - intros Hin Hdeny. apply Herror in Hin. congruence. }
  unfold MCP.invokeTool.
  destruct (MCP.Map_get (MCP.tools gw) toolName) as [tool|] eqn:Hget.
  - destruct (MCP.validateArgs tool args) as [verr|data].
    + cbn [fst snd MCP.failure MCP.error]. intros Hin _.
      apply Hdenied in Hin as [H1 H2].
      split; [exact H1 |]. split; [exact H2 |].
      eexists. split; [reflexivity |]. split; [simpl; auto | discriminate].
    + destruct (Policy.enforce _ _ _ _ _) as [err|eff].
      { intros Hin Hd. destruct (Hcatch _ _ Hin Hd) as (H1 & H2 & te & H3 & H4).
        split; [exact H1 |]. split; [exact H2 |].
        exists te. split; [exact H3 |]. split; [exact H4 | discriminate]. }
      destruct (Policy.executeWithTimeout _ _ _) as [res|err].
      * destruct (Policy.enforceMaxBytes _ _) as [err|[]].
        -- intros Hin Hd.
           destruct (Hcatch _ _ Hin Hd) as (H1 & H2 & te & H3 & H4).
           split; [exact H1 |]. split; [exact H2 |].
           exists te. split; [exact H3 |]. split; [exact H4 | discriminate].
        -- cbn [snd]. unfold Audit.logSuccess, Audit.log.
           destruct (negb _); [intros [] |]. intros [<- | []]. discriminate.
      * intros Hin Hd.
        destruct (Hcatch _ _ Hin Hd) as (H1 & H2 & te & H3 & H4).
        split; [exact H1 |]. split; [exact H2 |].
        exists te. split; [exact H3 |]. split; [exact H4 | discriminate].
  - cbn [fst snd MCP.failure MCP.error]. intros Hin _.
    apply Hdenied in Hin as [H1 H2].
    split; [exact H1 |]. split; [exact H2 |].
    eexists. split; [reflexivity |]. split; [simpl; auto | reflexivity].
Qed.

(** A call of a tool the gateway does not hold. *)
Lemma deny_events_are_coded_policy_denied_witness :
  Audit.error_code
    {| Audit.timestamp := 1705314600045;
       Audit.request_id := "550e8400-e29b-41d4-a716-446655440000";
       Audit.tool := "custom.missing";
       Audit.actor := "test-user";
       Audit.args_sha256 := Audit.hashArgs (JObj []);
       Audit.decision := Audit.Deny;
       Audit.reason := "Tool " +:+ dq +:+ "custom.missing" +:+ dq
                       +:+ " not found";
       Audit.duration_ms := 45;
       Audit.result_bytes := 0;
       Audit.error_code := Some "POLICY_DENIED" |}
  = Some "POLICY_DENIED"
  /\ Audit.result_bytes
       {| Audit.timestamp := 1705314600045;
          Audit.request_id := "550e8400-e29b-41d4-a716-446655440000";
          Audit.tool := "custom.missing";
          Audit.actor := "test-user";
          Audit.args_sha256 := Audit.hashArgs (JObj []);
          Audit.decision := Audit.Deny;
          Audit.reason := "Tool " +:+ dq +:+ "custom.missing" +:+ dq
                          +:+ " not found";
          Audit.duration_ms := 45;
          Audit.result_bytes := 0;
          Audit.error_code := Some "POLICY_DENIED" |} = 0
  /\ exists te,
      MCP.error
        (fst (MCP.invokeTool Examples.word_pattern_valid
                Examples.word_pattern_test
                (Examples.gateway_with Examples.audit_on
                   Examples.policy_allow_echo [Examples.echoTool])
                Examples.clock0 "custom.missing" (JObj []))) = Some te
      /\ In (MCP.code te)
            ["TOOL_NOT_FOUND"; "VALIDATION_ERROR"; "POLICY_DENIED"]
      /\ (MCP.Map_get
            (MCP.tools
               (Examples.gateway_with Examples.audit_on
                  Examples.policy_allow_echo [Examples.echoTool]))
            "custom.missing" = None ->
          MCP.code te = "TOOL_NOT_FOUND").
Proof.
  apply (deny_events_are_coded_policy_denied
           Examples.word_pattern_valid Examples.word_pattern_test
           (Examples.gateway_with Examples.audit_on
              Examples.policy_allow_echo [Examples.echoTool])
           Examples.clock0 "custom.missing" (JObj [])).
  - left. reflexivity.
  - reflexivity.
Defined.

(** X13. The answer of [invokeTool] does not depend on the audit
    logger (its switch, its file, its actor), and with the logger
    disabled no path of the pipeline writes an event. *)
Theorem audit_switch_only_affects_the_log
        (RegExp_valid : string -> bool)
        (RegExp_test : string -> string -> bool)
        (ts : list (string * MCP.ToolDefinition))
        (p : Policy.PolicyConfig) (lg lg' : Audit.AuditLogger)
        (clk : MCP.Clock) (toolName : string) (args : JSValue) :
  fst (MCP.invokeTool RegExp_valid RegExp_test
         {| MCP.tools := ts; MCP.gw_policy := p; MCP.gw_audit := lg |}
         clk toolName args)
  = fst (MCP.invokeTool RegExp_valid RegExp_test
           {| MCP.tools := ts; MCP.gw_policy := p; MCP.gw_audit := lg' |}
           clk toolName args)
  /\ (Config.enabled (Audit.config lg) = false ->
      snd (MCP.invokeTool RegExp_valid RegExp_test
             {| MCP.tools := ts; MCP.gw_policy := p; MCP.gw_audit := lg |}
             clk toolName args) = []).
Proof.
  unfold MCP.invokeTool, MCP.invoke_catch, Audit.logDenied, Audit.logError,
    Audit.logSuccess.
  cbn [MCP.tools MCP.gw_policy MCP.gw_audit].
  split.
  - destruct (MCP.Map_get ts toolName) as [tool|]; [| reflexivity].
    destruct (MCP.validateArgs tool args); [reflexivity |].
    destruct (Policy.enforce _ _ _ _ _); [reflexivity |].
    destruct (Policy.executeWithTimeout _ _ _); [| reflexivity].
    destruct (Policy.enforceMaxBytes _ _) as [?|[]]; reflexivity.
  - intros Hoff.
    assert (Hlog : forall ctx d why res ec,
               Audit.log lg (MCP.t_stamp clk) (MCP.t_log clk) ctx d why res ec
               = []).
    { intros. unfold Audit.log. now rewrite Hoff. }
    destruct (MCP.Map_get ts toolName) as [tool|]; [| apply Hlog].
    destruct (MCP.validateArgs tool args); [apply Hlog |].
    destruct (Policy.enforce _ _ _ _ _); cbn [snd].
    { destruct (_ && _); apply Hlog. }
    destruct (Policy.executeWithTimeout _ _ _); cbn [snd].
    + destruct (Policy.enforceMaxBytes _ _) as [?|[]]; cbn [snd].
      * destruct (_ && _); apply Hlog.
      * apply Hlog.
    + destruct (_ && _); apply Hlog.
Qed.

(** X14. The route [POST /tools/:name] hands the request body (the
    empty object when there is none) to [invokeTool] and writes no
    event of its own. It answers 200 exactly when [invokeTool]
    returns a result, and the body carries that result; otherwise it
    answers 400, and the body carries the code and the message of the
    error [invokeTool] returned; the [requestId] of the body is the
    [request_id] of every audit event of the call. So an unknown tool
    gets 400 TOOL_NOT_FOUND, arguments the schema refuses 400
    VALIDATION_ERROR, a policy denial 400 POLICY_DENIED with the
    reason, a handler that does not settle before the deadline 400
    TIMEOUT, and a handler's value within the byte limit 200 with
    that value. *)
Theorem post_tool_answers_200_or_400
        (RegExp_valid : string -> bool)
        (RegExp_test : string -> string -> bool)
        (gw : MCP.MCPGateway) (clk : MCP.Clock) (name : string)
        (req_body : JSValue) :
  snd (Server.post_tool RegExp_valid RegExp_test gw clk name req_body)
  = snd (MCP.invokeTool RegExp_valid RegExp_test gw clk name
                        (RouteShape.arguments_of req_body))
  /\ (forall ev,
         In ev (snd (Server.post_tool RegExp_valid RegExp_test gw clk
                                      name req_body)) ->
         Audit.request_id ev = MCP.uuid clk)
  /\ ((exists res,
          fst (MCP.invokeTool RegExp_valid RegExp_test gw clk name
                              (RouteShape.arguments_of req_body))
          = {| MCP.success := true; MCP.result := Some res;
               MCP.error := None; MCP.tr_requestId := MCP.uuid clk |}
          /\ fst (Server.post_tool RegExp_valid RegExp_test gw clk
                                   name req_body)
             = RouteShape.ok_200 res (MCP.uuid clk))
      \/ (exists c m,
             fst (MCP.invokeTool RegExp_valid RegExp_test gw clk name
                                 (RouteShape.arguments_of req_body))
             = MCP.failure c m (MCP.uuid clk)
             /\ fst (Server.post_tool RegExp_valid RegExp_test gw clk
                                      name req_body)
                = RouteShape.error_400 c m (MCP.uuid clk)))
  /\ (MCP.Map_get (MCP.tools gw) name = None ->
      fst (Server.post_tool RegExp_valid RegExp_test gw clk name req_body)
      = RouteShape.error_400 "TOOL_NOT_FOUND"
          ("Tool " +:+ dq +:+ name +:+ dq +:+ " not found") (MCP.uuid clk))
  /\ (forall tool,
         MCP.Map_get (MCP.tools gw) name = Some tool ->
         (forall verr,
             MCP.validateArgs tool (RouteShape.arguments_of req_body)
             = inl verr ->
             fst (Server.post_tool RegExp_valid RegExp_test gw clk
                                   name req_body)
             = RouteShape.error_400 "VALIDATION_ERROR" verr (MCP.uuid clk))
         /\ (forall data,
                MCP.validateArgs tool (RouteShape.arguments_of req_body)
                = inr data ->
                (forall d,
                    Policy.checkPolicy RegExp_valid RegExp_test
                      (MCP.gw_policy gw) name
                      (RouteShape.arguments_of req_body) = inr d ->
                    Policy.allowed d = false ->
                    fst (Server.post_tool RegExp_valid RegExp_test gw clk
                                          name req_body)
                    = RouteShape.error_400 "POLICY_DENIED"
                        ("Policy denied: " +:+ Policy.reason d)
                        (MCP.uuid clk))
                /\ (forall eff,
                       Policy.enforce RegExp_valid RegExp_test
                         (MCP.gw_policy gw) name
                         (RouteShape.arguments_of req_body) = inr eff ->
                       ((MCP.handler tool data = Policy.Never
                         \/ exists ms c,
                             MCP.handler tool data = Policy.AfterMs ms c
                             /\ Policy.timeoutMs eff <= ms) ->
                        fst (Server.post_tool RegExp_valid RegExp_test gw clk
                                              name req_body)
                        = RouteShape.error_400 "TIMEOUT"
                            ("Tool " +:+ name +:+ " timed out after "
                             +:+ number_to_string (Policy.timeoutMs eff)
                             +:+ "ms")
                            (MCP.uuid clk))
                       /\ (forall res,
                              Policy.executeWithTimeout
                                name (MCP.handler tool data)
                                (Policy.timeoutMs eff)
                              = Policy.Resolved res ->
                              Policy.enforceMaxBytes res (Policy.maxBytes eff)
                              = inr tt ->
                              fst (Server.post_tool RegExp_valid RegExp_test
                                     gw clk name req_body)
                              = RouteShape.ok_200 res (MCP.uuid clk))))).
Proof.
  unfold Server.post_tool, RouteShape.arguments_of.
  set (args := if JSObject.truthy req_body then req_body else JObj []).
  cbv zeta. cbn [fst snd].
  destruct (InvokeMore.invoke_shape RegExp_valid RegExp_test gw clk name args)
    as (Hid & Hshape & Hev).
  split; [reflexivity |].
  split; [intros ev Hin; now apply Hev |].
  split.
  { destruct (fst (MCP.invokeTool RegExp_valid RegExp_test gw clk name args))
      as [s r e rid].
    cbn [MCP.success MCP.result MCP.error MCP.tr_requestId] in *.
    subst rid.
    destruct Hshape as [(-> & -> & res & ->) | (-> & -> & [c m] & ->)].
    - left. exists res. split; reflexivity.
    - right. exists c, m. split; reflexivity. }
  clear Hid Hshape Hev. unfold MCP.invokeTool.
  split.
  { intros ->. reflexivity. }
  intros tool ->. split.
  { intros verr ->. reflexivity. }
  intros data ->. split.
  { intros d Hd Hdeny. unfold Policy.enforce. rewrite Hd, Hdeny. reflexivity. }
  intros eff ->. split.
  - intros [-> | (ms & c & -> & Hms)].
    + reflexivity.
    + cbn [Policy.executeWithTimeout].
      apply Z.ltb_ge in Hms. rewrite Hms. reflexivity.
  - intros res -> ->. reflexivity.
Qed.

(** ** Filesystem connector *)

Module PathFacts.
Import JSStringFacts PathShape NodePath.

Lemma split_char_go_sep (sep : ascii) (x rest cur : string) :
  has_char sep x = false ->
  split_char_go sep cur (x +:+ String sep rest)
  = (cur +:+ x) :: split_char_go sep EmptyString rest.
Proof.
  revert cur. induction x as [|c x IH]; intros cur H; simpl in *.
  - rewrite char_eqb_refl, append_nil_r. reflexivity.
  - apply orb_false_elim in H as [Hc Hx]. rewrite Hc.
    rewrite (IH _ Hx), append_snoc_cons. reflexivity.
Qed.

(** No piece of a split holds the separator. *)
Lemma split_char_go_pieces (sep : ascii) (s cur : string) :
  has_char sep cur = false ->
  Forall (fun x => has_char sep x = false) (split_char_go sep cur s).
Proof.
  revert cur. induction s as [|c s IH]; intros cur H; simpl.
  - repeat constructor. exact H.
  - destruct (char_eqb c sep) eqn:E.
    + constructor; [exact H | now apply IH].
    + apply IH. rewrite has_char_app, H. simpl. now rewrite E.
Qed.

Lemma join_cons2 (sep x y : string) (r : list string) :
  join sep (x :: y :: r) = x +:+ sep +:+ join sep (y :: r).
Proof. reflexivity. Qed.

(** Splitting a joined list gives the list back, also with a
    separator after it. *)
Lemma split_join (tail : list string) (segs : list string) :
  Forall (fun x => has_char "/" x = false) segs ->
  (tail = [] \/ tail = [EmptyString]) ->
  forall x cur,
    has_char "/" x = false ->
    split_char_go "/" cur
      (join "/" (x :: segs)
       +:+ match tail with [] => EmptyString | _ => "/" end)
    = (cur +:+ x) :: segs ++ tail.
Proof.
  intros Hs Ht. induction Hs as [|y segs Hy _ IH]; intros x cur Hx.
  - cbn [join]. destruct Ht as [-> | ->].
    + rewrite append_nil_r. simpl. now apply split_char_go_absent.
    + rewrite (split_char_go_sep "/" x EmptyString cur Hx). reflexivity.
  - rewrite join_cons2.
    change ("/" +:+ join "/" (y :: segs)) with (String "/" (join "/" (y :: segs))).
    rewrite append_assoc. cbn [String.append].
    change (String "/" (join "/" (y :: segs) +:+ ?t))
      with (String "/" (join "/" (y :: segs) +:+ t)).
    rewrite (split_char_go_sep "/" x _ cur Hx).
    rewrite (IH y EmptyString Hy). reflexivity.
Qed.

Lemma clean_spec (s : string) :
  clean s = true ->
  s <> EmptyString /\ String.eqb s "." = false /\ String.eqb s ".." = false
  /\ has_char "/" s = false.
Proof.
  unfold clean. intros H.
  apply andb_prop in H as [H H4]. apply andb_prop in H as [H H3].
  apply andb_prop in H as [H1 H2].
  apply negb_true_iff in H1, H2, H3, H4.
  apply String.eqb_neq in H1. auto.
Qed.

(** [normalize_segments] keeps clean segments and drops empty
    ones. *)
Lemma normalize_segments_clean (above : bool) (segs rev_out : list string) :
  Forall (fun s => s = EmptyString \/ clean s = true) segs ->
  normalize_segments above rev_out segs
  = rev rev_out
    ++ List.filter (fun s => negb (String.eqb s EmptyString)) segs.
Proof.
  intros H. revert rev_out.
  induction H as [|s segs Hs _ IH]; intros rev_out; simpl.
  - now rewrite app_nil_r.
  - destruct Hs as [-> | Hc].
    + simpl. apply IH.
    + destruct (clean_spec s Hc) as (H1 & H2 & H3 & _).
      apply String.eqb_neq in H1. rewrite H1, H2, H3. simpl.
      rewrite IH. simpl. now rewrite <- app_assoc.
Qed.

(** Below the root, whatever the segments, the result is clean. *)
Lemma normalize_segments_result (segs rev_out : list string) :
  Forall (fun x => has_char "/" x = false) segs ->
  Forall (fun s => clean s = true) rev_out ->
  Forall (fun s => clean s = true) (normalize_segments false rev_out segs).
Proof.
  intros H. revert rev_out.
  induction H as [|s segs Hs _ IH]; intros rev_out Hro; simpl.
  - now apply Forall_rev.
  - destruct (String.eqb s EmptyString) eqn:E1; simpl; [now apply IH |].
    destruct (String.eqb s ".") eqn:E2; simpl; [now apply IH |].
    destruct (String.eqb s "..") eqn:E3.
    + destruct rev_out as [|top below]; [now apply IH |].
      inversion Hro as [|? ? Htop Hbelow]; subst.
      destruct (clean_spec top Htop) as (_ & _ & Hdd & _).
      rewrite Hdd. now apply IH.
    + apply IH. constructor; [| exact Hro].
      unfold clean. now rewrite E1, E2, E3, Hs.
Qed.

(** A joined list of clean segments ends like its last segment:
    not with a separator. *)
Lemma endsWith_sep_nonempty (a s : string) :
  s <> EmptyString ->
  endsWith (a +:+ s) "/" = endsWith s "/".
Proof.
  intros Hs. induction a as [|c a IH]; [reflexivity |].
  simpl String.append. cbn [endsWith]. rewrite IH.
  destruct (String.eqb (String c (a +:+ s)) "/") eqn:E; [| reflexivity].
  apply String.eqb_eq in E. injection E as _ E.
  destruct a; simpl in E; [contradiction | discriminate].
Qed.

Lemma endsWith_sep_absent (s : string) :
  has_char "/" s = false -> endsWith s "/" = false.
Proof.
  intros H. destruct (endsWith s "/") eqn:E; [| reflexivity].
  apply endsWith_inv in E as [t ->].
  rewrite has_char_app in H. simpl in H. now rewrite orb_true_r in H.
Qed.

Lemma join_clean_trailing (segs : list string) (x : string) :
  Forall (fun s => clean s = true) (x :: segs) ->
  endsWith (join "/" (x :: segs)) "/" = false
  /\ join "/" (x :: segs) <> EmptyString.
Proof.
  revert x. induction segs as [|y segs IH]; intros x H.
  - inversion H as [|? ? Hx _]; subst.
    destruct (clean_spec x Hx) as (Hne & _ & _ & Hs).
    split; [now apply endsWith_sep_absent | exact Hne].
  - inversion H as [|? ? Hx Hrest]; subst.
    destruct (IH y Hrest) as [He Hne]. rewrite join_cons2. split.
    + rewrite <- append_assoc. now rewrite endsWith_sep_nonempty.
    + destruct (clean_spec x Hx) as (Hx' & _).
      destruct x; [contradiction | discriminate].
Qed.

Lemma clean_pieces (segs : list string) :
  Forall (fun s => clean s = true) segs ->
  Forall (fun x => has_char "/" x = false) segs
  /\ Forall (fun s => s = EmptyString \/ clean s = true) segs
  /\ List.filter (fun s => negb (String.eqb s EmptyString)) segs = segs.
Proof.
  induction 1 as [|s segs Hs _ (IH1 & IH2 & IH3)]; [repeat constructor |].
  destruct (clean_spec s Hs) as (Hne & _ & _ & Hc).
  split; [now constructor |]. split; [constructor; auto |].
  simpl. apply String.eqb_neq in Hne. rewrite Hne. simpl. now rewrite IH3.
Qed.

(** [normalizeString] on an absolute path of clean segments, with or
    without a trailing separator. *)
Lemma normalizeString_absolute_of (segs : list string) (trailing : bool) :
  Forall (fun s => clean s = true) segs ->
  normalizeString
    (absolute_of segs +:+ if trailing then "/" else EmptyString) false
  = join "/" segs.
Proof.
  intros H. unfold normalizeString, absolute_of, split_char. f_equal.
  destruct (clean_pieces segs H) as (Hp & Hc & Hf).
  destruct segs as [|x segs].
  - destruct trailing; reflexivity.
  - inversion Hp as [|? ? Hx Hps]; subst.
    change (("/" +:+ join "/" (x :: segs)) +:+ ?t)
      with (String "/" (join "/" (x :: segs) +:+ t)).
    cbn [split_char_go]. rewrite char_eqb_refl.
    destruct trailing.
    + rewrite (split_join [EmptyString] segs Hps (or_intror eq_refl)
                 x EmptyString Hx).
      change (EmptyString +:+ x) with x.
      change (x :: segs ++ [EmptyString]) with ((x :: segs) ++ [EmptyString]).
      rewrite normalize_segments_clean.
      * change (EmptyString :: (x :: segs) ++ [EmptyString])
          with (([EmptyString] ++ (x :: segs)) ++ [EmptyString]).
        rewrite !List.filter_app, Hf. cbn. now rewrite app_nil_r.
      * constructor; [now left |]. apply Forall_app. split; [exact Hc |].
        repeat constructor.
    + rewrite (split_join [] segs Hps (or_introl eq_refl) x EmptyString Hx).
      change (EmptyString +:+ x) with x.
      rewrite app_nil_r. rewrite normalize_segments_clean.
      * change (EmptyString :: x :: segs) with ([EmptyString] ++ (x :: segs)).
        rewrite List.filter_app, Hf. reflexivity.
      * constructor; [now left | exact Hc].
Qed.

Lemma normalize_absolute_of (segs : list string) :
  Forall (fun s => clean s = true) segs ->
  normalize (absolute_of segs) = absolute_of segs.
Proof.
  intros H. unfold normalize. cbv zeta.
  pose proof (normalizeString_absolute_of segs false H) as Hn.
  rewrite append_nil_r in Hn.
  change (String.eqb (absolute_of segs) EmptyString) with false.
  change (isAbsolute (absolute_of segs)) with true. cbv iota.
  cbn [negb]. rewrite Hn.
  destruct segs as [|x segs]; [reflexivity |].
  destruct (join_clean_trailing segs x H) as [He Hne].
  apply String.eqb_neq in Hne. rewrite Hne.
  unfold absolute_of at 1.
  rewrite endsWith_sep_nonempty by (now apply String.eqb_neq).
  rewrite He. reflexivity.
Qed.

Lemma resolve_absolute_of (cwd : string) (segs : list string) :
  Forall (fun s => clean s = true) segs ->
  resolve cwd (absolute_of segs) = absolute_of segs.
Proof.
  intros H. unfold resolve, resolve2. cbv zeta.
  change (String.eqb (absolute_of segs) EmptyString) with false.
  change (isAbsolute (absolute_of segs)) with true.
  cbn [fst snd negb]. cbv iota. cbn [fst snd negb].
  rewrite append_nil_r.
  rewrite (normalizeString_absolute_of segs true H). reflexivity.
Qed.

(** With an absolute working directory, [resolve] returns an
    absolute path of clean segments. *)
Lemma resolve2_shape (cwd a b : string) :
  isAbsolute cwd = true ->
  exists segs,
    Forall (fun s => clean s = true) segs
    /\ resolve2 cwd a b = absolute_of segs.
Proof.
  intros Hcwd.
  assert (Hne : String.eqb cwd EmptyString = false)
    by (destruct cwd; [discriminate | reflexivity]).
  assert (Hshape : forall path,
             exists segs,
               Forall (fun s => clean s = true) segs
               /\ "/" +:+ normalizeString path false = absolute_of segs).
  { intros path. eexists. split; [| reflexivity].
    apply normalize_segments_result; [| constructor].
    apply split_char_go_pieces. reflexivity. }
  unfold resolve2.
  destruct (String.eqb b EmptyString) eqn:Eb;
    [| destruct (isAbsolute b) eqn:Ab];
    cbn [fst snd];
    (destruct (String.eqb a EmptyString) eqn:Ea;
     [| destruct (isAbsolute a) eqn:Aa]);
    cbn [fst snd]; rewrite ?Hne, ?Hcwd; cbn [fst snd negb];
    apply Hshape.
Qed.

End PathFacts.

Module PathGuardFacts.
Import JSStringFacts PathShape NodePath PathFacts Filesystem.

Section WithCwd.

Variable cwd : string.
Hypothesis cwd_absolute : isAbsolute cwd = true.

Lemma canonical_shape (p : string) :
  exists segs,
    Forall (fun s => clean s = true) segs
    /\ canonical cwd p = absolute_of segs.
Proof.
  unfold canonical, resolve.
  destruct (resolve2_shape cwd EmptyString p cwd_absolute)
    as (segs & Hc & ->).
  exists segs. split; [exact Hc | now apply normalize_absolute_of].
Qed.

Lemma canonical_idempotent (p : string) :
  canonical cwd (canonical cwd p) = canonical cwd p.
Proof.
  destruct (canonical_shape p) as (segs & Hc & ->).
  unfold canonical. rewrite (resolve_absolute_of cwd segs Hc).
  now apply normalize_absolute_of.
Qed.

Lemma isPathAllowed_canonical (p : string) (allowed denied : list string) :
  isPathAllowed cwd (canonical cwd p) allowed denied
  = isPathAllowed cwd p allowed denied.
Proof. unfold isPathAllowed. now rewrite canonical_idempotent. Qed.

End WithCwd.
End PathGuardFacts.

(** X15. With an absolute working directory, [validatePath]
    accepts exactly the paths [isPathAllowed] accepts; [..] in the
    input only selects the message of the refusal. What it returns is
    the canonical form of the input: an absolute path without empty,
    [.] or [..] segments, which starts with the canonical form of an
    allowed entry and of no denied entry. Every refusal is a
    SecurityError. *)
Theorem validatePath_accepts_what_isPathAllowed_accepts
        (cwd path : string) (allowed denied : list string) :
  NodePath.isAbsolute cwd = true ->
  match Filesystem.validatePath cwd path allowed denied with
  | inr q =>
      q = Filesystem.canonical cwd path
      /\ Filesystem.isPathAllowed cwd path allowed denied = true
      /\ (exists segs,
             Forall (fun s => PathShape.clean s = true) segs
             /\ q = PathShape.absolute_of segs)
      /\ (exists a,
             In a allowed
             /\ startsWith q (Filesystem.canonical cwd a) = true)
      /\ (forall d,
             In d denied ->
             startsWith q (Filesystem.canonical cwd d) = false)
  | inl e =>
      Filesystem.isPathAllowed cwd path allowed denied = false
      /\ exists m, e = SecurityError m
  end.
Proof.
  intros Hcwd. unfold Filesystem.validatePath.
  rewrite (PathGuardFacts.isPathAllowed_canonical cwd Hcwd).
  destruct (Filesystem.isPathAllowed cwd path allowed denied) eqn:Hok.
  - rewrite andb_false_r. cbn [negb].
    split; [reflexivity |]. split; [reflexivity |].
    split; [apply (PathGuardFacts.canonical_shape cwd Hcwd) |].
    unfold Filesystem.isPathAllowed in Hok.
    destruct (existsb _ denied) eqn:Hd; [discriminate |].
    destruct (Nat.eqb (length allowed) 0); [discriminate |].
    apply existsb_exists in Hok as (a & Ha & Hs).
    split; [eauto |].
    intros d Hin.
    destruct (startsWith (Filesystem.canonical cwd path)
                         (Filesystem.canonical cwd d)) eqn:E;
      [| reflexivity].
    assert (existsb (fun denied0 =>
                       startsWith (Filesystem.canonical cwd path)
                                  (Filesystem.canonical cwd denied0)) denied
            = true) by (apply existsb_exists; eauto).
    congruence.
  - cbn [negb]. rewrite andb_true_r.
    destruct (includes path ".."); split; eauto.
Qed.

(** A relative path with [..] that stays inside the allowed
    directory. *)
Lemma validatePath_accepts_what_isPathAllowed_accepts_witness :
  match Filesystem.validatePath "/srv/app" "../app/data/./report.txt"
                                ["data"] ["/srv/app/data/private"] with
  | inr q =>
      q = Filesystem.canonical "/srv/app" "../app/data/./report.txt"
      /\ Filesystem.isPathAllowed "/srv/app" "../app/data/./report.txt"
                                  ["data"] ["/srv/app/data/private"] = true
      /\ (exists segs,
             Forall (fun s => PathShape.clean s = true) segs
             /\ q = PathShape.absolute_of segs)
      /\ (exists a,
             In a ["data"]
             /\ startsWith q (Filesystem.canonical "/srv/app" a) = true)
      /\ (forall d,
             In d ["/srv/app/data/private"] ->
             startsWith q (Filesystem.canonical "/srv/app" d) = false)
  | inl e =>
      Filesystem.isPathAllowed "/srv/app" "../app/data/./report.txt"
                               ["data"] ["/srv/app/data/private"] = false
      /\ exists m, e = SecurityError m
  end.
Proof.
  apply (validatePath_accepts_what_isPathAllowed_accepts
           "/srv/app" "../app/data/./report.txt"
           ["data"] ["/srv/app/data/private"]).
  reflexivity.
Defined.

Module ListingFacts.
Import Policy Config MCP Filesystem.

Section WithCwd.
Variable cwd : string.

(** An entry of a listing, with a path the guard accepts. *)
Lemma listDirectory_allowed (fsys : FileSystem) (cfg : FilesystemConfig)
      (recursive : bool) (levels : nat) :
  forall (dirPath : string) (ents : list JSValue),
    listDirectory cwd fsys cfg recursive levels dirPath = inr ents ->
    Forall (fun e =>
              exists name path type sz,
                e = entry_value name path type sz
                /\ isPathAllowed cwd path (allowed_paths cfg)
                                 (denied_paths cfg) = true) ents.
Proof.
  induction levels as [|levels IH]; intros dirPath ents.
  - cbn [listDirectory].
    destruct (lift (readdir fsys dirPath)) as [e|dirEntries];
      [discriminate |].
    revert ents. induction dirEntries as [|entry rest IHr]; intros ents.
    + intros [= <-]. constructor.
    + destruct (negb (isPathAllowed cwd _ _ _)) eqn:Hok.
      * destruct ((fix each (ents0 : list Dirent) := _) rest) as [e|more];
          [discriminate |].
        intros [= <-]. simpl. now apply IHr.
      * apply negb_false_iff in Hok.
        destruct (d_isFile entry).
        -- destruct (lift (stat fsys _)) as [e|st]; [discriminate |].
           destruct ((fix each (ents0 : list Dirent) := _) rest) as [e|more];
             [discriminate |].
           intros [= <-]. simpl. constructor; [eauto 6 | now apply IHr].
        -- destruct (d_isDirectory entry).
           ++ destruct ((fix each (ents0 : list Dirent) := _) rest)
                as [e|more]; [discriminate |].
              intros [= <-]. simpl. constructor; [eauto 6 | now apply IHr].
           ++ destruct ((fix each (ents0 : list Dirent) := _) rest)
                as [e|more]; [discriminate |].
              intros [= <-]. simpl. now apply IHr.
  - cbn [listDirectory].
    destruct (lift (readdir fsys dirPath)) as [e|dirEntries];
      [discriminate |].
    revert ents. induction dirEntries as [|entry rest IHr]; intros ents.
    + intros [= <-]. constructor.
    + destruct (negb (isPathAllowed cwd _ _ _)) eqn:Hok.
      * destruct ((fix each (ents0 : list Dirent) := _) rest) as [e|more];
          [discriminate |].
        intros [= <-]. simpl. now apply IHr.
      * apply negb_false_iff in Hok.
        destruct (d_isFile entry).
        -- destruct (lift (stat fsys _)) as [e|st]; [discriminate |].
           destruct ((fix each (ents0 : list Dirent) := _) rest) as [e|more];
             [discriminate |].
           intros [= <-]. simpl. constructor; [eauto 6 | now apply IHr].
        -- destruct (d_isDirectory entry).
           ++ destruct recursive.
              ** destruct (listDirectory cwd fsys cfg true levels _)
                   as [e|sub] eqn:Hsub; [discriminate |].
                 destruct ((fix each (ents0 : list Dirent) := _) rest)
                   as [e|more]; [discriminate |].
                 intros [= <-]. simpl. constructor; [eauto 6 |].
                 apply Forall_app. split; [| now apply IHr].
                 eapply IH, Hsub.
              ** destruct ((fix each (ents0 : list Dirent) := _) rest)
                   as [e|more]; [discriminate |].
                 intros [= <-]. simpl. constructor; [eauto 6 | now apply IHr].
           ++ destruct ((fix each (ents0 : list Dirent) := _) rest)
                as [e|more]; [discriminate |].
              intros [= <-]. simpl. now apply IHr.
Qed.

End WithCwd.
End ListingFacts.

(** X16. When [fs.readFile] resolves, the path it reports passed
    [isPathAllowed], is a regular file no larger than
    [max_file_size], the content is what the filesystem holds at that
    path, and the reported encoding is utf-8, base64 or hex ([utf8]
    is reported as utf-8). *)
Theorem readFile_returns_only_allowed_files_within_size
        (cwd : string) (fsys : Filesystem.FileSystem)
        (cfg : Config.FilesystemConfig) (args v : JSValue) (ms : Z) :
  Filesystem.readFile_handler cwd fsys cfg args
  = Policy.AfterMs ms (Policy.Resolved v) ->
  exists p st enc content,
    v = JObj [("path", JStr p); ("content", JStr content);
              ("size", JNum (Filesystem.size st)); ("encoding", JStr enc)]
    /\ Filesystem.isPathAllowed cwd p (Config.allowed_paths cfg)
                                (Config.denied_paths cfg) = true
    /\ Filesystem.stat fsys p = inr st
    /\ Filesystem.isFile st = true
    /\ Filesystem.size st <= Config.max_file_size cfg
    /\ Filesystem.readFile fsys p enc = inr content
    /\ In enc ["utf-8"; "base64"; "hex"].
Proof.
  unfold Filesystem.readFile_handler.
  destruct (Filesystem.readFileSchema args) as [data| |] eqn:Hparse;
    try discriminate.
  destruct data as [| | | | | |ps]; try discriminate.
  destruct ps as [|[k1 [| | | |path| |]] ps]; try discriminate.
  destruct ps as [|[k2 [| | | |encoding| |]] ps]; try discriminate.
  destruct ps; try discriminate.
  assert (Henc : In encoding Filesystem.encodings).
  { unfold Filesystem.readFileSchema in Hparse.
    destruct args as [| | | | | |qs]; try discriminate.
    destruct (get_prop "path" qs) as [[| | | |p| |]|]; try discriminate.
    destruct (get_prop "encoding" qs) as [[| | | |e| |]|]; try discriminate.
    - injection Hparse as <- <- <- <-. simpl. auto.
    - destruct (string_in e Filesystem.encodings) eqn:He; [| discriminate].
      injection Hparse as <- <- <- <-.
      now apply JSStringFacts.string_in_In.
    - injection Hparse as <- <- <- <-. simpl. auto. }
  unfold Filesystem.validatePath.
  destruct (includes path ".." && _); [discriminate |].
  destruct (Filesystem.isPathAllowed cwd (Filesystem.canonical cwd path) _ _)
    eqn:Hok; [| discriminate].
  cbn [negb].
  destruct (Filesystem.stat fsys _) as [e|st] eqn:Hst; cbn [Filesystem.lift];
    [discriminate |].
  destruct (Config.max_file_size cfg <? Filesystem.size st) eqn:Hsz;
    [discriminate |].
  destruct (Filesystem.isFile st) eqn:Hfile; cbn [negb]; [| discriminate].
  destruct (Filesystem.readFile fsys _ _) as [e|content] eqn:Hread;
    cbn [Filesystem.lift]; [discriminate |].
  intros [= _ <-].
  exists (Filesystem.canonical cwd path), st,
    (if String.eqb encoding "utf8" then "utf-8" else encoding), content.
  apply Z.ltb_ge in Hsz.
  repeat (split; [first [reflexivity | assumption] |]).
  destruct Henc as [<- | [<- | [<- | [<- | []]]]]; simpl; auto.
Qed.

(** Reading [/allow/foo] with the encoding [utf8]. *)
Lemma readFile_returns_only_allowed_files_within_size_witness :
  exists p st enc content,
    JObj [("path", JStr "/allow/foo"); ("content", JStr "secret");
          ("size", JNum 6); ("encoding", JStr "utf-8")]
    = JObj [("path", JStr p); ("content", JStr content);
            ("size", JNum (Filesystem.size st)); ("encoding", JStr enc)]
    /\ Filesystem.isPathAllowed "/" p
         (Config.allowed_paths (Examples.fs_config ["/allow"] ["/etc"]))
         (Config.denied_paths (Examples.fs_config ["/allow"] ["/etc"]))
       = true
    /\ Filesystem.stat Examples.fs_two_dirs p = inr st
    /\ Filesystem.isFile st = true
    /\ Filesystem.size st
       <= Config.max_file_size (Examples.fs_config ["/allow"] ["/etc"])
    /\ Filesystem.readFile Examples.fs_two_dirs p enc = inr content
    /\ In enc ["utf-8"; "base64"; "hex"].
Proof.
  apply (readFile_returns_only_allowed_files_within_size
           "/" Examples.fs_two_dirs (Examples.fs_config ["/allow"] ["/etc"])
           (JObj [("path", JStr "/allow/foo"); ("encoding", JStr "utf8")])
           (JObj [("path", JStr "/allow/foo"); ("content", JStr "secret");
                  ("size", JNum 6); ("encoding", JStr "utf-8")])
           2).
  vm_compute. reflexivity.
Defined.

(** X17. When [fs.listDir] resolves, the directory passed
    [isPathAllowed] and is a directory, [count] is the number of
    entries, and every entry listed, at every depth, has a path that
    [isPathAllowed] accepts. *)
Theorem listDir_lists_only_allowed_entries
        (cwd : string) (fsys : Filesystem.FileSystem)
        (cfg : Config.FilesystemConfig) (args v : JSValue) (ms : Z) :
  Filesystem.listDir_handler cwd fsys cfg args
  = Policy.AfterMs ms (Policy.Resolved v) ->
  exists p ents,
    v = JObj [("path", JStr p); ("entries", JArr ents);
              ("count", JNum (Z.of_nat (length ents)))]
    /\ Filesystem.isPathAllowed cwd p (Config.allowed_paths cfg)
                                (Config.denied_paths cfg) = true
    /\ (exists st,
           Filesystem.stat fsys p = inr st
           /\ Filesystem.isDirectory st = true)
    /\ Forall (fun e =>
                 exists name path type sz,
                   e = Filesystem.entry_value name path type sz
                   /\ Filesystem.isPathAllowed cwd path
                        (Config.allowed_paths cfg)
                        (Config.denied_paths cfg) = true) ents.
Proof.
  unfold Filesystem.listDir_handler.
  destruct (Filesystem.listDirSchema args) as [data| |]; try discriminate.
  destruct data as [| | | | | |ps]; try discriminate.
  destruct ps as [|[k1 [| | | |path| |]] ps]; try discriminate.
  destruct ps as [|[k2 [| |recursive| | | |]] ps]; try discriminate.
  destruct ps as [|[k3 [| | |maxDepth| | |]] ps]; try discriminate.
  destruct ps; try discriminate.
  unfold Filesystem.validatePath.
  destruct (includes path ".." && _); [discriminate |].
  destruct (Filesystem.isPathAllowed cwd (Filesystem.canonical cwd path) _ _)
    eqn:Hok; [| discriminate].
  cbn [negb].
  destruct (Filesystem.stat fsys _) as [e|st] eqn:Hst; cbn [Filesystem.lift];
    [discriminate |].
  destruct (Filesystem.isDirectory st) eqn:Hdir; cbn [negb]; [| discriminate].
  destruct (Filesystem.listDirectory cwd fsys cfg recursive _ _)
    as [e|ents] eqn:Hl; [discriminate |].
  intros [= _ <-].
  exists (Filesystem.canonical cwd path), ents.
  split; [reflexivity |]. split; [exact Hok |]. split; [eauto |].
  eapply ListingFacts.listDirectory_allowed, Hl.
Qed.

(** Listing [/allow]. *)
Lemma listDir_lists_only_allowed_entries_witness :
  exists p ents,
    JObj [("path", JStr "/allow");
          ("entries",
           JArr [Filesystem.entry_value "foo" "/allow/foo" "file" (Some 6)]);
          ("count", JNum 1)]
    = JObj [("path", JStr p); ("entries", JArr ents);
            ("count", JNum (Z.of_nat (length ents)))]
    /\ Filesystem.isPathAllowed "/" p
         (Config.allowed_paths (Examples.fs_config ["/allow"] ["/etc"]))
         (Config.denied_paths (Examples.fs_config ["/allow"] ["/etc"]))
       = true
    /\ (exists st,
           Filesystem.stat Examples.fs_two_dirs p = inr st
           /\ Filesystem.isDirectory st = true)
    /\ Forall (fun e =>
                 exists name path type sz,
                   e = Filesystem.entry_value name path type sz
                   /\ Filesystem.isPathAllowed "/" path
                        (Config.allowed_paths
                           (Examples.fs_config ["/allow"] ["/etc"]))
                        (Config.denied_paths
                           (Examples.fs_config ["/allow"] ["/etc"]))
                      = true) ents.
Proof.
  apply (listDir_lists_only_allowed_entries
           "/" Examples.fs_two_dirs (Examples.fs_config ["/allow"] ["/etc"])
           (JObj [("path", JStr "/allow")])
           (JObj [("path", JStr "/allow");
                  ("entries",
                   JArr [Filesystem.entry_value "foo" "/allow/foo" "file"
                                                (Some 6)]);
                  ("count", JNum 1)])
           2).
  vm_compute. reflexivity.
Defined.

(** ** HTTP fetch connector *)

Module DomainMore.
Import JSStringFacts DomainFacts HttpFetch.

Lemma domain_matches_subdomain (h entry sub : string) :
  domain_matches h entry = true ->
  domain_matches (sub +:+ "." +:+ h) entry = true.
Proof.
  rewrite !domain_matches_iff. intros [-> | [t ->]]; right.
  - now exists sub.
  - exists (sub +:+ "." +:+ t). now rewrite !append_assoc.
Qed.

Lemma denied_by_subdomain (h sub : string) (denied : list string) :
  denied_by h denied = true ->
  denied_by (sub +:+ "." +:+ h) denied = true.
Proof.
  unfold denied_by. rewrite !existsb_exists.
  intros (d & Hin & Hm). exists d. split; [exact Hin |].
  now apply domain_matches_subdomain.
Qed.

Lemma allowed_by_entry_subdomain (h sub entry : string) :
  allowed_by_entry h entry = true ->
  allowed_by_entry (sub +:+ "." +:+ h) entry = true.
Proof.
  unfold allowed_by_entry. rewrite !orb_true_iff, !andb_true_iff.
  intros [H | [Hw H]]; [left | right; split; [exact Hw |]];
    now apply domain_matches_subdomain.
Qed.

Lemma existsb_through_map {A B : Type} (f : B -> bool) (g : A -> B)
      (l : list A) :
  existsb f (map g l) = existsb (fun x => f (g x)) l.
Proof. induction l as [|x l IH]; simpl; [reflexivity | now rewrite IH]. Qed.

(** Both lists are read through [toLowerCase]. *)
Lemma denied_by_lower (h : string) (denied : list string) :
  denied_by h denied
  = existsb (domain_matches h) (map toLowerCase denied).
Proof. unfold denied_by. now rewrite existsb_through_map. Qed.

Lemma allowed_by_lower (h : string) (allowed : list string) :
  existsb (allowed_by_entry h) allowed
  = existsb (fun e => domain_matches h e
                      || (startsWith e "*." && domain_matches h (slice 2 e)))
            (map toLowerCase allowed).
Proof. now rewrite existsb_through_map. Qed.

End DomainMore.

(** X18. Both domain lists reach down to subdomains: when a host
    matches a denied entry, [isDomainAllowed] refuses every subdomain
    of it whatever the allowed list says; and when a host is admitted,
    so is each of its subdomains that no denied entry matches. *)
Theorem domain_lists_cover_subdomains
        (URL_parse : string -> option HttpFetch.URL)
        (url url' : string) (parsed parsed' : HttpFetch.URL) (sub : string)
        (allowed denied : list string) :
  URL_parse url = Some parsed ->
  URL_parse url' = Some parsed' ->
  toLowerCase (HttpFetch.hostname parsed')
  = sub +:+ "." +:+ toLowerCase (HttpFetch.hostname parsed) ->
  (HttpFetch.denied_by (toLowerCase (HttpFetch.hostname parsed)) denied
   = true ->
   HttpFetch.isDomainAllowed URL_parse url' allowed denied = false)
  /\ (HttpFetch.isDomainAllowed URL_parse url allowed denied = true ->
      HttpFetch.denied_by (toLowerCase (HttpFetch.hostname parsed')) denied
      = false ->
      HttpFetch.isDomainAllowed URL_parse url' allowed denied = true).
Proof.
  intros Hp Hp' Hsub. unfold HttpFetch.isDomainAllowed, HttpFetch.host_allowed.
  rewrite Hp, Hp'. cbv beta iota. rewrite Hsub. split.
  - intros Hd.
    pose proof (DomainMore.denied_by_subdomain _ sub denied Hd) as Hd'.
    now rewrite Hd'.
  - destruct (HttpFetch.denied_by (toLowerCase (HttpFetch.hostname parsed))
                                  denied); [discriminate |].
    destruct (Nat.eqb (length allowed) 0); [discriminate |].
    intros Ha Hd. rewrite Hd.
    apply existsb_exists in Ha as (a & Hin & Ha).
    apply existsb_exists. exists a. split; [exact Hin |].
    now apply DomainMore.allowed_by_entry_subdomain.
Qed.

(** [example.com] and [api.example.com]. *)
Lemma domain_lists_cover_subdomains_witness :
  (HttpFetch.denied_by "example.com" ["internal.example.com"] = true ->
   HttpFetch.isDomainAllowed HttpFetch.simple_URL_parse
     "https://API.example.com/v1" ["Example.COM"] ["internal.example.com"]
   = false)
  /\ (HttpFetch.isDomainAllowed HttpFetch.simple_URL_parse
        "https://example.com/" ["Example.COM"] ["internal.example.com"]
      = true ->
      HttpFetch.denied_by "api.example.com" ["internal.example.com"] = false ->
      HttpFetch.isDomainAllowed HttpFetch.simple_URL_parse
        "https://API.example.com/v1" ["Example.COM"] ["internal.example.com"]
      = true).
Proof.
  apply (domain_lists_cover_subdomains
           HttpFetch.simple_URL_parse
           "https://example.com/" "https://API.example.com/v1"
           {| HttpFetch.protocol := "https:";
              HttpFetch.hostname := "example.com";
              HttpFetch.href := "https://example.com/" |}
           {| HttpFetch.protocol := "https:";
              HttpFetch.hostname := "api.example.com";
              HttpFetch.href := "https://API.example.com/v1" |}
           "api" ["Example.COM"] ["internal.example.com"]);
    reflexivity.
Defined.

(** X19. [isDomainAllowed] reads the entries of both lists through
    [toLowerCase]: two configurations whose lists agree up to letter
    case give the same verdict on every URL. *)
Theorem domain_entries_match_case_insensitively
        (URL_parse : string -> option HttpFetch.URL) (url : string)
        (allowed allowed' denied denied' : list string) :
  map toLowerCase allowed = map toLowerCase allowed' ->
  map toLowerCase denied = map toLowerCase denied' ->
  HttpFetch.isDomainAllowed URL_parse url allowed denied
  = HttpFetch.isDomainAllowed URL_parse url allowed' denied'.
Proof.
  intros Ha Hd. unfold HttpFetch.isDomainAllowed, HttpFetch.host_allowed.
  destruct (URL_parse url) as [parsed|]; [| reflexivity].
  rewrite !DomainMore.denied_by_lower, Hd.
  rewrite !DomainMore.allowed_by_lower, Ha.
  apply (f_equal (@length string)) in Ha. rewrite !length_map in Ha.
  now rewrite Ha.
Qed.

(** Entries in mixed case against the same in lower case. *)
Lemma domain_entries_match_case_insensitively_witness :
  HttpFetch.isDomainAllowed HttpFetch.simple_URL_parse
    "https://api.example.com/v1" ["*.Example.COM"] ["Internal.Example.com"]
  = HttpFetch.isDomainAllowed HttpFetch.simple_URL_parse
      "https://api.example.com/v1" ["*.example.com"] ["internal.example.com"].
Proof.
  apply (domain_entries_match_case_insensitively
           HttpFetch.simple_URL_parse "https://api.example.com/v1"
           ["*.Example.COM"] ["*.example.com"]
           ["Internal.Example.com"] ["internal.example.com"]);
    reflexivity.
Defined.

Module HeaderFacts.
Import JSStringFacts HttpFetch.

Lemma set_header_In (k v : string) (hs : list (string * string)) :
  In (k, v) (set_header k v hs).
Proof.
  induction hs as [|[k' v'] hs IH]; simpl; [now left |].
  destruct (String.eqb k' k) eqn:E.
  - apply String.eqb_eq in E. subst k'. now left.
  - now right.
Qed.

Lemma set_header_other (k v k' v' : string) (hs : list (string * string)) :
  k' <> k ->
  In (k', v') (set_header k v hs) <-> In (k', v') hs.
Proof.
  intros Hne. induction hs as [|[k0 v0] hs IH]; simpl.
  - split; [intros [[= -> ->] | []]; contradiction | intros []].
  - destruct (String.eqb k0 k) eqn:E; simpl.
    + apply String.eqb_eq in E. subst k0.
      split; intros [[= -> ->] | H]; try contradiction; now right.
    + rewrite IH. reflexivity.
Qed.

Lemma set_header_same (k v v' : string) (hs : list (string * string)) :
  List.NoDup (map fst hs) ->
  In (k, v') (set_header k v hs) -> v' = v.
Proof.
  induction hs as [|[k0 v0] hs IH]; simpl.
  - intros _ [[= ->] | []]. reflexivity.
  - intros Hnd. apply List.NoDup_cons_iff in Hnd as [Hnotin Hnd].
    destruct (String.eqb k0 k) eqn:E; simpl.
    + apply String.eqb_eq in E. subst k0.
      intros [[= ->] | H]; [reflexivity |].
      elim Hnotin. apply in_map_iff. now exists (k, v').
    + apply String.eqb_neq in E.
      intros [[= -> ->] | H]; [contradiction | now apply IH].
Qed.

(** The filter of [safe_headers], as a boolean filter. *)
Lemma filter_bool {A : Type} (f : A -> bool) (l : list A) :
  filter (fun x => f x) l = List.filter f l.
Proof.
  induction l as [|x l IH]; [reflexivity |].
  cbn [List.filter]. rewrite <- IH. unfold filter at 1. cbn [list_filter].
  destruct (decide (f x)) as [H|H]; destruct (f x); simpl in *;
    try reflexivity; contradiction.
Qed.

Lemma NoDup_filter_keys (f : string * string -> bool)
      (hs : list (string * string)) :
  List.NoDup (map fst hs) -> List.NoDup (map fst (List.filter f hs)).
Proof.
  induction hs as [|[k v] hs IH]; simpl; [constructor |].
  intros Hnd. apply List.NoDup_cons_iff in Hnd as [Hnotin Hnd].
  destruct (f (k, v)); [| now apply IH].
  simpl. constructor; [| now apply IH].
  intros Hin. apply Hnotin. apply in_map_iff in Hin as ([k' v'] & <- & Hin).
  apply List.filter_In in Hin as [Hin _]. apply in_map_iff. now exists (k', v').
Qed.

(** What [safe_headers] holds beside [User-Agent]: the caller's
    headers that are neither blocked nor spelled [__proto__]. *)
Lemma safe_headers_other (headers : list (string * string))
      (k v : string) :
  k <> "User-Agent" ->
  (In (k, v) (safe_headers headers)
   <-> In (k, v) headers
       /\ string_in (toLowerCase k) blockedHeaders = false
       /\ k <> "__proto__").
Proof.
  intros Hne. unfold safe_headers. rewrite filter_bool.
  rewrite set_header_other by exact Hne.
  rewrite List.filter_In. cbn [fst].
  rewrite andb_true_iff, !negb_true_iff, String.eqb_neq. reflexivity.
Qed.


End HeaderFacts.

(** X20. The object [web.fetch] hands to [fetch] as headers, for
    a caller's headers with distinct names. It holds no
    [authorization], [cookie], [x-api-key] or [api-key] in any letter
    case and no [__proto__]. Under the name [User-Agent], in exactly
    this spelling, it holds [MCP-Gateway/1.0] whatever the caller
    supplied there. Every other header of the caller is passed on
    unchanged; that includes a [user-agent] in another spelling,
    which is handed to [fetch] beside the gateway's own. *)
Theorem safe_headers_drop_credentials (headers : list (string * string)) :
  List.NoDup (map fst headers) ->
  (forall k v,
      In (k, v) (HttpFetch.safe_headers headers) ->
      string_in (toLowerCase k) HttpFetch.blockedHeaders = false
      /\ k <> "__proto__")
  /\ (forall v,
         In ("User-Agent", v) (HttpFetch.safe_headers headers)
         <-> v = "MCP-Gateway/1.0")
  /\ (forall k v,
         k <> "User-Agent" ->
         (In (k, v) (HttpFetch.safe_headers headers)
          <-> In (k, v) headers
              /\ string_in (toLowerCase k) HttpFetch.blockedHeaders = false
              /\ k <> "__proto__"))
  /\ (forall k v,
         In (k, v) headers ->
         toLowerCase k = "user-agent" ->
         k <> "User-Agent" ->
         In (k, v) (HttpFetch.safe_headers headers)).
Proof.
  intros Hnd. split; [| split; [| split]].
  - intros k v Hin.
    destruct (String.eqb k "User-Agent") eqn:E.
    + apply String.eqb_eq in E. subst k. split; [reflexivity | discriminate].
    + apply String.eqb_neq in E.
      now apply HeaderFacts.safe_headers_other in Hin as (_ & H1 & H2).
  - intros v. unfold HttpFetch.safe_headers.
    rewrite HeaderFacts.filter_bool. split.
    + apply HeaderFacts.set_header_same.
      now apply HeaderFacts.NoDup_filter_keys.
    + intros ->. apply HeaderFacts.set_header_In.
  - intros k v Hne. now apply HeaderFacts.safe_headers_other.
  - intros k v Hin Hlow Hne.
    apply HeaderFacts.safe_headers_other; [exact Hne |].
    split; [exact Hin |]. rewrite Hlow. split; [reflexivity |].
    intros ->. discriminate Hlow.
Qed.

(** Six headers of a caller: two credentials, a [User-Agent], a
    [user-agent] and a [__proto__]. *)
Lemma safe_headers_drop_credentials_witness :
  (forall k v,
      In (k, v)
         (HttpFetch.safe_headers
            [("Accept", "text/html"); ("Authorization", "Bearer abc");
             ("User-Agent", "curl/8"); ("COOKIE", "sid=1");
             ("user-agent", "bot"); ("__proto__", "x")]) ->
      string_in (toLowerCase k) HttpFetch.blockedHeaders = false
      /\ k <> "__proto__")
  /\ (forall v,
         In ("User-Agent", v)
            (HttpFetch.safe_headers
               [("Accept", "text/html"); ("Authorization", "Bearer abc");
                ("User-Agent", "curl/8"); ("COOKIE", "sid=1");
                ("user-agent", "bot"); ("__proto__", "x")])
         <-> v = "MCP-Gateway/1.0")
  /\ (forall k v,
         k <> "User-Agent" ->
         (In (k, v)
             (HttpFetch.safe_headers
                [("Accept", "text/html"); ("Authorization", "Bearer abc");
                 ("User-Agent", "curl/8"); ("COOKIE", "sid=1");
                 ("user-agent", "bot"); ("__proto__", "x")])
          <-> In (k, v)
                 [("Accept", "text/html"); ("Authorization", "Bearer abc");
                  ("User-Agent", "curl/8"); ("COOKIE", "sid=1");
                  ("user-agent", "bot"); ("__proto__", "x")]
              /\ string_in (toLowerCase k) HttpFetch.blockedHeaders = false
              /\ k <> "__proto__"))
  /\ (forall k v,
         In (k, v)
            [("Accept", "text/html"); ("Authorization", "Bearer abc");
             ("User-Agent", "curl/8"); ("COOKIE", "sid=1");
             ("user-agent", "bot"); ("__proto__", "x")] ->
         toLowerCase k = "user-agent" ->
         k <> "User-Agent" ->
         In (k, v)
            (HttpFetch.safe_headers
               [("Accept", "text/html"); ("Authorization", "Bearer abc");
                ("User-Agent", "curl/8"); ("COOKIE", "sid=1");
                ("user-agent", "bot"); ("__proto__", "x")])).
Proof.
  apply (safe_headers_drop_credentials
           [("Accept", "text/html"); ("Authorization", "Bearer abc");
            ("User-Agent", "curl/8"); ("COOKIE", "sid=1");
            ("user-agent", "bot"); ("__proto__", "x")]).
  simpl. repeat constructor; simpl; intuition discriminate.
Defined.

Module RequestFacts.
Import Policy Config MCP HttpFetch HttpRequest.




End RequestFacts.



(** ** PostgreSQL connector *)

Module SqlCaseFacts.
Import JSStringFacts Postgres.

Ltac by_cases_on_char c :=
  destruct c as [[] [] [] [] [] [] [] []]; reflexivity.

Lemma upper_char_ws (c : ascii) : is_ws (upper_char c) = is_ws c.
Proof. by_cases_on_char c. Qed.

Lemma upper_char_terminator (c : ascii) :
  is_line_terminator (upper_char c) = is_line_terminator c.
Proof. by_cases_on_char c. Qed.

Lemma upper_char_dash (c : ascii) :
  char_eqb (upper_char c) "-" = char_eqb c "-".
Proof. by_cases_on_char c. Qed.

Lemma upper_char_slash (c : ascii) :
  char_eqb (upper_char c) "/" = char_eqb c "/".
Proof. by_cases_on_char c. Qed.

Lemma upper_char_star (c : ascii) :
  char_eqb (upper_char c) "*" = char_eqb c "*".
Proof. by_cases_on_char c. Qed.

Lemma startsWith_upper_dash (s : string) :
  startsWith (toUpperCase s) "-" = startsWith s "-".
Proof.
  destruct s as [|c s]; [reflexivity |]. simpl.
  now rewrite upper_char_dash.
Qed.

Lemma startsWith_upper_star (s : string) :
  startsWith (toUpperCase s) "*" = startsWith s "*".
Proof.
  destruct s as [|c s]; [reflexivity |]. simpl.
  now rewrite upper_char_star.
Qed.

Lemma startsWith_upper_slash (s : string) :
  startsWith (toUpperCase s) "/" = startsWith s "/".
Proof.
  destruct s as [|c s]; [reflexivity |]. simpl.
  now rewrite upper_char_slash.
Qed.

Lemma startsWith_upper_close (s : string) :
  startsWith (toUpperCase s) "*/" = startsWith s "*/".
Proof.
  destruct s as [|c s]; [reflexivity |].
  change (toUpperCase (String c s)) with (String (upper_char c) (toUpperCase s)).
  change (startsWith (String (upper_char c) (toUpperCase s)) "*/")
    with (char_eqb (upper_char c) "*" && startsWith (toUpperCase s) "/").
  change (startsWith (String c s) "*/")
    with (char_eqb c "*" && startsWith s "/").
  now rewrite upper_char_star, startsWith_upper_slash.
Qed.

Lemma includes_upper_close (s : string) :
  includes (toUpperCase s) "*/" = includes s "*/".
Proof.
  induction s as [|c s IH]; [reflexivity |].
  change (toUpperCase (String c s)) with (String (upper_char c) (toUpperCase s)).
  cbn [includes].
  change (String (upper_char c) (toUpperCase s))
    with (toUpperCase (String c s)).
  now rewrite startsWith_upper_close, IH.
Qed.

Lemma slice_upper (n : nat) (s : string) :
  slice n (toUpperCase s) = toUpperCase (slice n s).
Proof.
  revert s. induction n as [|n IH]; intros s; [reflexivity |].
  destruct s as [|c s]; [reflexivity |]. simpl. apply IH.
Qed.

Lemma strip_line_comments_upper (b : bool) (s : string) :
  strip_line_comments_go b (toUpperCase s)
  = toUpperCase (strip_line_comments_go b s).
Proof.
  revert b. induction s as [|c s IH]; intros b; [reflexivity |].
  change (toUpperCase (String c s)) with (String (upper_char c) (toUpperCase s)).
  cbn [strip_line_comments_go].
  rewrite upper_char_terminator, upper_char_dash, startsWith_upper_dash, !IH.
  destruct b.
  - destruct (is_line_terminator c); reflexivity.
  - destruct (char_eqb c "-" && startsWith s "-"); reflexivity.
Qed.

Lemma strip_block_comments_upper (st : scan) (s : string) :
  strip_block_comments_go st (toUpperCase s)
  = toUpperCase (strip_block_comments_go st s).
Proof.
  revert st. induction s as [|c s IH]; intros st; [reflexivity |].
  change (toUpperCase (String c s)) with (String (upper_char c) (toUpperCase s)).
  cbn [strip_block_comments_go].
  rewrite upper_char_slash, upper_char_star, startsWith_upper_star,
    startsWith_upper_slash, slice_upper, includes_upper_close, !IH.
  destruct st.
  - destruct (char_eqb c "/" && startsWith s "*" && includes (slice 1 s) "*/");
      reflexivity.
  - reflexivity.
  - destruct (char_eqb c "*" && startsWith s "/"); reflexivity.
  - reflexivity.
Qed.

Lemma collapse_ws_upper (b : bool) (s : string) :
  collapse_ws_go b (toUpperCase s) = toUpperCase (collapse_ws_go b s).
Proof.
  revert b. induction s as [|c s IH]; intros b; [reflexivity |].
  change (toUpperCase (String c s)) with (String (upper_char c) (toUpperCase s)).
  cbn [collapse_ws_go]. rewrite upper_char_ws, !IH.
  destruct (is_ws c); [destruct b |]; reflexivity.
Qed.

Lemma trimStart_upper (s : string) :
  trimStart (toUpperCase s) = toUpperCase (trimStart s).
Proof.
  induction s as [|c s IH]; [reflexivity |].
  change (toUpperCase (String c s)) with (String (upper_char c) (toUpperCase s)).
  cbn [trimStart]. rewrite upper_char_ws, IH.
  destruct (is_ws c); reflexivity.
Qed.

Lemma all_ws_upper (s : string) : all_ws (toUpperCase s) = all_ws s.
Proof.
  induction s as [|c s IH]; [reflexivity |].
  change (toUpperCase (String c s)) with (String (upper_char c) (toUpperCase s)).
  cbn [all_ws]. now rewrite upper_char_ws, IH.
Qed.

Lemma trimEnd_upper (s : string) :
  trimEnd (toUpperCase s) = toUpperCase (trimEnd s).
Proof.
  induction s as [|c s IH]; [reflexivity |].
  change (toUpperCase (String c s)) with (String (upper_char c) (toUpperCase s)).
  cbn [trimEnd].
  change (String (upper_char c) (toUpperCase s))
    with (toUpperCase (String c s)) at 1.
  rewrite all_ws_upper, IH. destruct (all_ws (String c s)); reflexivity.
Qed.

(** The normalized text is a function of the upper-cased query. *)
Lemma normalizeSql_upper (sql : string) :
  normalizeSql sql
  = trim (collapse_ws (strip_block_comments
                         (strip_line_comments (toUpperCase sql)))).
Proof.
  unfold normalizeSql, trim, collapse_ws, strip_block_comments,
    strip_line_comments.
  now rewrite strip_line_comments_upper, strip_block_comments_upper,
    collapse_ws_upper, trimStart_upper, trimEnd_upper.
Qed.

End SqlCaseFacts.

(** X22. [validateReadOnlyQuery] does not look at letter case: two
    queries with the same upper-casing have the same normalized text
    and get the same verdict, with the same message. *)
Theorem sql_verdict_ignores_letter_case (a b : string) :
  toUpperCase a = toUpperCase b ->
  Postgres.normalizeSql a = Postgres.normalizeSql b
  /\ Postgres.validateReadOnlyQuery a = Postgres.validateReadOnlyQuery b.
Proof.
  intros H.
  assert (Hn : Postgres.normalizeSql a = Postgres.normalizeSql b)
    by (rewrite !SqlCaseFacts.normalizeSql_upper; now rewrite H).
  split; [exact Hn |].
  unfold Postgres.validateReadOnlyQuery. now rewrite Hn.
Qed.

(** The same query in lower and in upper case. *)
Lemma sql_verdict_ignores_letter_case_witness :
  Postgres.normalizeSql "select id from t -- Drop"
  = Postgres.normalizeSql "SELECT ID FROM T -- DROP"
  /\ Postgres.validateReadOnlyQuery "select id from t -- Drop"
     = Postgres.validateReadOnlyQuery "SELECT ID FROM T -- DROP".
Proof.
  apply (sql_verdict_ignores_letter_case
           "select id from t -- Drop" "SELECT ID FROM T -- DROP").
  reflexivity.
Defined.

Module PostgresMore.
Import Policy Config MCP PostgresConnector.

(** The rows kept and the rows left out under a limit. *)
Lemma slice0_split (n : Z) (xs : list JSValue) :
  0 <= n ->
  exists rest,
    xs = slice0 n xs ++ rest
    /\ Z.of_nat (length (slice0 n xs)) <= n
    /\ (rest = [] \/ Z.of_nat (length (slice0 n xs)) = n)
    /\ (n <? Z.of_nat (length xs))
       = match rest with [] => false | _ :: _ => true end.
Proof.
  intros Hn. unfold slice0. apply Z.leb_le in Hn as Hb. rewrite Hb.
  exists (drop (Z.to_nat n) xs).
  split; [symmetry; apply take_drop |].
  rewrite length_take.
  pose proof (length_drop xs (Z.to_nat n)) as Hd.
  destruct (drop (Z.to_nat n) xs) as [|x rest]; simpl in Hd.
  - split; [lia |]. split; [now left |]. apply Z.ltb_ge. lia.
  - split; [lia |]. split; [right; lia |]. apply Z.ltb_lt. lia.
Qed.

(** What the schema read from the arguments it accepted. *)
Lemma querySchema_reads (args data : JSValue) :
  querySchema args = ParseOk data ->
  exists sql params,
    get_prop "sql" (entries args) = Some (JStr sql)
    /\ match get_prop "params" (entries args) with
       | Some (JArr xs) => params = xs
       | _ => params = []
       end
    /\ exists more,
        data = JObj (("sql", JStr sql) :: more)
        /\ match more with
           | (_, JArr xs) :: _ => xs
           | _ => []
           end = params.
Proof.
  unfold querySchema.
  destruct args as [| | | | | |props]; try discriminate.
  cbn [entries].
  destruct (get_prop "sql" props) as [[| | | |sql| |]|]; try discriminate.
  destruct (get_prop "params" props) as [[| | | | |xs|]|]; try discriminate;
    intros [= <-].
  - exists sql, []. split; [reflexivity |]. split; [reflexivity |].
    exists []. split; reflexivity.
  - exists sql, xs. split; [reflexivity |]. split; [reflexivity |].
    exists [("params", JArr xs)]. split; reflexivity.
  - exists sql, []. split; [reflexivity |]. split; [reflexivity |].
    exists []. split; reflexivity.
Qed.

End PostgresMore.

(** X23. When [db.query] resolves, the verifier had accepted the
    [sql] of the arguments; the database was sent the timeout
    statement and then that [sql], as submitted, with the [params] of
    the arguments (none when they are absent). The value returned is
    made from the database's answer: [rows] are its first rows, at
    most [max_rows] of them and all of them when they are no more
    than that; [truncated] is true exactly when rows were left out;
    [rowCount] and [fields] are the answer's own. *)
Theorem db_query_returns_at_most_max_rows
        (db : PostgresConnector.Database)
        (cfg : PostgresConnector.PostgresConfig)
        (args v : JSValue) (ms : Z) :
  0 <= PostgresConnector.max_rows cfg ->
  PostgresConnector.query_handler db cfg args
  = Policy.AfterMs ms (Policy.Resolved v) ->
  exists sql params result kept rest,
    get_prop "sql" (entries args) = Some (JStr sql)
    /\ match get_prop "params" (entries args) with
       | Some (JArr xs) => params = xs
       | _ => params = []
       end
    /\ Postgres.validateReadOnlyQuery sql = inr tt
    /\ (exists r0,
           PostgresConnector.query
             db (PostgresConnector.set_statement_timeout cfg) [] = inr r0)
    /\ PostgresConnector.query db sql params = inr result
    /\ ms = PostgresConnector.db_ms db
    /\ PostgresConnector.rows result = kept ++ rest
    /\ Z.of_nat (length kept) <= PostgresConnector.max_rows cfg
    /\ (rest = [] \/ Z.of_nat (length kept) = PostgresConnector.max_rows cfg)
    /\ v = JObj [("rows", JArr kept);
                 ("rowCount",
                  match PostgresConnector.rowCount result with
                  | Some n => JNum n
                  | None => JNull
                  end);
                 ("fields",
                  JArr (map PostgresConnector.field_value
                            (PostgresConnector.fields result)));
                 ("truncated",
                  JBool (match rest with [] => false | _ :: _ => true end));
                 ("maxRows", JNum (PostgresConnector.max_rows cfg))].
Proof.
  intros Hn. unfold PostgresConnector.query_handler.
  destruct (PostgresConnector.querySchema args) as [data| |] eqn:Hschema;
    try discriminate.
  apply PostgresMore.querySchema_reads in Hschema
    as (sql & params & Hsql & Hparams & more & -> & Hmore).
  rewrite Hmore.
  destruct (Postgres.validateReadOnlyQuery sql) as [e|[]] eqn:Hv;
    [discriminate |].
  destruct (PostgresConnector.connect db) as [e|_];
    [destruct (bool_decide _); discriminate |].
  destruct (PostgresConnector.query
              db (PostgresConnector.set_statement_timeout cfg) [])
    as [e|r0] eqn:Hset;
    [destruct (bool_decide _); discriminate |].
  destruct (PostgresConnector.query db sql params) as [e|result] eqn:Hq;
    [destruct (bool_decide _); discriminate |].
  intros [= <- <-].
  destruct (PostgresMore.slice0_split (PostgresConnector.max_rows cfg)
              (PostgresConnector.rows result) Hn)
    as (rest & Hrest & Hlen & Hall & Htrunc).
  exists sql, params, result,
    (PostgresConnector.slice0 (PostgresConnector.max_rows cfg)
                              (PostgresConnector.rows result)), rest.
  unfold PostgresConnector.query_result. rewrite Htrunc.
  repeat (split; [eauto; fail |]). reflexivity.
Qed.

(** Three rows in the table, two allowed. *)
Lemma db_query_returns_at_most_max_rows_witness :
  exists sql params result kept rest,
    get_prop "sql" (entries (JObj [("sql", JStr "SELECT id FROM t")]))
    = Some (JStr sql)
    /\ match get_prop "params"
               (entries (JObj [("sql", JStr "SELECT id FROM t")])) with
       | Some (JArr xs) => params = xs
       | _ => params = []
       end
    /\ Postgres.validateReadOnlyQuery sql = inr tt
    /\ (exists r0,
           PostgresConnector.query
             ConnectorExamples.db_three_rows
             (PostgresConnector.set_statement_timeout
                (ConnectorExamples.pg_config 2)) [] = inr r0)
    /\ PostgresConnector.query ConnectorExamples.db_three_rows sql params
       = inr result
    /\ 4 = PostgresConnector.db_ms ConnectorExamples.db_three_rows
    /\ PostgresConnector.rows result = kept ++ rest
    /\ Z.of_nat (length kept)
       <= PostgresConnector.max_rows (ConnectorExamples.pg_config 2)
    /\ (rest = []
        \/ Z.of_nat (length kept)
           = PostgresConnector.max_rows (ConnectorExamples.pg_config 2))
    /\ JObj [("rows", JArr [JObj [("id", JNum 1)]; JObj [("id", JNum 2)]]);
             ("rowCount", JNum 3);
             ("fields", JArr [JObj [("name", JStr "id");
                                    ("dataTypeId", JNum 23)]]);
             ("truncated", JBool true);
             ("maxRows", JNum 2)]
       = JObj [("rows", JArr kept);
               ("rowCount",
                match PostgresConnector.rowCount result with
                | Some n => JNum n
                | None => JNull
                end);
               ("fields",
                JArr (map PostgresConnector.field_value
                          (PostgresConnector.fields result)));
               ("truncated",
                JBool (match rest with [] => false | _ :: _ => true end));
               ("maxRows",
                JNum (PostgresConnector.max_rows
                        (ConnectorExamples.pg_config 2)))].
Proof.
  apply (db_query_returns_at_most_max_rows
           ConnectorExamples.db_three_rows (ConnectorExamples.pg_config 2)
           (JObj [("sql", JStr "SELECT id FROM t")])
           (JObj [("rows", JArr [JObj [("id", JNum 1)];
                                 JObj [("id", JNum 2)]]);
                  ("rowCount", JNum 3);
                  ("fields", JArr [JObj [("name", JStr "id");
                                         ("dataTypeId", JNum 23)]]);
                  ("truncated", JBool true);
                  ("maxRows", JNum 2)])
           4).
  - vm_compute. discriminate.
  - vm_compute. reflexivity.
Defined.

(** X24. [db.schema] sends the database three fixed statements
    only; the caller's [table] and [schema] travel as parameters.
    Two databases that answer those statements alike give the same
    outcome, whatever the arguments. *)
Theorem db_schema_sends_fixed_statements
        (db db' : PostgresConnector.Database)
        (cfg : PostgresConnector.PostgresConfig) (args : JSValue) :
  PostgresConnector.connect db = PostgresConnector.connect db' ->
  PostgresConnector.db_ms db = PostgresConnector.db_ms db' ->
  (forall text params,
      In text [PostgresConnector.set_statement_timeout cfg;
               PostgresConnector.columns_sql;
               PostgresConnector.tables_sql] ->
      PostgresConnector.query db text params
      = PostgresConnector.query db' text params) ->
  PostgresConnector.schema_handler db cfg args
  = PostgresConnector.schema_handler db' cfg args.
Proof.
  intros Hc Hms Hq. unfold PostgresConnector.schema_handler.
  rewrite Hc, Hms.
  rewrite (Hq (PostgresConnector.set_statement_timeout cfg))
    by (simpl; auto).
  destruct (PostgresConnector.schemaSchema args) as [[| | | | | |ps]| |];
    try reflexivity.
  rewrite !(Hq PostgresConnector.columns_sql) by (simpl; auto).
  rewrite !(Hq PostgresConnector.tables_sql) by (simpl; auto).
  reflexivity.
Qed.

(** A table name that reads like a statement changes nothing. *)
Lemma db_schema_sends_fixed_statements_witness :
  PostgresConnector.schema_handler ConnectorExamples.db_three_rows
    (ConnectorExamples.pg_config 2) (JObj [("table", JStr "DROP TABLE t")])
  = PostgresConnector.schema_handler ConnectorExamples.db_guarded
      (ConnectorExamples.pg_config 2) (JObj [("table", JStr "DROP TABLE t")]).
Proof.
  apply (db_schema_sends_fixed_statements
           ConnectorExamples.db_three_rows ConnectorExamples.db_guarded
           (ConnectorExamples.pg_config 2)
           (JObj [("table", JStr "DROP TABLE t")])).
  - reflexivity.
  - reflexivity.
  - intros text params [<- | [<- | [<- | []]]]; reflexivity.
Defined.

(** ** The built-in connectors together *)

(** X25. [createGateway] never fails on a name clash: for every
    configuration it registers exactly the tools of the enabled
    connectors, in the order fs.readFile, fs.listDir, web.fetch,
    db.query, db.schema; the PostgreSQL tools only when a database
    and a user are configured. *)
Theorem createGateway_registers_enabled_connectors
        (cwd : string) (fsys : Filesystem.FileSystem)
        (URL_parse : string -> option HttpFetch.URL)
        (perform_fetch :
           Config.HttpFetchConfig -> HttpFetch.URL ->
           list (string * string) -> Policy.Settles)
        (db : PostgresConnector.Database)
        (cfg : Config.GatewayConfig) (connectors : Server.ConnectorsConfig) :
  snd (Server.createGateway cwd fsys URL_parse perform_fetch db
                            cfg connectors) = None
  /\ MCP.listTools
       (fst (Server.createGateway cwd fsys URL_parse perform_fetch db
                                  cfg connectors))
     = (if Config.fs_enabled (Server.filesystem connectors)
        then ["fs.readFile"; "fs.listDir"] else [])
       ++ (if Config.http_enabled (Server.http_fetch connectors)
           then ["web.fetch"] else [])
       ++ (if PostgresConnector.pg_enabled (Server.postgres connectors)
              && negb (PostgresConnector.unset
                         (PostgresConnector.pg_database
                            (Server.postgres connectors)))
              && negb (PostgresConnector.unset
                         (PostgresConnector.pg_user
                            (Server.postgres connectors)))
           then ["db.query"; "db.schema"] else []).
Proof.
  unfold Server.createGateway, Server.loadConnectorTools,
    Filesystem.createFilesystemTools, HttpFetch.createHttpFetchTools,
    PostgresConnector.createPostgresTools.
  destruct (Config.fs_enabled _), (Config.http_enabled _),
    (PostgresConnector.pg_enabled _),
    (PostgresConnector.unset (PostgresConnector.pg_database _)),
    (PostgresConnector.unset (PostgresConnector.pg_user _));
    split; reflexivity.
Qed.

Module BuiltinFacts.
Import Policy Config MCP Pipeline BuiltinSpec.

(** Case analysis on the innermost scrutinee, until none is left. *)
Ltac break_handler :=
  repeat match goal with
         | |- context [match ?x with _ => _ end] =>
             lazymatch x with
             | context [match _ with _ => _ end] => fail
             | _ => destruct x
             end
         end.

Section WithCwd.
Variable cwd : string.

(** [listDirectory] itself fails with an errno only. *)
Lemma listDirectory_errno (fsys : Filesystem.FileSystem)
      (cfg : FilesystemConfig) (recursive : bool) (levels : nat) :
  forall (dirPath : string) (f : Filesystem.Failure),
    Filesystem.listDirectory cwd fsys cfg recursive levels dirPath = inl f ->
    exists e, f = Filesystem.Errno e.
Proof.
  induction levels as [|levels IH]; intros dirPath f.
  - cbn [Filesystem.listDirectory].
    destruct (Filesystem.readdir fsys dirPath) as [e|dirEntries];
      cbn [Filesystem.lift]; [intros [= <-]; eauto |].
    induction dirEntries as [|entry rest IHr]; [discriminate |].
    destruct (negb (Filesystem.isPathAllowed cwd _ _ _)).
    + destruct ((fix each (ents0 : list Filesystem.Dirent) := _) rest)
        as [e|more]; [| discriminate].
      intros [= <-]. now apply IHr.
    + destruct (Filesystem.d_isFile entry).
      * destruct (Filesystem.stat fsys _) as [e|st]; cbn [Filesystem.lift];
          [intros [= <-]; eauto |].
        destruct ((fix each (ents0 : list Filesystem.Dirent) := _) rest)
          as [e|more]; [| discriminate].
        intros [= <-]. now apply IHr.
      * destruct (Filesystem.d_isDirectory entry);
          (destruct ((fix each (ents0 : list Filesystem.Dirent) := _) rest)
             as [e|more]; [| discriminate]);
          intros [= <-]; now apply IHr.
  - cbn [Filesystem.listDirectory].
    destruct (Filesystem.readdir fsys dirPath) as [e|dirEntries];
      cbn [Filesystem.lift]; [intros [= <-]; eauto |].
    induction dirEntries as [|entry rest IHr]; [discriminate |].
    destruct (negb (Filesystem.isPathAllowed cwd _ _ _)).
    + destruct ((fix each (ents0 : list Filesystem.Dirent) := _) rest)
        as [e|more]; [| discriminate].
      intros [= <-]. now apply IHr.
    + destruct (Filesystem.d_isFile entry).
      * destruct (Filesystem.stat fsys _) as [e|st]; cbn [Filesystem.lift];
          [intros [= <-]; eauto |].
        destruct ((fix each (ents0 : list Filesystem.Dirent) := _) rest)
          as [e|more]; [| discriminate].
        intros [= <-]. now apply IHr.
      * destruct (Filesystem.d_isDirectory entry).
        -- destruct recursive.
           ++ destruct (Filesystem.listDirectory cwd fsys cfg true levels _)
                as [e|sub] eqn:Hsub.
              ** intros [= <-]. eapply IH, Hsub.
              ** destruct ((fix each (ents0 : list Filesystem.Dirent) := _)
                             rest) as [e|more]; [| discriminate].
                 intros [= <-]. now apply IHr.
           ++ destruct ((fix each (ents0 : list Filesystem.Dirent) := _) rest)
                as [e|more]; [| discriminate].
              intros [= <-]. now apply IHr.
        -- destruct ((fix each (ents0 : list Filesystem.Dirent) := _) rest)
             as [e|more]; [| discriminate].
           intros [= <-]. now apply IHr.
Qed.

Lemma rethrow_errno_code (what notFound path : string)
      (e : Filesystem.FsError) :
  errorToCode (Filesystem.rethrow what notFound path (Filesystem.Errno e))
  = "CONNECTOR_ERROR".
Proof. destruct e; reflexivity. Qed.

Lemma readFile_handler_codes (fsys : Filesystem.FileSystem)
      (cfg : FilesystemConfig) (args : JSValue) (e : Thrown) :
  thrown_by (Filesystem.readFile_handler cwd fsys cfg args) = Some e ->
  In (errorToCode e) handler_codes.
Proof.
  unfold Filesystem.readFile_handler, Filesystem.validatePath,
    Filesystem.lift, thrown_by.
  break_handler; intros [= <-]; simpl; break_handler; simpl; auto 10.
Qed.

Lemma listDir_handler_codes (fsys : Filesystem.FileSystem)
      (cfg : FilesystemConfig) (args : JSValue) (e : Thrown) :
  thrown_by (Filesystem.listDir_handler cwd fsys cfg args) = Some e ->
  In (errorToCode e) handler_codes.
Proof.
  unfold Filesystem.listDir_handler, Filesystem.validatePath, thrown_by.
  destruct (Filesystem.listDirSchema args) as [data| |];
    try (intros [= <-]; simpl; auto 10; fail).
  destruct data as [| | | | | |ps]; try (intros [= <-]; simpl; auto 10; fail).
  destruct ps as [|[k1 [| | | |path| |]] ps];
    try (intros [= <-]; simpl; auto 10; fail).
  destruct ps as [|[k2 [| |recursive| | | |]] ps];
    try (intros [= <-]; simpl; auto 10; fail).
  destruct ps as [|[k3 [| | |maxDepth| | |]] ps];
    try (intros [= <-]; simpl; auto 10; fail).
  destruct ps; try (intros [= <-]; simpl; auto 10; fail).
  destruct (includes path ".." && _); [intros [= <-]; simpl; auto 10 |].
  destruct (negb _); [intros [= <-]; simpl; auto 10 |].
  destruct (Filesystem.stat fsys _) as [err|st]; cbn [Filesystem.lift].
  { intros [= <-]. destruct err; simpl; auto 10. }
  destruct (negb (Filesystem.isDirectory st));
    [intros [= <-]; simpl; auto 10 |].
  destruct (Filesystem.listDirectory cwd fsys cfg recursive _ _)
    as [f|ents] eqn:Hl; [| discriminate].
  apply listDirectory_errno in Hl as [err ->].
  intros [= <-]. destruct err; simpl; auto 10.
Qed.

End WithCwd.

Lemma request_codes (TextDecoder_decode : list Byte.byte -> string)
      (fetch : string -> list (string * string) -> HttpRequest.FetchOutcome)
      (cfg : HttpFetchConfig) (u : HttpFetch.URL)
      (hdrs : list (string * string)) (e : Thrown) :
  thrown_by (HttpRequest.request TextDecoder_decode fetch cfg u hdrs)
  = Some e ->
  In (errorToCode e) handler_codes.
Proof.
  unfold HttpRequest.request, HttpRequest.read_response, HttpRequest.rethrow,
    HttpRequest.aborted, thrown_by.
  break_handler; intros [= <-]; simpl; auto 10.
Qed.

Lemma fetch_handler_codes (URL_parse : string -> option HttpFetch.URL)
      (TextDecoder_decode : list Byte.byte -> string)
      (fetch : string -> list (string * string) -> HttpRequest.FetchOutcome)
      (cfg : HttpFetchConfig) (args : JSValue) (e : Thrown) :
  thrown_by (HttpFetch.fetch_handler
               URL_parse (HttpRequest.request TextDecoder_decode fetch)
               cfg args) = Some e ->
  In (errorToCode e) handler_codes.
Proof.
  unfold HttpFetch.fetch_handler.
  destruct (HttpFetch.fetchSchema URL_parse args) as [data| |];
    try (intros [= <-]; simpl; auto 10; fail).
  destruct data as [| | | | | |ps]; try (intros [= <-]; simpl; auto 10; fail).
  destruct ps as [|[k1 [| | | |url| |]] more];
    try (intros [= <-]; simpl; auto 10; fail).
  destruct (HttpFetch.validateUrl URL_parse url cfg) as [err|u] eqn:Hv.
  - unfold HttpFetch.validateUrl in Hv. revert Hv. break_handler;
      intros [= <-] [= <-]; simpl; auto 10.
  - apply request_codes.
Qed.

Lemma query_handler_codes (db : PostgresConnector.Database)
      (cfg : PostgresConnector.PostgresConfig) (args : JSValue) (e : Thrown) :
  thrown_by (PostgresConnector.query_handler db cfg args) = Some e ->
  In (errorToCode e) handler_codes.
Proof.
  unfold PostgresConnector.query_handler.
  destruct (PostgresConnector.querySchema args) as [data| |];
    try (intros [= <-]; simpl; auto 10; fail).
  destruct data as [| | | | | |ps]; try (intros [= <-]; simpl; auto 10; fail).
  destruct ps as [|[k1 [| | | |sql| |]] more];
    try (intros [= <-]; simpl; auto 10; fail).
  destruct (Postgres.validateReadOnlyQuery sql) as [err|[]] eqn:Hv.
  - unfold Postgres.validateReadOnlyQuery in Hv. revert Hv. break_handler;
      intros [= <-] [= <-]; simpl; auto 10.
  - unfold thrown_by. break_handler; intros [= <-]; simpl; auto 10.
Qed.

Lemma schema_handler_codes (db : PostgresConnector.Database)
      (cfg : PostgresConnector.PostgresConfig) (args : JSValue) (e : Thrown) :
  thrown_by (PostgresConnector.schema_handler db cfg args) = Some e ->
  In (errorToCode e) handler_codes.
Proof.
  unfold PostgresConnector.schema_handler, thrown_by.
  destruct (PostgresConnector.schemaSchema args) as [data| |];
    try (intros [= <-]; simpl; auto 10; fail).
  destruct data as [| | | | | |ps]; try (intros [= <-]; simpl; auto 10; fail).
  break_handler; intros [= <-]; simpl; auto 10.
Qed.

End BuiltinFacts.

(** X26. Whatever the filesystem, the HTTP client and the database
    do, a handler of the built-in connectors rejects only with
    SECURITY_ERROR, CONNECTOR_ERROR, TIMEOUT, MAX_BYTES_EXCEEDED or
    (for arguments its schema refuses) INTERNAL_ERROR. So no handler
    of a gateway made by [createGateway] throws the policy engine's
    code or an empty code. *)
Theorem builtin_handlers_keep_codes
        (cwd : string) (fsys : Filesystem.FileSystem)
        (URL_parse : string -> option HttpFetch.URL)
        (TextDecoder_decode : list Byte.byte -> string)
        (fetch : string -> list (string * string) -> HttpRequest.FetchOutcome)
        (db : PostgresConnector.Database)
        (cfg : Config.GatewayConfig) (connectors : Server.ConnectorsConfig) :
  (forall tool data e,
      In tool (Server.loadConnectorTools cwd fsys URL_parse
                 (HttpRequest.request TextDecoder_decode fetch)
                 db connectors) ->
      Pipeline.thrown_by (MCP.handler tool data) = Some e ->
      In (errorToCode e) BuiltinSpec.handler_codes)
  /\ Pipeline.handlers_keep_codes
       (fst (Server.createGateway cwd fsys URL_parse
               (HttpRequest.request TextDecoder_decode fetch)
               db cfg connectors)).
Proof.
  assert (Hcodes : forall tool data e,
             In tool (Server.loadConnectorTools cwd fsys URL_parse
                        (HttpRequest.request TextDecoder_decode fetch)
                        db connectors) ->
             Pipeline.thrown_by (MCP.handler tool data) = Some e ->
             In (errorToCode e) BuiltinSpec.handler_codes).
  { intros tool data e Hin.
    unfold Server.loadConnectorTools in Hin.
    apply in_app_or in Hin as [Hin | Hin];
      [| apply in_app_or in Hin as [Hin | Hin]].
    - unfold Filesystem.createFilesystemTools in Hin.
      destruct (negb _); [destruct Hin |].
      destruct Hin as [<- | [<- | []]]; cbn [MCP.handler].
      + apply BuiltinFacts.readFile_handler_codes.
      + apply BuiltinFacts.listDir_handler_codes.
    - unfold HttpFetch.createHttpFetchTools in Hin.
      destruct (negb _); [destruct Hin |].
      destruct Hin as [<- | []]; cbn [MCP.handler].
      apply BuiltinFacts.fetch_handler_codes.
    - unfold PostgresConnector.createPostgresTools in Hin.
      destruct (negb _); [destruct Hin |].
      destruct (_ || _); [destruct Hin |].
      destruct Hin as [<- | [<- | []]]; cbn [MCP.handler].
      + apply BuiltinFacts.query_handler_codes.
      + apply BuiltinFacts.schema_handler_codes. }
  split; [exact Hcodes |].
  intros toolName tool data e Hget Hthrown.
  unfold Server.createGateway in Hget.
  destruct (RegistryMore.registerTools_order
              (Server.loadConnectorTools cwd fsys URL_parse
                 (HttpRequest.request TextDecoder_decode fetch)
                 db connectors)
              (MCP.new_MCPGateway cfg))
    as (pre & rest & Hts & Htools & _).
  rewrite Htools in Hget. cbn [MCP.new_MCPGateway MCP.tools app] in Hget.
  apply RegistryMore.Map_get_In in Hget as [k' Hget].
  apply in_map_iff in Hget as (t & [= _ ->] & Hin).
  assert (Hin' : In tool (Server.loadConnectorTools cwd fsys URL_parse
                            (HttpRequest.request TextDecoder_decode fetch)
                            db connectors))
    by (rewrite Hts; apply in_or_app; now left).
  specialize (Hcodes tool data e Hin' Hthrown).
  unfold BuiltinSpec.handler_codes in Hcodes.
  split; intros E; rewrite E in Hcodes; simpl in Hcodes;
    intuition discriminate.
Qed.
